(** * ACE playbook engine: store, curator and pipeline

    A shallow embedding of [ace/playbook_manager.py], [ace/curator_agent.py]
    and [ace/ace_pipeline.py].

    Conventions of the embedding:
    - Python [str] is [string] (ASCII text); [int] is [Z]; [float] is the
      kernel's binary64 [float], so that [nan > 0.5] is [false] as in Python.
    - The module-level singleton [playbook_manager] is the [pm] component of
      a [World]; every method is a state transformer that may raise.
    - OpenAI embeddings, numpy, FAISS, the wall clock, [uuid.uuid4] and the
      file system are collaborators outside the repository.  They are the
      fields of the class [Env]; each interaction appends an [event] to the
      world's trace, and the oracle is asked at the logical time of the
      interaction (the length of the trace), so an oracle may answer
      differently from one call to the next. *)

From Stdlib Require Import ZArith QArith List String Ascii PrimFloat DecimalString.
From stdpp Require Import gmap strings list fin_maps sorting.

Set Warnings "-inexact-float".
Set Default Proof Using "Type".
Local Open Scope string_scope.
Local Open Scope list_scope.

(** ** Python string primitives (ASCII) *)

Module PyStr.

Definition nl : string := String (ascii_of_nat 10) EmptyString.

Definition is_upper (c : ascii) : bool :=
  let n := nat_of_ascii c in (65 <=? n)%nat && (n <=? 90)%nat.

Definition lower_char (c : ascii) : ascii :=
  if is_upper c then ascii_of_nat (nat_of_ascii c + 32) else c.

(** [s.lower()] *)
Fixpoint lower (s : string) : string :=
  match s with
  | EmptyString => EmptyString
  | String c t => String (lower_char c) (lower t)
  end.

(** [s.startswith(p)] *)
Fixpoint startswith (p s : string) : bool :=
  match p, s with
  | EmptyString, _ => true
  | String _ _, EmptyString => false
  | String a p', String b s' => if Ascii.eqb a b then startswith p' s' else false
  end.

(** [needle in hay] *)
Fixpoint contains (needle hay : string) : bool :=
  startswith needle hay ||
  match hay with
  | EmptyString => false
  | String _ t => contains needle t
  end.

(** [str.isspace] on one ASCII character: TAB, LF, VT, FF, CR, the four
    separators FS..US and the space. *)
Definition is_space (c : ascii) : bool :=
  let n := nat_of_ascii c in
  ((9 <=? n)%nat && (n <=? 13)%nat) || ((28 <=? n)%nat && (n <=? 32)%nat).

Fixpoint lstrip (s : string) : string :=
  match s with
  | EmptyString => EmptyString
  | String c t => if is_space c then lstrip t else s
  end.

Fixpoint rstrip (s : string) : string :=
  match s with
  | EmptyString => EmptyString
  | String c t =>
      match rstrip t with
      | EmptyString => if is_space c then EmptyString else String c EmptyString
      | t' => String c t'
      end
  end.

(** [s.strip()] *)
Definition strip (s : string) : string := rstrip (lstrip s).

(** [s.split('\n')] *)
Fixpoint split_nl (s : string) : list string :=
  match s with
  | EmptyString => [EmptyString]
  | String c t =>
      if Ascii.eqb c (ascii_of_nat 10) then EmptyString :: split_nl t
      else match split_nl t with
           | x :: r => String c x :: r
           | [] => [String c EmptyString]
           end
  end.

(** [sep.join(parts)] *)
Definition join (sep : string) (parts : list string) : string :=
  String.concat sep parts.

(** [str(n)] for a non-negative integer *)
Definition of_nat (n : nat) : string := NilZero.string_of_uint (Nat.to_uint n).

(** [s[:n]] for [n >= 0] *)
Definition slice_to (n : nat) (s : string) : string := String.substring 0 n s.

(** Truth value of a string: non-empty. *)
Definition truthy (s : string) : bool :=
  match s with EmptyString => false | _ => true end.

(** [any(w in s for w in ws)] *)
Definition any_in (ws : list string) (s : string) : bool :=
  existsb (fun w => contains w s) ws.

End PyStr.

(** ** Data model *)

(** [playbook_manager.Bullet] *)
Record Bullet := mkBullet {
  id : string;
  helpful : Z;
  harmful : Z;
  content : string;
  section : string;
  created_at : string;
  last_used : string;
}.

(** [reflector_agent.ReflectionInsight] *)
Record ReflectionInsight := mkInsight {
  error_identification : string;
  root_cause_analysis : string;
  correct_approach : string;
  key_insight : string;
  bullet_tags : list (list (string * string));
  confidence : float;
}.

(** [curator_agent.DeltaOperation]; [operation] is the free string of the
    source ("ADD", "UPDATE", "DEDUPLICATE"). *)
Record DeltaOperation := mkOp {
  operation : string;
  bullet_id : option string;
  op_content : option string;
  op_section : option string;
  helpful_increment : Z;
  harmful_increment : Z;
}.

(** [curator_agent.DeltaUpdate] *)
Record DeltaUpdate := mkDelta {
  operations : list DeltaOperation;
  timestamp : string;
  source_feedback_id : string;
  total_operations : nat;
}.

(** [feedback_system.FeedbackData]: the fields the pipeline reads.
    [rating] is [Optional[int]]. *)
Record FeedbackData := mkFeedback {
  feedback_id : string;
  user_feedback : string;
  feedback_type : string;
  rating : option Z;
}.

(** ** Curator: pure text functions *)

Module Curator.
Import PyStr.

(** [CuratorAgent._determine_section]: the if/elif chain of the source. *)
Definition _determine_section (insight : ReflectionInsight) : string :=
  let content_lower := lower (key_insight insight) in
  if any_in ["explain"; "definition"; "what is"; "describe"] content_lower
  then "Explanation Strategies"
  else if any_in ["calculate"; "math"; "compute"; "solve"] content_lower
  then "Calculation Strategies"
  else if any_in ["search"; "find"; "look up"; "research"] content_lower
  then "Search Strategies"
  else if any_in ["time"; "date"; "schedule"] content_lower
  then "Time Management"
  else if any_in ["user"; "personal"; "individual"] content_lower
  then "User Interaction"
  else if any_in ["error"; "mistake"; "wrong"; "incorrect"] content_lower
  then "Error Prevention"
  else if any_in ["format"; "structure"; "organize"; "bullet"] content_lower
  then "Response Formatting"
  else "General Strategies".

(** The same policy as the specification words it: an ordered table of
    categories with their keywords, the first category with a keyword in
    the text wins, and a default label otherwise. *)
Definition section_table : list (string * list string) :=
  [ ("Explanation Strategies", ["explain"; "definition"; "what is"; "describe"]);
    ("Calculation Strategies", ["calculate"; "math"; "compute"; "solve"]);
    ("Search Strategies", ["search"; "find"; "look up"; "research"]);
    ("Time Management", ["time"; "date"; "schedule"]);
    ("User Interaction", ["user"; "personal"; "individual"]);
    ("Error Prevention", ["error"; "mistake"; "wrong"; "incorrect"]);
    ("Response Formatting", ["format"; "structure"; "organize"; "bullet"]) ].

Fixpoint first_match (table : list (string * list string)) (default text : string)
  : string :=
  match table with
  | [] => default
  | (label, keywords) :: rest =>
      if any_in keywords text then label else first_match rest default text
  end.

Definition tech_terms : list string :=
  ["HumanMessage"; "AIMessage"; "{"; "}"; "additional_kwargs"; "response_metadata"].

(** The test shared by [_clean_and_format_content] and
    [_create_fallback_insight]:
    [insight.error_identification and "no error" not in ....lower()] *)
Definition is_error_case (insight : ReflectionInsight) : bool :=
  truthy (error_identification insight) &&
  negb (contains "no error" (lower (error_identification insight))).

(** [enumerate(lines, 1)] filtered on [line.strip()] and rendered as
    ["{i}. {line.strip()}"]. *)
Fixpoint numbered_lines (i : nat) (lines : list string) : list string :=
  match lines with
  | [] => []
  | line :: rest =>
      if truthy (strip line)
      then (of_nat i +:+ ". " +:+ strip line) :: numbered_lines (S i) rest
      else numbered_lines (S i) rest
  end.

(** [CuratorAgent._apply_structured_formatting] *)
Definition _apply_structured_formatting (content : string) : string :=
  let content :=
    if contains nl content &&
       negb (existsb (fun p => startswith p content) ["1."; "2."; "3."; "4."; "5."])
    then
      let lines := split_nl content in
      if (1 <? length lines)%nat
      then join nl (numbered_lines 1 lines)
      else content
    else content in
  strip content.

(** [CuratorAgent._create_fallback_insight] *)
Definition _create_fallback_insight (insight : ReflectionInsight) : string :=
  if is_error_case insight
  then "When " +:+ lower (error_identification insight) +:+
       ", use this approach: " +:+ correct_approach insight
  else "Success pattern: " +:+ correct_approach insight.

(** [CuratorAgent._clean_and_format_content] *)
Definition _clean_and_format_content (content : string) (insight : ReflectionInsight)
  : string :=
  let formatted :=
    if any_in tech_terms content then
      if is_error_case insight
      then "When " +:+ lower (error_identification insight) +:+
           ", avoid this approach and instead: " +:+ correct_approach insight
      else "When answering similar questions, use this approach: " +:+
           correct_approach insight
    else strip content in
  let formatted := _apply_structured_formatting formatted in
  if negb (truthy formatted) || (String.length formatted <? 10)%nat
  then _create_fallback_insight insight
  else formatted.

(** [CuratorAgent._format_bullet_content] (the prints left out) *)
Definition _format_bullet_content (content : string) (insight : ReflectionInsight)
  : string :=
  _clean_and_format_content content insight.

End Curator.


(** ** Collaborators, exceptions and the world *)

Inductive exn := TypeError | IndexError | OSError.

(** What the program asks of its surroundings, in the order it asks. *)
Inductive event :=
| EmbedQuery (text : string)
| Now
| Uuid4
| SavePlaybook
| SaveDeltaLog
| LlmReflection
| CallAddBullet (content : option string) (section : string)
| CallUpdateCounters (bullet_id : string) (helpful : bool).

(** The collaborators.  [embed_query t text = None] is the provider raising;
    [index_search idx q k] is [IndexFlatIP.search] on the vectors [idx]: the
    [k] pairs of inner product and position, position [-1] where the index
    has fewer than [k] vectors, for [k >= 1] (FAISS refuses [k = 0]);
    [write_fails t] is [save_playbook] failing on a file write at time
    [t]. *)
Class Env := {
  vec : Type;
  zeros : vec;
  norm : vec -> float;
  dot : vec -> vec -> float;
  divide : vec -> float -> vec;
  embed_query : nat -> string -> option vec;
  index_search : list vec -> vec -> nat -> list (float * Z);
  isoformat : nat -> string;
  uuid4 : nat -> string;
  write_fails : nat -> bool;
  generate_reflection :
    nat -> string -> string -> string -> string -> option Z -> ReflectionInsight;
}.

Inductive outcome (A : Type) :=
| Ret (a : A)
| Raise (e : exn).
Arguments Ret {A} a.
Arguments Raise {A} e.

Section WithEnv.
Context `{Env}.

(** The fields of [PlaybookManager] that change after construction. *)
Record PlaybookManager := mkPM {
  bullets : list Bullet;
  index : list vec;
  bullet_id_to_index : gmap string nat;
}.

Record World := mkWorld {
  pm : PlaybookManager;
  trace : list event;
}.

(** State and exceptions: a raise keeps the state reached so far. *)
Definition M (A : Type) : Type := World -> World * outcome A.

Definition ret {A} (a : A) : M A := fun w => (w, Ret a).

Definition raise {A} (e : exn) : M A := fun w => (w, Raise e).

Definition bind {A B} (c : M A) (k : A -> M B) : M B :=
  fun w =>
    match c w with
    | (w', Ret a) => k a w'
    | (w', Raise e) => (w', Raise e)
    end.

(** [try: c except Exception: h] *)
Definition try_except {A} (c : M A) (h : exn -> M A) : M A :=
  fun w =>
    match c w with
    | (w', Ret a) => (w', Ret a)
    | (w', Raise e) => h e w'
    end.

Definition lift {A} (o : outcome A) : M A := fun w => (w, o).

Definition emit (e : event) : M nat :=
  fun w => (mkWorld (pm w) (trace w ++ [e]), Ret (length (trace w))).

Definition get_pm : M PlaybookManager := fun w => (w, Ret (pm w)).

Definition put_pm (p : PlaybookManager) : M unit :=
  fun w => (mkWorld p (trace w), Ret tt).

End WithEnv.

Declare Scope py_scope.
Delimit Scope py_scope with py.
Notation "x <- c ;; k" := (bind c (fun x => k))
  (at level 100, c at next level, k at level 200, right associativity) : py_scope.
Notation "c ;; k" := (bind c (fun _ => k))
  (at level 100, k at level 200, right associativity) : py_scope.
Local Open Scope py_scope.

(** ** playbook_manager.py *)

Section PlaybookManagerMethods.
Context `{Env}.

Definition set_bullets (bs : list Bullet) : M unit :=
  p <- get_pm ;;
  put_pm (mkPM bs (index p) (bullet_id_to_index p)).

Definition set_index (ix : list vec) : M unit :=
  p <- get_pm ;;
  put_pm (mkPM (bullets p) ix (bullet_id_to_index p)).

Definition set_bullet_id_to_index (m : gmap string nat) : M unit :=
  p <- get_pm ;;
  put_pm (mkPM (bullets p) (index p) m).

(** [datetime.now().isoformat()] *)
Definition now_isoformat : M string :=
  t <- emit Now ;;
  ret (isoformat t).

(** [PlaybookManager._get_embedding]: zero vector when the provider raises. *)
Definition _get_embedding (text : string) : M vec :=
  t <- emit (EmbedQuery text) ;;
  ret (match embed_query t text with
       | Some embedding => embedding
       | None => zeros
       end).

(** [PlaybookManager._normalize_embedding] *)
Definition _normalize_embedding (embedding : vec) : vec :=
  let n := norm embedding in
  if PrimFloat.ltb 0 n then divide embedding n else embedding.

(** [PlaybookManager.save_playbook]: writes the three files from the
    in-memory state, which it does not change; a failed write raises. *)
Definition save_playbook : M unit :=
  t <- emit SavePlaybook ;;
  if write_fails t then raise OSError else ret tt.

(** [PlaybookManager.add_bullet].  [content] is [None] when [merge_delta]
    passes an operation without content: [content[:100]] then raises before
    the bullet is appended. *)
Definition add_bullet (content : option string) (section : string) : M string :=
  emit (CallAddBullet content section) ;;
  t <- emit Uuid4 ;;
  let bullet_id := "ctx-" +:+ PyStr.slice_to 8 (uuid4 t) in
  created_at <- now_isoformat ;;
  (* Bullet.__post_init__ *)
  created_at <- (if PyStr.truthy created_at then ret created_at else now_isoformat) ;;
  match content with
  | None => raise TypeError
  | Some content =>
      let bullet := mkBullet bullet_id 0 0 content section created_at created_at in
      p <- get_pm ;;
      set_bullets (bullets p ++ [bullet]) ;;
      p <- get_pm ;;
      set_bullet_id_to_index
        (<[bullet_id := (length (bullets p) - 1)%nat]> (bullet_id_to_index p)) ;;
      embedding <- _get_embedding content ;;
      let normalized_embedding := _normalize_embedding embedding in
      p <- get_pm ;;
      set_index (index p ++ [normalized_embedding]) ;;
      save_playbook ;;
      ret bullet_id
  end.

(** [self.bullets[i]] for [i >= 0] *)
Definition bullet_at (i : nat) : M Bullet :=
  p <- get_pm ;;
  match bullets p !! i with
  | Some b => ret b
  | None => raise IndexError
  end.

(** In-place mutation of the object [self.bullets[i]]. *)
Definition mutate_bullet (i : nat) (f : Bullet -> Bullet) : M unit :=
  p <- get_pm ;;
  set_bullets (alter f i (bullets p)).

Definition incr_helpful (b : Bullet) : Bullet :=
  mkBullet (id b) (helpful b + 1) (harmful b) (content b) (section b)
           (created_at b) (last_used b).

Definition incr_harmful (b : Bullet) : Bullet :=
  mkBullet (id b) (helpful b) (harmful b + 1) (content b) (section b)
           (created_at b) (last_used b).

Definition set_last_used (ts : string) (b : Bullet) : Bullet :=
  mkBullet (id b) (helpful b) (harmful b) (content b) (section b)
           (created_at b) ts.

(** [PlaybookManager.update_counters] *)
Definition update_counters (bullet_id : string) (helpful : bool) : M bool :=
  emit (CallUpdateCounters bullet_id helpful) ;;
  p <- get_pm ;;
  match bullet_id_to_index p !! bullet_id with
  | None => ret false
  | Some index =>
      bullet_at index ;;
      mutate_bullet index (if helpful then incr_helpful else incr_harmful) ;;
      ts <- now_isoformat ;;
      mutate_bullet index (set_last_used ts) ;;
      save_playbook ;;
      ret true
  end.

(** [seq[i]] with Python's negative positions *)
Definition py_getitem {A} (l : list A) (i : Z) : option A :=
  if (i <? 0)%Z
  then if (i <? - Z.of_nat (length l))%Z then None
       else l !! Z.to_nat (Z.of_nat (length l) + i)
  else l !! Z.to_nat i.

(** The loop of [retrieve_relevant] over [zip(scores[0], indices[0])]. *)
Fixpoint collect_relevant (bs : list Bullet) (hits : list (float * Z))
  : outcome (list Bullet) :=
  match hits with
  | [] => Ret []
  | (score, idx) :: rest =>
      if (idx <? Z.of_nat (length bs))%Z then
        match py_getitem bs idx with
        | None => Raise IndexError
        | Some bullet =>
            match collect_relevant bs rest with
            | Ret acc =>
                Ret (if (harmful bullet <=? helpful bullet)%Z then bullet :: acc else acc)
            | Raise e => Raise e
            end
        end
      else collect_relevant bs rest
  end.

(** [PlaybookManager.retrieve_relevant] *)
Definition retrieve_relevant (query : string) (top_k : nat) : M (list Bullet) :=
  p <- get_pm ;;
  match bullets p with
  | [] => ret []
  | _ :: _ =>
      query_embedding <- _get_embedding query ;;
      let normalized_query := _normalize_embedding query_embedding in
      let hits := index_search (index p) normalized_query
                               (Nat.min top_k (length (bullets p))) in
      relevant_bullets <- lift (collect_relevant (bullets p) hits) ;;
      ret (take top_k relevant_bullets)
  end.

(** [PlaybookManager._rebuild_index]: the loop over [enumerate(self.bullets)] *)
Fixpoint rebuild_loop (i : nat) (bs : list Bullet) : M unit :=
  match bs with
  | [] => ret tt
  | bullet :: rest =>
      p <- get_pm ;;
      set_bullet_id_to_index (<[id bullet := i]> (bullet_id_to_index p)) ;;
      embedding <- _get_embedding (content bullet) ;;
      let normalized_embedding := _normalize_embedding embedding in
      p <- get_pm ;;
      set_index (index p ++ [normalized_embedding]) ;;
      rebuild_loop (S i) rest
  end.

Definition _rebuild_index : M unit :=
  set_index [] ;;
  set_bullet_id_to_index ∅ ;;
  p <- get_pm ;;
  rebuild_loop 0 (bullets p).

(** [bullet.helpful / max(bullet.harmful, 1)].  Python computes the correctly
    rounded binary64 quotient of the two integers; the exact quotient is used
    here, which orders any two ratios the same way as long as the counters
    stay below 2^26.  For a quotient beyond the binary64 range Python
    raises [OverflowError]; that exception is not modelled, so nothing is
    stated about which exceptions the loops of [deduplicate] can raise. *)
Definition ratio (b : Bullet) : Q :=
  (inject_Z (helpful b) / inject_Z (Z.max (harmful b) 1))%Q.

(** [winner.helpful += loser.helpful; winner.harmful += loser.harmful] *)
Definition absorb (loser winner : Bullet) : Bullet :=
  mkBullet (id winner) (helpful winner + helpful loser) (harmful winner + harmful loser)
           (content winner) (section winner) (created_at winner) (last_used winner).

(** The inner loop of [deduplicate], [for j in range(i + 1, len(self.bullets))],
    over the remaining values [js] of [j]; the result is [bullets_to_remove].
    The [break] of the source is the branch that returns without recursing. *)
Fixpoint dedup_inner (similarity_threshold : float) (i : nat) (js : list nat)
  (bullets_to_remove : gset nat) : M (gset nat) :=
  match js with
  | [] => ret bullets_to_remove
  | j :: js' =>
      if decide (j ∈ bullets_to_remove)
      then dedup_inner similarity_threshold i js' bullets_to_remove
      else
        bullet_i <- bullet_at i ;;
        bullet_j <- bullet_at j ;;
        emb_i <- _get_embedding (content bullet_i) ;;
        emb_j <- _get_embedding (content bullet_j) ;;
        let norm_i := norm emb_i in
        let norm_j := norm emb_j in
        if PrimFloat.ltb 0 norm_i && PrimFloat.ltb 0 norm_j then
          let similarity := (dot emb_i emb_j / (norm_i * norm_j))%float in
          if PrimFloat.leb similarity_threshold similarity then
            if Qle_bool (ratio bullet_j) (ratio bullet_i) then
              mutate_bullet i (absorb bullet_j) ;;
              dedup_inner similarity_threshold i js' ({[j]} ∪ bullets_to_remove)
            else
              mutate_bullet j (absorb bullet_i) ;;
              ret ({[i]} ∪ bullets_to_remove)
          else dedup_inner similarity_threshold i js' bullets_to_remove
        else dedup_inner similarity_threshold i js' bullets_to_remove
  end.

(** The outer loop, [for i in range(len(self.bullets))], over the remaining
    values [rows] of [i]; [n] is [len(self.bullets)]. *)
Fixpoint dedup_outer (similarity_threshold : float) (n : nat) (rows : list nat)
  (bullets_to_remove : gset nat) : M (gset nat) :=
  match rows with
  | [] => ret bullets_to_remove
  | i :: rows' =>
      if decide (i ∈ bullets_to_remove)
      then dedup_outer similarity_threshold n rows' bullets_to_remove
      else
        bullets_to_remove <-
          dedup_inner similarity_threshold i (seq (S i) (n - S i)) bullets_to_remove ;;
        dedup_outer similarity_threshold n rows' bullets_to_remove
  end.

(** [[bullet for i, bullet in enumerate(bs) if i not in removed]], counting
    from position [i] *)
Fixpoint drop_removed (i : nat) (bs : list Bullet) (removed : gset nat) : list Bullet :=
  match bs with
  | [] => []
  | b :: rest =>
      if decide (i ∈ removed) then drop_removed (S i) rest removed
      else b :: drop_removed (S i) rest removed
  end.

(** [PlaybookManager.deduplicate] *)
Definition deduplicate (similarity_threshold : float) : M nat :=
  p <- get_pm ;;
  if (length (bullets p) <? 2)%nat then ret 0%nat
  else
    bullets_to_remove <-
      dedup_outer similarity_threshold (length (bullets p))
                  (seq 0 (length (bullets p))) ∅ ;;
    if decide (bullets_to_remove = ∅) then ret 0%nat
    else
      p <- get_pm ;;
      set_bullets (drop_removed 0 (bullets p) bullets_to_remove) ;;
      _rebuild_index ;;
      save_playbook ;;
      ret (size bullets_to_remove).

(** [PlaybookManager.__init__] when no metadata file exists *)
Definition empty_pm : PlaybookManager := mkPM [] [] ∅.

End PlaybookManagerMethods.

(** ** curator_agent.py *)

Section CuratorMethods.
Context `{Env}.

(** [CuratorAgent._find_similar_bullets] *)
Definition _find_similar_bullets (content : string) : M (list Bullet) :=
  p <- get_pm ;;
  match bullets p with
  | [] => ret []
  | _ :: _ =>
      relevant_bullets <- retrieve_relevant content 5 ;;
      ret (take 3 relevant_bullets)
  end.

Definition mk_delta (operations : list DeltaOperation) (feedback_id : string)
  : M DeltaUpdate :=
  ts <- now_isoformat ;;
  ret (mkDelta operations ts feedback_id (length operations)).

(** [CuratorAgent.process_insights] *)
Definition process_insights (insight : ReflectionInsight) (feedback_id : string)
  : M DeltaUpdate :=
  operations <-
    (if PrimFloat.ltb 0.5 (confidence insight) then
       similar_bullets <- _find_similar_bullets (key_insight insight) ;;
       match similar_bullets with
       | best_match :: _ =>
           let formatted_content :=
             Curator._format_bullet_content (key_insight insight) insight in
           ret [mkOp "UPDATE" (Some (id best_match)) (Some formatted_content) None
                     (if PrimFloat.ltb 0.7 (confidence insight) then 1 else 0) 0]
       | [] =>
           let section := Curator._determine_section insight in
           let formatted_content :=
             Curator._format_bullet_content (key_insight insight) insight in
           let final_content :=
             Curator._format_bullet_content formatted_content insight in
           ret [mkOp "ADD" None (Some final_content) (Some section) 1 0]
       end
     else ret []) ;;
  mk_delta operations feedback_id.

(** [CuratorAgent.process_negative_feedback] *)
Definition process_negative_feedback (insight : ReflectionInsight) (feedback_id : string)
  : M DeltaUpdate :=
  let operations :=
    if PrimFloat.ltb 0.6 (confidence insight) then
      let dont_do_content :=
        "AVOID: " +:+ error_identification insight +:+ PyStr.nl +:+ PyStr.nl +:+
        "Instead: " +:+ correct_approach insight in
      [mkOp "ADD" None (Some dont_do_content) (Some "Anti-Patterns") 1 0]
    else [] in
  mk_delta operations feedback_id.

(** [CuratorAgent.process_positive_feedback] *)
Definition process_positive_feedback (insight : ReflectionInsight) (feedback_id : string)
  : M DeltaUpdate :=
  let operations :=
    if PrimFloat.ltb 0.5 (confidence insight) then
      let success_content := "SUCCESS PATTERN: " +:+ key_insight insight in
      [mkOp "ADD" None (Some success_content) (Some "Success Patterns") 1 0]
    else [] in
  mk_delta operations feedback_id.

(** [CuratorAgent._save_delta_log]: the write is inside its own try/except,
    so nothing is raised. *)
Definition _save_delta_log (delta : DeltaUpdate) : M unit :=
  emit SaveDeltaLog ;;
  ret tt.

(** [for _ in range(n): body] *)
Fixpoint repeat_call (n : nat) (body : M bool) : M unit :=
  match n with
  | O => ret tt
  | S n' => body ;; repeat_call n' body
  end.

(** One iteration of the loop of [merge_delta]. *)
Definition apply_operation (op : DeltaOperation) : M unit :=
  if String.eqb (operation op) "ADD" then
    let section :=
      match op_section op with
      | Some s => if PyStr.truthy s then s else "General"
      | None => "General"
      end in
    add_bullet (op_content op) section ;;
    ret tt
  else if String.eqb (operation op) "UPDATE" then
    match bullet_id op with
    | Some bid =>
        if PyStr.truthy bid then
          repeat_call (Z.to_nat (helpful_increment op)) (update_counters bid true) ;;
          repeat_call (Z.to_nat (harmful_increment op)) (update_counters bid false)
        else ret tt
    | None => ret tt
    end
  else ret tt.

Fixpoint apply_operations (ops : list DeltaOperation) : M unit :=
  match ops with
  | [] => ret tt
  | op :: rest => apply_operation op ;; apply_operations rest
  end.

(** [CuratorAgent.merge_delta] *)
Definition merge_delta (delta : DeltaUpdate) : M bool :=
  try_except
    (apply_operations (operations delta) ;;
     _save_delta_log delta ;;
     ret true)
    (fun _ => ret false).

End CuratorMethods.

(** ** ace_pipeline.py *)

(** The keys of the chat-turn dictionary that the pipeline reads. *)
Record ChatData := mkChat {
  question : string;
  model_response : string;
  used_bullets : list string;
}.

(** [ACEProcessingResult] without [processing_time] (a wall-clock
    difference). *)
Record ACEProcessingResult := mkResult {
  success : bool;
  result_feedback_id : string;
  insights_generated : nat;
  bullets_added : nat;
  bullets_updated : nat;
  error_message : option string;
}.

(** The three Curator entry points that [_run_curator] chooses from. *)
Inductive curator_path := PositivePath | NegativePath | GeneralPath.

(** [rating <= k] and [rating >= k]: comparing [None] with an integer
    raises [TypeError]. *)
Definition rating_le (rating : option Z) (k : Z) : outcome bool :=
  match rating with
  | Some r => Ret (r <=? k)%Z
  | None => Raise TypeError
  end.

Definition rating_ge (rating : option Z) (k : Z) : outcome bool :=
  match rating with
  | Some r => Ret (k <=? r)%Z
  | None => Raise TypeError
  end.

(** The branch conditions of [_run_curator]: substrings of the lowered
    [error_identification] of the insight. *)
Definition select_path (insight : ReflectionInsight) : curator_path :=
  let feedback_type := PyStr.lower (error_identification insight) in
  if PyStr.contains "success" feedback_type || PyStr.contains "correct" feedback_type
  then PositivePath
  else if PyStr.contains "error" feedback_type || PyStr.contains "wrong" feedback_type
  then NegativePath
  else GeneralPath.

Section PipelineMethods.
Context `{Env}.

(** [a or b] where evaluating [a] may raise and [b] is evaluated only when
    [a] is false. *)
Definition or_else (a : M bool) (b : M bool) : M bool :=
  x <- a ;;
  if x then ret true else b.

(** [ReflectorAgent.analyze_feedback]: the language model is the oracle
    [generate_reflection]; saving the reflection file raises nothing. *)
Definition analyze_feedback (chat_data : ChatData) (feedback_data : FeedbackData)
  : M ReflectionInsight :=
  t <- emit LlmReflection ;;
  ret (generate_reflection t (question chat_data) (model_response chat_data)
         (user_feedback feedback_data) (feedback_type feedback_data)
         (rating feedback_data)).

(** [ReflectorAgent.extract_insights_from_success] *)
Definition extract_insights_from_success (question model_response feedback_type : string)
  (rating : option Z) : M ReflectionInsight :=
  high <- lift (rating_ge rating 4) ;;
  if high then
    ret (mkInsight "No errors - successful response"
           "Response met user expectations"
           "Continue using this approach"
           ("When answering '" +:+ question +:+ "', use this successful pattern: "
              +:+ model_response)
           [] 0.8)
  else
    ret (mkInsight "Partially successful response"
           "Response had some value but could be improved"
           "Build on what worked, improve what didn't"
           ("Partial success pattern for '" +:+ question +:+ "': " +:+ model_response)
           [] 0.6).

(** [ACEPipeline._run_reflector] *)
Definition _run_reflector (chat_data : ChatData) (feedback_data : FeedbackData)
  : M (option ReflectionInsight) :=
  try_except
    (let feedback_type := feedback_type feedback_data in
     let rating := rating feedback_data in
     negative <- or_else (ret (String.eqb feedback_type "incorrect"))
                         (lift (rating_le rating 2)) ;;
     if negative then
       insight <- analyze_feedback chat_data feedback_data ;;
       ret (Some insight)
     else
       positive <- or_else (ret (String.eqb feedback_type "correct"))
                           (lift (rating_ge rating 4)) ;;
       if positive then
         insight <- extract_insights_from_success
                      (question chat_data) (model_response chat_data)
                      feedback_type rating ;;
         ret (Some insight)
       else
         insight <- analyze_feedback chat_data feedback_data ;;
         ret (Some insight))
    (fun _ => ret None).

(** [ACEPipeline._run_curator] *)
Definition _run_curator (insight : option ReflectionInsight) (feedback_id : string)
  : M DeltaUpdate :=
  match insight with
  | None => mk_delta [] feedback_id
  | Some insight =>
      try_except
        (match select_path insight with
         | PositivePath => process_positive_feedback insight feedback_id
         | NegativePath => process_negative_feedback insight feedback_id
         | GeneralPath => process_insights insight feedback_id
         end)
        (fun _ => mk_delta [] feedback_id)
  end.

(** [ACEPipeline._apply_updates] *)
Definition _apply_updates (delta : DeltaUpdate) : M bool :=
  try_except (merge_delta delta) (fun _ => ret false).

(** The loop of [_update_bullet_counters] over [used_bullets]. *)
Fixpoint count_used (is_positive is_negative : bool) (used : list string) : M unit :=
  match used with
  | [] => ret tt
  | bullet_id :: rest =>
      (if is_positive then update_counters bullet_id true ;; ret tt
       else if is_negative then update_counters bullet_id false ;; ret tt
       else ret tt) ;;
      count_used is_positive is_negative rest
  end.

(** [ACEPipeline._update_bullet_counters] *)
Definition _update_bullet_counters (chat_data : ChatData) (feedback_data : FeedbackData)
  : M unit :=
  try_except
    (match used_bullets chat_data with
     | [] => ret tt
     | _ :: _ =>
         is_positive <-
           or_else (lift (rating_ge (rating feedback_data) 4))
                   (ret (String.eqb (feedback_type feedback_data) "positive")) ;;
         is_negative <-
           or_else (lift (rating_le (rating feedback_data) 2))
                   (ret (String.eqb (feedback_type feedback_data) "incorrect")) ;;
         count_used is_positive is_negative (used_bullets chat_data) ;;
         save_playbook
     end)
    (fun _ => ret tt).

Definition count_ops (kind : string) (ops : list DeltaOperation) : nat :=
  length (filter (fun op => operation op = kind) ops).

(** [ACEPipeline.process_feedback] after the two look-ups, whose results
    are the arguments; the processing log is not kept. *)
Definition process_feedback (feedback_id : string)
  (feedback_data : option FeedbackData) (chat_data : option ChatData)
  : M ACEProcessingResult :=
  match feedback_data with
  | None => ret (mkResult false feedback_id 0 0 0 (Some "Feedback not found"))
  | Some feedback_data =>
      match chat_data with
      | None => ret (mkResult false feedback_id 0 0 0 (Some "Chat data not found"))
      | Some chat_data =>
          insight <- _run_reflector chat_data feedback_data ;;
          delta <- _run_curator insight feedback_id ;;
          success <- _apply_updates delta ;;
          _update_bullet_counters chat_data feedback_data ;;
          ret (mkResult success feedback_id
                 (match insight with Some _ => 1 | None => 0 end)
                 (count_ops "ADD" (operations delta))
                 (count_ops "UPDATE" (operations delta))
                 None)
      end
  end.

End PipelineMethods.

(** ** A concrete set of collaborators

    Two-dimensional embeddings computed from the length of the text, an
    exhaustive inner-product search, a clock that prints the logical time
    and a disk that never fails.  Used to run the model on examples. *)

Module Demo.

Fixpoint float_of_nat (n : nat) : float :=
  match n with
  | O => 0%float
  | S n' => (float_of_nat n' + 1)%float
  end.

Definition fdot (a b : list float) : float :=
  fold_right (fun xy acc => (fst xy * snd xy + acc)%float) 0%float (combine a b).

Definition fnorm (a : list float) : float := PrimFloat.sqrt (fdot a a).

Definition fdivide (a : list float) (n : float) : list float :=
  map (fun x => (x / n)%float) a.

(** The empty text is where the provider raises. *)
Definition demo_embed (t : nat) (text : string) : option (list float) :=
  match text with
  | EmptyString => None
  | _ => Some [float_of_nat (String.length text); 1%float]
  end.

Fixpoint insert_desc (x : float * Z) (l : list (float * Z)) : list (float * Z) :=
  match l with
  | [] => [x]
  | y :: l' => if PrimFloat.leb (fst y) (fst x) then x :: l else y :: insert_desc x l'
  end.

Definition sort_desc (l : list (float * Z)) : list (float * Z) :=
  fold_right insert_desc [] l.

Definition flat_ip_search (ix : list (list float)) (q : list float) (k : nat)
  : list (float * Z) :=
  let scored := imap (fun i v => (fdot q v, Z.of_nat i)) ix in
  take k (sort_desc scored) ++
  replicate (k - length ix) (PrimFloat.neg_infinity, (-1)%Z).

Definition hex8 (t : nat) : string :=
  let s := PyStr.of_nat t in
  String.substring 0 (8 - String.length s) "00000000" +:+ s.

Definition demo_env : Env := {|
  vec := list float;
  zeros := [0%float; 0%float];
  norm := fnorm;
  dot := fdot;
  divide := fdivide;
  embed_query := demo_embed;
  index_search := flat_ip_search;
  isoformat := fun t => "2025-01-01T00:00:00." +:+ PyStr.of_nat t;
  uuid4 := fun t => hex8 t +:+ "-0000-4000-8000-000000000000";
  write_fails := fun _ => false;
  generate_reflection := fun _ _ _ user_feedback _ _ =>
    mkInsight user_feedback "Unable to analyze automatically"
              "Review user feedback for guidance"
              ("User feedback: " +:+ user_feedback) [] 0.8;
|}.

(** The same collaborators with a disk that fails from time [t0] on. *)
Definition failing_disk_env (t0 : nat) : Env := {|
  vec := list float;
  zeros := [0%float; 0%float];
  norm := fnorm;
  dot := fdot;
  divide := fdivide;
  embed_query := demo_embed;
  index_search := flat_ip_search;
  isoformat := fun t => "2025-01-01T00:00:00." +:+ PyStr.of_nat t;
  uuid4 := fun t => hex8 t +:+ "-0000-4000-8000-000000000000";
  write_fails := fun t => (t0 <=? t)%nat;
  generate_reflection := fun _ _ _ user_feedback _ _ =>
    mkInsight user_feedback "Unable to analyze automatically"
              "Review user feedback for guidance"
              ("User feedback: " +:+ user_feedback) [] 0.8;
|}.

Definition world0 : @World demo_env := mkWorld empty_pm [].

(** The same collaborators with a [uuid4] that hands out the same value
    twice. *)
Definition colliding_env : Env := {|
  vec := list float;
  zeros := [0%float; 0%float];
  norm := fnorm;
  dot := fdot;
  divide := fdivide;
  embed_query := demo_embed;
  index_search := flat_ip_search;
  isoformat := fun t => "2025-01-01T00:00:00." +:+ PyStr.of_nat t;
  uuid4 := fun _ => "deadbeef-0000-4000-8000-000000000000";
  write_fails := fun _ => false;
  generate_reflection := fun _ _ _ user_feedback _ _ =>
    mkInsight user_feedback "Unable to analyze automatically"
              "Review user feedback for guidance"
              ("User feedback: " +:+ user_feedback) [] 0.8;
|}.

Definition colliding_world0 : @World colliding_env := mkWorld empty_pm [].

End Demo.

(** ** Notions used in the statements *)

Section Notions.
Context `{Env}.

(** Index and store in lockstep: as many vectors as bullets, every bullet's
    id is mapped to the bullet's own position, and the map has no other
    entries. *)
Record lockstep (p : PlaybookManager) : Prop := mkLockstep {
  lockstep_size : length (bullets p) = length (index p);
  lockstep_pos : forall i b, bullets p !! i = Some b ->
                             bullet_id_to_index p !! id b = Some i;
  lockstep_dom : forall k i, bullet_id_to_index p !! k = Some i ->
                             exists b, bullets p !! i = Some b /\ id b = k;
}.

(** The identifier [add_bullet] builds from the uuid drawn at time [t]. *)
Definition drawn_id (t : nat) : string := "ctx-" +:+ PyStr.slice_to 8 (uuid4 t).

(** No two of the identifiers drawn before time [T] collide. *)
Definition uuids_fresh (T : nat) : Prop := NoDup (drawn_id <$> seq 0 T).

(** Every bullet carries an identifier drawn before time [T]. *)
Definition ids_drawn (T : nat) (p : PlaybookManager) : Prop :=
  forall b, b ∈ bullets p -> exists t, (t < T)%nat /\ id b = drawn_id t.

(** Same ids at the same positions, same index and same map. *)
Definition same_ids (p p' : PlaybookManager) : Prop :=
  id <$> bullets p' = id <$> bullets p /\
  index p' = index p /\
  bullet_id_to_index p' = bullet_id_to_index p.

(** The invariant of the store along a run. *)
Definition store_inv (w : World) : Prop :=
  lockstep (pm w) /\ ids_drawn (length (trace w)) (pm w).

(** Calls to the store that add or deduplicate. *)
Inductive store_op :=
| OpAdd (content section : string)
| OpDeduplicate (similarity_threshold : float).

Definition run_op (o : store_op) (w : World) : World :=
  match o with
  | OpAdd content section => (add_bullet (Some content) section w).1
  | OpDeduplicate similarity_threshold => (deduplicate similarity_threshold w).1
  end.

(** Successive calls; a call that raised (a failed write) has left its
    state behind, and the next call starts from it. *)
Definition run_ops (ops : list store_op) (w : World) : World :=
  foldl (fun w o => run_op o w) w ops.

(** Sum of [helpful + harmful] over a list of bullets. *)
Definition counters_total (bs : list Bullet) : Z :=
  foldr (fun b acc => (helpful b + harmful b + acc)%Z) 0%Z bs.

(** The two counters of a bullet added up, the sum of a function over the
    positions below [n], and what position [j] contributes to the total as
    long as it is not marked for removal. *)
Definition counters (b : Bullet) : Z := (helpful b + harmful b)%Z.

Fixpoint sum_upto (f : nat -> Z) (n : nat) : Z :=
  match n with
  | O => 0%Z
  | S n' => (sum_upto f n' + f n')%Z
  end.

Definition live_weight (bs : list Bullet) (removed : gset nat) (k j : nat) : Z :=
  if decide ((k + j)%nat ∈ removed) then 0%Z else from_option counters 0%Z (bs !! j).

(** The vector [retrieve_relevant] searches with, in world [w]. *)
Definition query_vector (w : World) (query : string) : vec :=
  _normalize_embedding
    (match embed_query (length (trace w)) query with
     | Some embedding => embedding
     | None => zeros
     end).


(** The calls to [update_counters] recorded in a trace. *)
Fixpoint update_calls (tr : list event) : list (string * bool) :=
  match tr with
  | [] => []
  | CallUpdateCounters bullet_id helpful :: rest => (bullet_id, helpful) :: update_calls rest
  | _ :: rest => update_calls rest
  end.

(** Nothing is taken back between two states of the store: every bullet is
    still at its position with the same id and content, and counters that
    are at least what they were. *)
Definition grows (p p' : PlaybookManager) : Prop :=
  forall i b, bullets p !! i = Some b ->
    exists b', bullets p' !! i = Some b' /\ id b' = id b /\ content b' = content b /\
               (helpful b <= helpful b')%Z /\ (harmful b <= harmful b')%Z.

(** Net-positive and net-negative feedback as [_update_bullet_counters]
    computes them for an integer rating. *)
Definition is_positive (r : Z) (feedback_type : string) : bool :=
  (4 <=? r)%Z || String.eqb feedback_type "positive".

Definition is_negative (r : Z) (feedback_type : string) : bool :=
  (r <=? 2)%Z || String.eqb feedback_type "incorrect".

(** The bullet a successful [update_counters] leaves at the position. *)
Definition counted (h : bool) (ts : string) (b : Bullet) : Bullet :=
  set_last_used ts ((if h then incr_helpful else incr_harmful) b).

(** The branch of [_run_reflector] that calls
    [extract_insights_from_success]: the first test is false and the second
    true.  Without a rating the branch is not reached. *)
Definition routed_to_success (feedback_data : FeedbackData) : bool :=
  match rating feedback_data with
  | Some r =>
      negb (String.eqb (feedback_type feedback_data) "incorrect" || (r <=? 2)%Z) &&
      (String.eqb (feedback_type feedback_data) "correct" || (4 <=? r)%Z)
  | None => false
  end.

(** The Curator method behind each path. *)
Definition curator_entry (path : curator_path)
  : ReflectionInsight -> string -> M DeltaUpdate :=
  match path with
  | PositivePath => process_positive_feedback
  | NegativePath => process_negative_feedback
  | GeneralPath => process_insights
  end.

End Notions.

(** ** Inputs of the examples *)

Module Examples.
Import Demo.

Definition units_insight : ReflectionInsight :=
  mkInsight "Units were missing" "The units were never checked"
            "Confirm the units first"
            "Always confirm units before calculating." [] 0.8.

Definition comment_wrong : FeedbackData :=
  mkFeedback "fb-1" "That answer is wrong" "incorrect" (Some 1%Z).

Definition comment_units : FeedbackData :=
  mkFeedback "fb-2" "Units were missing" "incorrect" (Some 1%Z).

Definition comment_shouted : FeedbackData :=
  mkFeedback "fb-3" "THAT ANSWER IS WRONG" "partially_correct" (Some 3%Z).

Definition chat_none : ChatData := mkChat "How long is it?" "About 3." [].

(** The store after one [add_bullet]; the bullet gets the id
    "ctx-00000001". *)
Definition one_bullet_world : @World demo_env :=
  (add_bullet (Some "Always confirm units before calculating.") "General" world0).1.

Definition first_bullet : Bullet :=
  mkBullet "ctx-00000001" 0 0 "Always confirm units before calculating." "General"
           "2025-01-01T00:00:00.2" "2025-01-01T00:00:00.2".

(** Two adds, a deduplication, and what may follow. *)
Definition two_adds_dedup : list (@store_op) :=
  [OpAdd "Always confirm units before calculating." "General";
   OpAdd "Always confirm the units before calculating." "General";
   OpDeduplicate 0.9].

Definition one_more_add : list (@store_op) := [OpAdd "State the formula used" "General"].


(** A chat turn that surfaced the bullet of [one_bullet_world], a feedback
    rated 5, and one rated 5 although typed "incorrect". *)
Definition chat_one : ChatData := mkChat "How long is it?" "About 3." ["ctx-00000001"].

Definition praise : FeedbackData := mkFeedback "fb-4" "Spot on" "correct" (Some 5%Z).

Definition mixed_signal : FeedbackData :=
  mkFeedback "fb-5" "Right, but not what I asked" "incorrect" (Some 5%Z).

Definition op_add (text : option string) : DeltaOperation :=
  mkOp "ADD" None text (Some "General") 1 0.

Definition op_update (bid : string) (h k : Z) : DeltaOperation :=
  mkOp "UPDATE" (Some bid) None None h k.

(** An ADD, then an ADD without content (which raises), then another ADD. *)
Definition delta_partial : DeltaUpdate :=
  mkDelta [op_add (Some "Check the units"); op_add None; op_add (Some "Never reached")]
          "2025-01-01T00:00:00" "fb-1" 3.

(** An insight that matches the only bullet of [one_bullet_world]. *)
Definition recheck_insight : ReflectionInsight :=
  mkInsight "Units were missing" "The units were never checked"
            "Confirm the units first" "Always double check units" [] 0.8.

(** Delta Computation then Delta Merge on the same insight. *)
Definition compute_then_merge (insight : ReflectionInsight) (fid : string)
  : @M demo_env bool :=
  (delta <- process_insights insight fid ;; merge_delta delta)%py.

Definition delta_empty : DeltaUpdate := mkDelta [] "2025-01-01T00:00:00" "fb-1" 0.

Definition delta_unknown : DeltaUpdate :=
  mkDelta [op_update "ctx-missing" 2 1] "2025-01-01T00:00:00" "fb-1" 1.

(** Another chat turn, on which the same praise gives another insight. *)
Definition chat_area : ChatData := mkChat "What is the area?" "12 square metres." [].

(** Two adds when [uuid4] repeats itself. *)
Definition two_adds : list (@store_op) :=
  [OpAdd "Always confirm units before calculating." "General";
   OpAdd "State the formula used" "General"].

(** A chat turn that surfaced two bullets of [three_bullet_world]. *)
Definition chat_two : ChatData :=
  mkChat "How long is it?" "About 3." ["ctx-00000001"; "ctx-00000011"].

(** [three_bullet_world] on a disk that fails from time 20 on, the time of
    the save of the first counter update that follows. *)
Definition three_bullet_world_bad_disk : @World (failing_disk_env 20) :=
  ((add_bullet (Some "Always confirm units before calculating.") "General" ;;
    add_bullet (Some "short one") "General" ;;
    add_bullet (Some "another short one") "General" ;;
    update_counters "ctx-00000006" false)%py (mkWorld empty_pm [])).1.

End Examples.

(** ** The rest of the store's interface and of the pipeline *)




(** [feedback_system.FeedbackManager.get_feedback] on the list that
    [get_all_feedback] read: the first record with the id. *)
Fixpoint get_feedback (all_feedback : list FeedbackData) (fid : string)
  : option FeedbackData :=
  match all_feedback with
  | [] => None
  | feedback :: rest =>
      if String.eqb (feedback_id feedback) fid then Some feedback
      else get_feedback rest fid
  end.

Section MoreMethods.
Context `{Env}.

(** [PlaybookManager.get_bullet] *)
Definition get_bullet (bullet_id : string) : M (option Bullet) :=
  p <- get_pm ;;
  match bullet_id_to_index p !! bullet_id with
  | Some i => b <- bullet_at i ;; ret (Some b)
  | None => ret None
  end.


(** [Bullet.__post_init__] on a bullet built from stored fields. *)
Definition Bullet_post_init (b : Bullet) : M Bullet :=
  created <- (if PyStr.truthy (created_at b) then ret (created_at b) else now_isoformat) ;;
  ret (mkBullet (id b) (helpful b) (harmful b) (content b) (section b) created
         (if PyStr.truthy (last_used b) then last_used b else created)).

(** The loop of [load_playbook] over [metadata.get("bullets", [])]; an
    entry is [Raise] when building the [Bullet] from its stored fields raises. *)
Fixpoint load_bullets (entries : list (outcome Bullet)) : M unit :=
  match entries with
  | [] => ret tt
  | entry :: rest =>
      raw <- lift entry ;;
      bullet <- Bullet_post_init raw ;;
      p <- get_pm ;;
      set_bullets (bullets p ++ [bullet]) ;;
      load_bullets rest
  end.

(** The loop of [load_playbook] that rebuilds [bullet_id_to_index]. *)
Fixpoint remap_loop (i : nat) (bs : list Bullet) : M unit :=
  match bs with
  | [] => ret tt
  | bullet :: rest =>
      p <- get_pm ;;
      set_bullet_id_to_index (<[id bullet := i]> (bullet_id_to_index p)) ;;
      remap_loop (S i) rest
  end.

(** [PlaybookManager.load_playbook].  [metadata] is what the metadata file
    holds: [None] when the file does not exist, [Some (Raise _)] when it
    cannot be read or parsed; [embeddings] likewise for the index file,
    [Some (Ret ix)] being the vectors [faiss.read_index] returns. *)
Definition load_playbook (metadata : option (outcome (list (outcome Bullet))))
  (embeddings : option (outcome (list vec))) : M unit :=
  match metadata with
  | None => ret tt
  | Some parsed =>
      try_except
        (entries <- lift parsed ;;
         set_bullets [] ;;
         load_bullets entries ;;
         set_bullet_id_to_index ∅ ;;
         p <- get_pm ;;
         remap_loop 0 (bullets p) ;;
         match embeddings with
         | Some (Ret ix) => set_index ix
         | Some (Raise _) => _rebuild_index
         | None => _rebuild_index
         end)
        (fun _ =>
           set_bullets [] ;;
           set_bullet_id_to_index ∅)
  end.

(** The loop of [process_pending_feedback] over [all_feedback], [todo]
    being what is left of it and [results] the results so far.
    [chat_of] is [chat_storage.get_chat_data]. *)
Fixpoint pending_loop (all_feedback : list FeedbackData)
  (chat_of : string -> option ChatData) (todo : list FeedbackData)
  (results : list ACEProcessingResult) : M (list ACEProcessingResult) :=
  match todo with
  | [] => ret results
  | feedback :: rest =>
      let fid := feedback_id feedback in
      if PyStr.truthy fid &&
         negb (bool_decide (fid ∈ map result_feedback_id results))
      then
        result <- process_feedback fid (get_feedback all_feedback fid) (chat_of fid) ;;
        pending_loop all_feedback chat_of rest (results ++ [result])
      else pending_loop all_feedback chat_of rest results
  end.

(** [ACEPipeline.process_pending_feedback] *)
Definition process_pending_feedback (all_feedback : list FeedbackData)
  (chat_of : string -> option ChatData) : M (list ACEProcessingResult) :=
  pending_loop all_feedback chat_of all_feedback [].

(** Calls on the store and the Curator, one after the other as a single
    writer issues them. *)
Inductive api_call :=
| CallAdd (content : option string) (section : string)
| CallUpdate (bullet_id : string) (helpful : bool)
| CallRetrieve (query : string) (top_k : nat)
| CallDeduplicate (similarity_threshold : float)
| CallMerge (delta : DeltaUpdate)
| CallCompute (insight : option ReflectionInsight) (feedback_id : string)
| CallCountUsage (chat_data : ChatData) (feedback_data : FeedbackData)
| CallProcessFeedback (feedback_id : string) (feedback_data : option FeedbackData)
    (chat_data : option ChatData).

Definition run_call (c : api_call) (w : World) : World :=
  match c with
  | CallAdd content section => (add_bullet content section w).1
  | CallUpdate bullet_id helpful => (update_counters bullet_id helpful w).1
  | CallRetrieve query top_k => (retrieve_relevant query top_k w).1
  | CallDeduplicate similarity_threshold => (deduplicate similarity_threshold w).1
  | CallMerge delta => (merge_delta delta w).1
  | CallCompute insight feedback_id => (_run_curator insight feedback_id w).1
  | CallCountUsage chat_data feedback_data =>
      (_update_bullet_counters chat_data feedback_data w).1
  | CallProcessFeedback feedback_id feedback_data chat_data =>
      (process_feedback feedback_id feedback_data chat_data w).1
  end.

Definition run_calls (calls : list api_call) (w : World) : World :=
  foldl (fun w c => run_call c w) w calls.

(** What of a bullet no counter update touches. *)
Definition bullet_text (b : Bullet) : string * string * string * string :=
  (id b, content b, section b, created_at b).

(** The fields of a bullet that [__post_init__] leaves as stored. *)
Definition stored_fields (b : Bullet) : string * Z * Z * string * string :=
  (id b, helpful b, harmful b, content b, section b).

(** Same bullets up to counters and [last_used], same index, same map. *)
Definition same_text (p p' : PlaybookManager) : Prop :=
  bullet_text <$> bullets p' = bullet_text <$> bullets p /\
  index p' = index p /\
  bullet_id_to_index p' = bullet_id_to_index p.

Definition counters_nonneg (p : PlaybookManager) : Prop :=
  forall b, b ∈ bullets p -> (0 <= helpful b)%Z /\ (0 <= harmful b)%Z.

(** The map and the list agree, whatever the index holds. *)
Definition positions_agree (p : PlaybookManager) : Prop :=
  (forall i b, bullets p !! i = Some b -> bullet_id_to_index p !! id b = Some i) /\
  (forall k i, bullet_id_to_index p !! k = Some i ->
               exists b, bullets p !! i = Some b /\ id b = k).


(** The calls to the language model recorded in a trace. *)
Fixpoint llm_calls (tr : list event) : nat :=
  match tr with
  | [] => 0%nat
  | LlmReflection :: rest => S (llm_calls rest)
  | _ :: rest => llm_calls rest
  end.

(** A computation relates every state to the state it leaves, whether it
    returns or raises. *)
Definition along {A} (R : World -> World -> Prop) (c : M A) : Prop :=
  forall w, R w (c w).1.

(** A computation that returns in every state. *)
Definition returns {A} (c : M A) : Prop :=
  forall w, exists a, (c w).2 = Ret a.

(** The store's invariant together with counters that are not negative. *)
Definition full_inv (w : World) : Prop :=
  store_inv w /\ counters_nonneg (pm w).

(** One step of a run bounded by time [T]: the trace does not shrink, and
    the invariant is kept when the step ends by [T]. *)
Definition inv_step (T : nat) (w w' : World) : Prop :=
  (length (trace w) <= length (trace w'))%nat /\
  (full_inv w -> (length (trace w') <= T)%nat -> full_inv w').

(** Relations between the state before a computation and the state it
    leaves: no call to the language model, a trace that does not shrink,
    a store in which nothing is taken back, bullets with their text. *)
Definition quiet (w w' : World) : Prop := llm_calls (trace w') = llm_calls (trace w).

Definition trace_le (w w' : World) : Prop := (length (trace w) <= length (trace w'))%nat.

Definition store_grows (w w' : World) : Prop := grows (pm w) (pm w').


(** The eight labels [_determine_section] can return. *)
Definition section_labels : list string :=
  ["Explanation Strategies"; "Calculation Strategies"; "Search Strategies";
   "Time Management"; "User Interaction"; "Error Prevention";
   "Response Formatting"; "General Strategies"].

(** The sections an operation computed by the Curator can name. *)
Definition curator_sections : list string :=
  section_labels ++ ["Anti-Patterns"; "Success Patterns"].

End MoreMethods.

(** ** More concrete inputs *)

Module MoreExamples.
Import Demo.

Definition delta_one_add : DeltaUpdate :=
  mkDelta [Examples.op_add (Some "Check the units")] "2025-01-01T00:00:00" "fb-1" 1.

(** A feedback without a rating. *)
Definition unrated : FeedbackData := mkFeedback "fb-6" "Fine" "partially_correct" None.

(** Calls of every kind, one of which raises, and what may follow. *)
Definition a_day : list api_call :=
  [CallAdd (Some "Always confirm units before calculating.") "General";
   CallAdd None "General";
   CallUpdate "ctx-00000001" true;
   CallUpdate "ctx-missing" false;
   CallRetrieve "units" 3;
   CallAdd (Some "Always confirm the units before calculating.") "General";
   CallDeduplicate 0.9;
   CallProcessFeedback "fb-4" (Some Examples.praise) (Some Examples.chat_one);
   CallCompute (Some Examples.recheck_insight) "fb-2";
   CallMerge Examples.delta_partial;
   CallCountUsage Examples.chat_one Examples.mixed_signal].

Definition next_day : list api_call := [CallAdd (Some "State the formula used") "General"].




(** The similarity of a text to a query: the inner product of their
    normalised embeddings. *)
Definition similarity (query text : string) : float :=
  fdot (_normalize_embedding (H:=demo_env)
          (default [0%float; 0%float] (demo_embed 0 query)))
       (_normalize_embedding (H:=demo_env)
          (default [0%float; 0%float] (demo_embed 0 text))).

End MoreExamples.

(** * Properties *)

(** ** The monad *)

Section MonadFacts.
Context `{Env}.

Lemma bind_ret_l {A B} (a : A) (k : A -> M B) w : bind (ret a) k w = k a w.
Proof. reflexivity. Qed.

Lemma bind_Ret {A B} (c : M A) (k : A -> M B) w w' a :
  c w = (w', Ret a) -> bind c k w = k a w'.
Proof. intros Hc. unfold bind. by rewrite Hc. Qed.

Lemma bind_Raise {A B} (c : M A) (k : A -> M B) w w' e :
  c w = (w', Raise e) -> bind c k w = (w', Raise e).
Proof. intros Hc. unfold bind. by rewrite Hc. Qed.

Lemma bind_assoc {A B C} (c : M A) (k : A -> M B) (k' : B -> M C) w :
  bind (bind c k) k' w = bind c (fun a => bind (k a) k') w.
Proof. unfold bind. destruct (c w) as [w1 [a|e]]; reflexivity. Qed.

Lemma bind_ext {A B} (c : M A) (k k' : A -> M B) w :
  (forall a w', k a w' = k' a w') -> bind c k w = bind c k' w.
Proof. intros Hk. unfold bind. destruct (c w) as [w1 [a|e]]; [apply Hk|reflexivity]. Qed.

End MonadFacts.

(** ** Section labels (C2) *)

Lemma determine_section_first_match (insight : ReflectionInsight) :
  Curator._determine_section insight =
  Curator.first_match Curator.section_table "General Strategies"
    (PyStr.lower (key_insight insight)).
Proof. reflexivity. Qed.

Section SectionLabel.
Context `{Env}.

(** C2, amended.  For an insight with confidence above 0.5 for which the
    search for similar bullets returns nothing, [process_insights] yields
    exactly one ADD operation whose section is the label of the first
    category of the ordered table having a keyword in the lowered key
    insight, and "General Strategies" when no category has one; for
    "Always confirm units before calculating." no keyword occurs and the
    label is "General Strategies". *)
Theorem process_insights_add_section (insight : ReflectionInsight) (fid : string)
  (w w1 : World) :
  PrimFloat.ltb 0.5 (confidence insight) = true ->
  _find_similar_bullets (key_insight insight) w = (w1, Ret []) ->
  (exists w2 ts body,
     process_insights insight fid w =
       (w2, Ret (mkDelta
                   [mkOp "ADD" None (Some body)
                      (Some (Curator.first_match Curator.section_table
                               "General Strategies"
                               (PyStr.lower (key_insight insight)))) 1 0]
                   ts fid 1))) /\
  Curator.first_match Curator.section_table "General Strategies"
    (PyStr.lower "Always confirm units before calculating.") = "General Strategies".
Proof.
  intros Hconf Hfind. split; [|reflexivity].
  unfold process_insights. rewrite Hconf.
  rewrite bind_assoc. rewrite (bind_Ret _ _ _ _ _ Hfind).
  rewrite determine_section_first_match.
  unfold mk_delta, now_isoformat, bind, ret, emit. simpl.
  eexists _, _, _. reflexivity.
Qed.

End SectionLabel.

(** Witness of [process_insights_add_section]: the units insight against the
    empty store. *)
Lemma process_insights_add_section_witness :
  (exists w2 ts body,
     process_insights (H:=Demo.demo_env) Examples.units_insight "fb-1" Demo.world0 =
       (w2, Ret (mkDelta
                   [mkOp "ADD" None (Some body)
                      (Some (Curator.first_match Curator.section_table
                               "General Strategies"
                               (PyStr.lower (key_insight Examples.units_insight)))) 1 0]
                   ts "fb-1" 1))) /\
  Curator.first_match Curator.section_table "General Strategies"
    (PyStr.lower "Always confirm units before calculating.") = "General Strategies".
Proof.
  apply (process_insights_add_section (H:=Demo.demo_env)
           Examples.units_insight "fb-1" Demo.world0 Demo.world0).
  - vm_compute. reflexivity.
  - vm_compute. reflexivity.
Defined.

(** C2 as stated fails: on "Always confirm units before calculating." the
    code derives neither "Calculation Strategies" ("calculate" is not a
    substring of "calculating") nor the default "General". *)
Lemma determine_section_units_counterexample :
  PyStr.contains "calculate"
    (PyStr.lower "Always confirm units before calculating.") = false /\
  Curator._determine_section Examples.units_insight <> "Calculation Strategies" /\
  Curator._determine_section Examples.units_insight <> "General" /\
  Curator._determine_section Examples.units_insight = "General Strategies".
Proof. repeat split; vm_compute; congruence. Qed.

(** ** Choice of the Curator path (C3) *)

Section CuratorPath.
Context `{Env}.

Lemma run_curator_entry (insight : ReflectionInsight) (fid : string) (w : World) :
  _run_curator (Some insight) fid w =
  try_except (curator_entry (select_path insight) insight fid)
             (fun _ => mk_delta [] fid) w.
Proof. unfold _run_curator, curator_entry. by destruct (select_path insight). Qed.

(** What the Reflector step hands to the Curator: for feedback sent to
    success extraction a templated insight that selects the positive path;
    for any other feedback the insight of the language model. *)
Lemma run_reflector_cases (chat_data : ChatData) (feedback_data : FeedbackData)
  (w : World) (insight : ReflectionInsight) :
  (_run_reflector chat_data feedback_data w).2 = Ret (Some insight) ->
  (routed_to_success feedback_data = true -> select_path insight = PositivePath) /\
  (routed_to_success feedback_data = false ->
   insight = generate_reflection (length (trace w)) (question chat_data)
               (model_response chat_data) (user_feedback feedback_data)
               (feedback_type feedback_data) (rating feedback_data)).
Proof.
  unfold _run_reflector, routed_to_success, try_except, bind, or_else,
    analyze_feedback, extract_insights_from_success, bind, lift, ret, emit.
  destruct (String.eqb (feedback_type feedback_data) "incorrect");
    destruct (rating feedback_data) as [r|]; cbn;
    try destruct (r <=? 2)%Z; cbn;
    try destruct (String.eqb (feedback_type feedback_data) "correct"); cbn;
    try destruct (4 <=? r)%Z; cbn;
    intros Hrun; try discriminate Hrun;
    injection Hrun as <-; split; intros Hclass; try discriminate Hclass; reflexivity.
Qed.

(** C3, amended.  Take two runs whose feedback records have the same type
    and the same rating.  If the Reflector step sends that feedback to
    success extraction, both runs take the positive path, whatever the
    chat turns, the states and the texts of the two insights.  Otherwise
    both insights are the language model's, and the path of each is read
    from its [error_identification]: the two runs take the same path when
    these texts are equal up to letter case.  In every case
    [_run_curator] runs the Curator method of the selected path. *)
Theorem curator_path_by_feedback_class (chat1 chat2 : ChatData)
  (fb1 fb2 : FeedbackData) (w1 w2 : World) (i1 i2 : ReflectionInsight) :
  feedback_type fb1 = feedback_type fb2 ->
  rating fb1 = rating fb2 ->
  (_run_reflector chat1 fb1 w1).2 = Ret (Some i1) ->
  (_run_reflector chat2 fb2 w2).2 = Ret (Some i2) ->
  (routed_to_success fb1 = true ->
     select_path i1 = PositivePath /\ select_path i2 = PositivePath) /\
  (routed_to_success fb1 = false ->
     i1 = generate_reflection (length (trace w1)) (question chat1)
            (model_response chat1) (user_feedback fb1) (feedback_type fb1)
            (rating fb1) /\
     i2 = generate_reflection (length (trace w2)) (question chat2)
            (model_response chat2) (user_feedback fb2) (feedback_type fb2)
            (rating fb2) /\
     (PyStr.lower (error_identification i1) = PyStr.lower (error_identification i2) ->
      select_path i1 = select_path i2)) /\
  (forall fid w, _run_curator (Some i1) fid w =
     try_except (curator_entry (select_path i1) i1 fid) (fun _ => mk_delta [] fid) w) /\
  (forall fid w, _run_curator (Some i2) fid w =
     try_except (curator_entry (select_path i2) i2 fid) (fun _ => mk_delta [] fid) w).
Proof.
  intros Htype Hrating Hrun1 Hrun2.
  assert (Hclass : routed_to_success fb2 = routed_to_success fb1).
  { unfold routed_to_success. by rewrite Htype, Hrating. }
  destruct (run_reflector_cases chat1 fb1 w1 i1 Hrun1) as [Hs1 Hl1].
  destruct (run_reflector_cases chat2 fb2 w2 i2 Hrun2) as [Hs2 Hl2].
  rewrite Hclass in Hs2, Hl2.
  split; [|split; [|split]].
  - intros Hc. split; [by apply Hs1|by apply Hs2].
  - intros Hc. split; [by apply Hl1|]. split; [by apply Hl2|].
    intros Htext. unfold select_path. by rewrite Htext.
  - intros fid w. apply run_curator_entry.
  - intros fid w. apply run_curator_entry.
Qed.

End CuratorPath.

(** Witness of [curator_path_by_feedback_class]: the same praise, rated 5,
    on two chat turns; the insights differ in text and both select the
    positive path. *)
Lemma curator_path_by_feedback_class_witness :
  exists i1 i2,
    (_run_reflector (H:=Demo.demo_env) Examples.chat_none Examples.praise
       Demo.world0).2 = Ret (Some i1) /\
    (_run_reflector (H:=Demo.demo_env) Examples.chat_area Examples.praise
       Demo.world0).2 = Ret (Some i2) /\
    key_insight i1 <> key_insight i2 /\
    select_path i1 = PositivePath /\ select_path i2 = PositivePath.
Proof.
  eexists _, _.
  split; [vm_compute; reflexivity|].
  split; [vm_compute; reflexivity|].
  split; [vm_compute; discriminate|].
  destruct (curator_path_by_feedback_class (H:=Demo.demo_env)
              Examples.chat_none Examples.chat_area
              Examples.praise Examples.praise
              Demo.world0 Demo.world0 _ _
              ltac:(reflexivity) ltac:(reflexivity)
              ltac:(vm_compute; reflexivity) ltac:(vm_compute; reflexivity))
    as (Hsuccess & _).
  apply Hsuccess. reflexivity.
Defined.

(** C3 as stated fails: two feedback records of type "incorrect" rated 1,
    whose reflection insights differ in text, are sent down different
    paths. *)
Lemma path_differs_for_equal_feedback_counterexample :
  feedback_type Examples.comment_wrong = feedback_type Examples.comment_units /\
  rating Examples.comment_wrong = rating Examples.comment_units /\
  exists i1 i2,
    (_run_reflector (H:=Demo.demo_env) Examples.chat_none Examples.comment_wrong
       Demo.world0).2 = Ret (Some i1) /\
    (_run_reflector (H:=Demo.demo_env) Examples.chat_none Examples.comment_units
       Demo.world0).2 = Ret (Some i2) /\
    select_path i1 = NegativePath /\ select_path i2 = GeneralPath.
Proof.
  split; [reflexivity|]. split; [reflexivity|].
  eexists _, _.
  split; [vm_compute; reflexivity|].
  split; [vm_compute; reflexivity|].
  split; vm_compute; reflexivity.
Qed.

(** ** Effects of the store's methods *)

Section StoreEffects.
Context `{Env}.

(** The world after a counter change on position [i]. *)
Lemma mutate_bullet_run (i : nat) (f : Bullet -> Bullet) (w : World) :
  mutate_bullet i f w =
  (mkWorld (mkPM (alter f i (bullets (pm w))) (index (pm w))
                 (bullet_id_to_index (pm w))) (trace w), Ret tt).
Proof. reflexivity. Qed.

Lemma save_playbook_pm (w : World) : pm (save_playbook w).1 = pm w.
Proof.
  unfold save_playbook, bind, emit. simpl.
  by destruct (write_fails (length (trace w))).
Qed.

Lemma get_embedding_run (text : string) (w : World) :
  _get_embedding text w =
  (mkWorld (pm w) (trace w ++ [EmbedQuery text]),
   Ret (match embed_query (length (trace w)) text with
        | Some embedding => embedding
        | None => zeros
        end)).
Proof. reflexivity. Qed.

(** [retrieve_relevant] leaves at its first test when there are no bullets. *)
Lemma retrieve_relevant_no_bullets (query : string) (top_k : nat) (w : World) :
  bullets (pm w) = [] -> retrieve_relevant query top_k w = (w, Ret []).
Proof. intros Hempty. unfold retrieve_relevant, bind, get_pm. by rewrite Hempty. Qed.

(** [update_counters] on an id the map does not know: [False], and only the
    call is recorded. *)
Lemma update_counters_unknown (bid : string) (h : bool) (w : World) :
  bullet_id_to_index (pm w) !! bid = None ->
  update_counters bid h w =
  (mkWorld (pm w) (trace w ++ [CallUpdateCounters bid h]), Ret false).
Proof.
  intros Hnone. unfold update_counters, bind, emit, get_pm. simpl.
  by rewrite Hnone.
Qed.

(** [update_counters] on a known id whose position holds a bullet. *)
Lemma update_counters_known (bid : string) (h : bool) (w : World) (i : nat) (b : Bullet) :
  bullet_id_to_index (pm w) !! bid = Some i ->
  bullets (pm w) !! i = Some b ->
  update_counters bid h w =
  (mkWorld (mkPM (<[i := counted h (isoformat (S (length (trace w)))) b]> (bullets (pm w)))
                 (index (pm w)) (bullet_id_to_index (pm w)))
           (trace w ++ [CallUpdateCounters bid h; Now; SavePlaybook]),
   if write_fails (S (S (length (trace w)))) then Raise OSError else Ret true).
Proof.
  intros Hmap Hb.
  unfold update_counters, bind, emit, get_pm, bullet_at, now_isoformat, save_playbook.
  simpl. rewrite Hmap. unfold bind, get_pm. simpl. rewrite Hb. simpl.
  rewrite !length_app. simpl.
  replace (length (trace w) + 1)%nat with (S (length (trace w))) by lia.
  assert (Hedit :
    alter (set_last_used (isoformat (S (length (trace w))))) i
      (alter (if h then incr_helpful else incr_harmful) i (bullets (pm w)))
    = <[i := counted h (isoformat (S (length (trace w)))) b]> (bullets (pm w))).
  { apply list_eq. intros j. destruct (decide (j = i)) as [->|Hne].
    - rewrite list_lookup_insert_eq by (by eapply lookup_lt_Some).
      rewrite !list_lookup_alter_eq, Hb. reflexivity.
    - rewrite list_lookup_insert_ne by done.
      by rewrite !list_lookup_alter_ne. }
  rewrite Hedit. rewrite <- !app_assoc. simpl.
  replace (S (length (trace w) + 1)) with (S (S (length (trace w)))) by lia.
  by destruct (write_fails (S (S (length (trace w))))).
Qed.

(** [update_counters] when the map points outside the list. *)
Lemma update_counters_dangling (bid : string) (h : bool) (w : World) (i : nat) :
  bullet_id_to_index (pm w) !! bid = Some i ->
  bullets (pm w) !! i = None ->
  update_counters bid h w =
  (mkWorld (pm w) (trace w ++ [CallUpdateCounters bid h]), Raise IndexError).
Proof.
  intros Hmap Hb.
  unfold update_counters, bind, emit, get_pm, bullet_at. simpl.
  rewrite Hmap. unfold bind, get_pm. simpl. by rewrite Hb.
Qed.

End StoreEffects.

(** ** Search on an empty store (C9) *)

Section EmptySearch.
Context `{Env}.

(** C9.  On a store without bullets [retrieve_relevant] returns the empty
    list and leaves the world as it found it: the trace gets no event, so the
    embedding provider is not called. *)
Theorem retrieve_relevant_empty (query : string) (top_k : nat) (w : World) :
  bullets (pm w) = [] ->
  retrieve_relevant query top_k w = (w, Ret []) /\
  trace (retrieve_relevant query top_k w).1 = trace w.
Proof.
  intros Hempty.
  rewrite (retrieve_relevant_no_bullets query top_k w Hempty). done.
Qed.

End EmptySearch.

(** Witness of [retrieve_relevant_empty]: the store right after start-up. *)
Lemma retrieve_relevant_empty_witness :
  retrieve_relevant (H:=Demo.demo_env) "anything" 5 Demo.world0 = (Demo.world0, Ret []) /\
  trace (retrieve_relevant (H:=Demo.demo_env) "anything" 5 Demo.world0).1 =
  trace Demo.world0.
Proof.
  apply (retrieve_relevant_empty (H:=Demo.demo_env) "anything" 5 Demo.world0).
  reflexivity.
Defined.

Section AddEffects.
Context `{Env}.
Local Arguments Nat.sub : simpl never.

(** [add_bullet] with content: one bullet with zero counters at the end of
    the list, its vector at the end of the index and its id mapped to its
    position, whether or not the final save raises. *)
Lemma add_bullet_pm (c s : string) (w : World) :
  exists b v,
    pm (add_bullet (Some c) s w).1 =
      mkPM (bullets (pm w) ++ [b]) (index (pm w) ++ [v])
           (<[id b := length (bullets (pm w))]> (bullet_id_to_index (pm w))) /\
    id b = drawn_id (S (length (trace w))) /\ content b = c /\ section b = s /\
    helpful b = 0%Z /\ harmful b = 0%Z /\
    (S (length (trace w)) < length (trace (add_bullet (Some c) s w).1))%nat.
Proof.
  unfold add_bullet, bind, emit, now_isoformat, get_pm, set_bullets,
    set_bullet_id_to_index, set_index, _get_embedding, save_playbook, put_pm, ret.
  simpl. unfold bind, emit, ret, raise. simpl.
  destruct (PyStr.truthy _); simpl; destruct (write_fails _); simpl;
    rewrite !length_app; simpl length; rewrite ?Nat.add_sub, ?Nat.add_1_r;
    (eexists (mkBullet _ 0 0 c s _ _), _; split; [reflexivity|]; simpl;
     repeat split; try reflexivity; lia).
Qed.

(** [add_bullet] without content raises before touching the store. *)
Lemma add_bullet_none (s : string) (w : World) :
  pm (add_bullet None s w).1 = pm w /\
  exists e, (add_bullet None s w).2 = Raise e.
Proof.
  unfold add_bullet, bind, emit, now_isoformat, ret. simpl.
  unfold bind, emit, ret, raise. simpl.
  destruct (PyStr.truthy _); simpl; split; eauto.
Qed.

Lemma grows_refl (p : PlaybookManager) : grows p p.
Proof. intros i b Hb. exists b. repeat split; [done|lia|lia]. Qed.

Lemma grows_trans (p1 p2 p3 : PlaybookManager) :
  grows p1 p2 -> grows p2 p3 -> grows p1 p3.
Proof.
  intros H12 H23 i b Hb.
  destruct (H12 i b Hb) as (b2 & Hb2 & Hid2 & Hc2 & Hh2 & Hk2).
  destruct (H23 i b2 Hb2) as (b3 & Hb3 & Hid3 & Hc3 & Hh3 & Hk3).
  exists b3. repeat split; [done|congruence|congruence|lia|lia].
Qed.

Lemma grows_update_counters (bid : string) (h : bool) (w : World) :
  grows (pm w) (pm (update_counters bid h w).1).
Proof.
  destruct (bullet_id_to_index (pm w) !! bid) as [i|] eqn:Hmap.
  - destruct (bullets (pm w) !! i) as [b|] eqn:Hb.
    + rewrite (update_counters_known bid h w i b Hmap Hb). simpl.
      intros j bj Hj. simpl. destruct (decide (j = i)) as [->|Hne].
      * rewrite list_lookup_insert_eq by (by eapply lookup_lt_Some).
        eexists. split; [reflexivity|].
        assert (bj = b) as -> by congruence.
        unfold counted, set_last_used. destruct h; simpl; repeat split; lia.
      * rewrite list_lookup_insert_ne by done.
        exists bj. repeat split; [done|lia|lia].
    + rewrite (update_counters_dangling bid h w i Hmap Hb). apply grows_refl.
  - rewrite (update_counters_unknown bid h w Hmap). apply grows_refl.
Qed.

Lemma grows_add_bullet (c : option string) (s : string) (w : World) :
  grows (pm w) (pm (add_bullet c s w).1).
Proof.
  destruct c as [c|].
  - destruct (add_bullet_pm c s w) as (b & v & Hpm & _). rewrite Hpm.
    intros i bi Hi. simpl. exists bi.
    rewrite lookup_app_l by (by eapply lookup_lt_Some).
    repeat split; [done|lia|lia].
  - destruct (add_bullet_none s w) as [Hpm _]. rewrite Hpm. apply grows_refl.
Qed.

Lemma grows_repeat_call (n : nat) (bid : string) (h : bool) (w : World) :
  grows (pm w) (pm (repeat_call n (update_counters bid h) w).1).
Proof.
  revert w. induction n as [|n IH]; intros w; simpl.
  - apply grows_refl.
  - unfold bind. pose proof (grows_update_counters bid h w) as Hstep.
    destruct (update_counters bid h w) as [w1 [r|e]]; simpl in *.
    + eapply grows_trans; [exact Hstep|apply IH].
    + exact Hstep.
Qed.

Lemma grows_apply_operation (op : DeltaOperation) (w : World) :
  grows (pm w) (pm (apply_operation op w).1).
Proof.
  unfold apply_operation.
  destruct (String.eqb (operation op) "ADD").
  - unfold bind. pose proof (grows_add_bullet (op_content op)
      (match op_section op with
       | Some s => if PyStr.truthy s then s else "General"
       | None => "General"
       end) w) as Hstep.
    destruct (add_bullet _ _ w) as [w1 [r|e]]; exact Hstep.
  - destruct (String.eqb (operation op) "UPDATE"); [|apply grows_refl].
    destruct (bullet_id op) as [bid|]; [|apply grows_refl].
    destruct (PyStr.truthy bid); [|apply grows_refl].
    unfold bind.
    pose proof (grows_repeat_call (Z.to_nat (helpful_increment op)) bid true w) as H1.
    destruct (repeat_call _ (update_counters bid true) w) as [w1 [r|e]]; simpl in *.
    + eapply grows_trans; [exact H1|apply grows_repeat_call].
    + exact H1.
Qed.

Lemma grows_apply_operations (ops : list DeltaOperation) (w : World) :
  grows (pm w) (pm (apply_operations ops w).1).
Proof.
  revert w. induction ops as [|op ops IH]; intros w; simpl.
  - apply grows_refl.
  - unfold bind. pose proof (grows_apply_operation op w) as Hstep.
    destruct (apply_operation op w) as [w1 [r|e]]; simpl in *.
    + eapply grows_trans; [exact Hstep|apply IH].
    + exact Hstep.
Qed.

End AddEffects.

(** ** Delta Merge (C7, C10) *)

Section Merge.
Context `{Env}.

Lemma merge_delta_run (delta : DeltaUpdate) (w : World) :
  merge_delta delta w =
  match apply_operations (operations delta) w with
  | (w', Ret _) => (mkWorld (pm w') (trace w' ++ [SaveDeltaLog]), Ret true)
  | (w', Raise _) => (w', Ret false)
  end.
Proof.
  unfold merge_delta, try_except, bind.
  destruct (apply_operations (operations delta) w) as [w1 [[]|e]]; reflexivity.
Qed.

Lemma apply_operations_app (ops1 ops2 : list DeltaOperation) (w : World) :
  apply_operations (ops1 ++ ops2) w =
  bind (apply_operations ops1) (fun _ => apply_operations ops2) w.
Proof.
  revert w. induction ops1 as [|op ops1 IH]; intros w; simpl.
  - reflexivity.
  - rewrite bind_assoc. apply bind_ext. intros _ w'. apply IH.
Qed.

Lemma update_calls_app (l1 l2 : list event) :
  update_calls (l1 ++ l2) = update_calls l1 ++ update_calls l2.
Proof.
  induction l1 as [|e l1 IH]; simpl; [reflexivity|].
  destruct e; simpl; by rewrite IH.
Qed.

(** Whatever [update_counters] does, it records exactly one call. *)
Lemma update_counters_calls (bid : string) (h : bool) (w : World) :
  update_calls (trace (update_counters bid h w).1) =
  update_calls (trace w) ++ [(bid, h)].
Proof.
  destruct (bullet_id_to_index (pm w) !! bid) as [i|] eqn:Hmap.
  - destruct (bullets (pm w) !! i) as [b|] eqn:Hb.
    + rewrite (update_counters_known bid h w i b Hmap Hb). simpl.
      by rewrite update_calls_app.
    + rewrite (update_counters_dangling bid h w i Hmap Hb). simpl.
      by rewrite update_calls_app.
  - rewrite (update_counters_unknown bid h w Hmap). simpl.
    by rewrite update_calls_app.
Qed.

Lemma repeat_call_calls (n : nat) (bid : string) (h : bool) (w w' : World) :
  repeat_call n (update_counters bid h) w = (w', Ret tt) ->
  update_calls (trace w') = update_calls (trace w) ++ replicate n (bid, h).
Proof.
  revert w. induction n as [|n IH]; intros w; simpl.
  - intros [= <-]. by rewrite app_nil_r.
  - unfold bind. pose proof (update_counters_calls bid h w) as Hcall.
    destruct (update_counters bid h w) as [w1 [r|e]]; simpl in *; [|done].
    intros Hrest. rewrite (IH _ Hrest), Hcall, <- app_assoc. reflexivity.
Qed.

Lemma repeat_call_unknown (n : nat) (bid : string) (h : bool) (w : World) :
  bullet_id_to_index (pm w) !! bid = None ->
  (repeat_call n (update_counters bid h) w).2 = Ret tt /\
  pm (repeat_call n (update_counters bid h) w).1 = pm w.
Proof.
  revert w. induction n as [|n IH]; intros w Hnone; simpl; [done|].
  unfold bind. rewrite (update_counters_unknown bid h w Hnone).
  apply (IH (mkWorld (pm w) (trace w ++ [CallUpdateCounters bid h]))). exact Hnone.
Qed.

(** C7.  [merge_delta] runs the operations in list order: the run of a
    concatenation is the run of the first part followed by the run of the
    second, from the state the first part left.  An UPDATE with increments
    [h] and [k] that completes has issued [h] calls
    [update_counters(id, helpful=True)] followed by [k] calls
    [update_counters(id, helpful=False)], one unit each.  If the operations
    [ops1] complete and the next operation raises, [merge_delta] returns
    [False] in the very state reached when the exception was raised: the
    later operations are not run and nothing of what [ops1] did is taken
    back. *)
Theorem merge_delta_ordered_units_no_rollback :
  (forall ops1 ops2 w,
     apply_operations (ops1 ++ ops2) w =
     bind (apply_operations ops1) (fun _ => apply_operations ops2) w) /\
  (forall delta w,
     pm (merge_delta delta w).1 = pm (apply_operations (operations delta) w).1) /\
  (forall bid c s h k w w',
     PyStr.truthy bid = true ->
     apply_operation (mkOp "UPDATE" (Some bid) c s h k) w = (w', Ret tt) ->
     update_calls (trace w') =
     update_calls (trace w) ++ replicate (Z.to_nat h) (bid, true)
                            ++ replicate (Z.to_nat k) (bid, false)) /\
  (forall ops1 op ops2 ts fid n w w1 w2 e,
     apply_operations ops1 w = (w1, Ret tt) ->
     apply_operation op w1 = (w2, Raise e) ->
     merge_delta (mkDelta (ops1 ++ op :: ops2) ts fid n) w = (w2, Ret false) /\
     grows (pm w) (pm w1) /\ grows (pm w1) (pm w2)).
Proof.
  split; [exact apply_operations_app|].
  split.
  { intros delta w. rewrite merge_delta_run.
    by destruct (apply_operations (operations delta) w) as [w1 [[]|e]]. }
  split.
  { intros bid c s h k w w' Hbid. unfold apply_operation. simpl. rewrite Hbid.
    unfold bind.
    destruct (repeat_call (Z.to_nat h) (update_counters bid true) w)
      as [w1 [[]|e]] eqn:Hfirst; [|done].
    intros Hsecond.
    rewrite (repeat_call_calls _ _ _ _ _ Hsecond), (repeat_call_calls _ _ _ _ _ Hfirst).
    by rewrite <- app_assoc. }
  intros ops1 op ops2 ts fid n w w1 w2 e Hops1 Hop.
  split; [|split].
  - rewrite merge_delta_run. simpl. rewrite apply_operations_app.
    rewrite (bind_Ret _ _ _ _ _ Hops1). simpl. unfold bind. by rewrite Hop.
  - pose proof (grows_apply_operations ops1 w) as Hg. by rewrite Hops1 in Hg.
  - pose proof (grows_apply_operation op w1) as Hg. by rewrite Hop in Hg.
Qed.

(** C10.  [merge_delta] returns [True] whenever no operation raises; for a
    Delta without operations it does so and leaves the store as it was; for
    a Delta with one UPDATE whose target id the store does not know it does
    so too, every [update_counters] call on that id returning [False]
    without changing the store, which the merge leaves as it was. *)
Theorem merge_delta_success (delta : DeltaUpdate) (w : World) :
  ((apply_operations (operations delta) w).2 = Ret tt ->
   (merge_delta delta w).2 = Ret true) /\
  (operations delta = [] ->
   (merge_delta delta w).2 = Ret true /\ pm (merge_delta delta w).1 = pm w) /\
  (forall bid c s h k,
     operations delta = [mkOp "UPDATE" (Some bid) c s h k] ->
     bullet_id_to_index (pm w) !! bid = None ->
     (merge_delta delta w).2 = Ret true /\ pm (merge_delta delta w).1 = pm w /\
     (forall w0 b, pm w0 = pm w ->
        (update_counters bid b w0).2 = Ret false /\
        pm (update_counters bid b w0).1 = pm w0)).
Proof.
  split; [|split].
  - rewrite merge_delta_run.
    by destruct (apply_operations (operations delta) w) as [w1 [[]|e]].
  - intros Hops. rewrite merge_delta_run, Hops. done.
  - intros bid c s h k Hops Hnone.
    assert (Hcalls : forall w0 b, pm w0 = pm w ->
              (update_counters bid b w0).2 = Ret false /\
              pm (update_counters bid b w0).1 = pm w0).
    { intros w0 b Hpm. rewrite update_counters_unknown by (by rewrite Hpm). done. }
    rewrite merge_delta_run, Hops. simpl. unfold apply_operation. simpl.
    destruct (PyStr.truthy bid); [|done].
    unfold bind.
    destruct (repeat_call_unknown (Z.to_nat h) bid true w Hnone) as [Hr1 Hp1].
    destruct (repeat_call (Z.to_nat h) (update_counters bid true) w)
      as [w1 [[]|e]]; simpl in *; [|done].
    assert (Hnone1 : bullet_id_to_index (pm w1) !! bid = None) by (by rewrite Hp1).
    destruct (repeat_call_unknown (Z.to_nat k) bid false w1 Hnone1) as [Hr2 Hp2].
    destruct (repeat_call (Z.to_nat k) (update_counters bid false) w1)
      as [w2 [[]|e]]; simpl in *; [|done].
    split; [reflexivity|]. split; [congruence|exact Hcalls].
Qed.

End Merge.

(** Witness of [merge_delta_ordered_units_no_rollback]: the second of these
    three ADD operations has no content and raises; the merge returns
    [False] with the first bullet in the store and the third never added.
    An UPDATE with increments 2 and 1 issues three unit calls. *)
Lemma merge_delta_ordered_units_no_rollback_witness :
  (merge_delta (H:=Demo.demo_env) Examples.delta_partial Demo.world0).2 = Ret false /\
  map content (bullets (pm (merge_delta (H:=Demo.demo_env) Examples.delta_partial
                              Demo.world0).1)) = ["Check the units"] /\
  update_calls
    (trace (apply_operation (H:=Demo.demo_env)
              (Examples.op_update "ctx-00000001" 2 1) Examples.one_bullet_world).1) =
  update_calls (trace Examples.one_bullet_world) ++
  [("ctx-00000001", true); ("ctx-00000001", true); ("ctx-00000001", false)].
Proof.
  destruct (merge_delta_ordered_units_no_rollback (H:=Demo.demo_env))
    as (_ & _ & Hunits & Hfail).
  destruct (Hfail [Examples.op_add (Some "Check the units")] (Examples.op_add None)
              [Examples.op_add (Some "Never reached")]
              "2025-01-01T00:00:00" "fb-1" 3%nat Demo.world0
              (apply_operations (H:=Demo.demo_env)
                 [Examples.op_add (Some "Check the units")] Demo.world0).1
              (apply_operation (H:=Demo.demo_env) (Examples.op_add None)
                 (apply_operations (H:=Demo.demo_env)
                    [Examples.op_add (Some "Check the units")] Demo.world0).1).1
              TypeError
              ltac:(vm_compute; reflexivity) ltac:(vm_compute; reflexivity))
    as (Hrun & _ & _).
  change (mkDelta _ _ _ _) with Examples.delta_partial in Hrun.
  rewrite Hrun. split; [reflexivity|]. split; [vm_compute; reflexivity|].
  apply (Hunits "ctx-00000001" None None 2%Z 1%Z Examples.one_bullet_world).
  - reflexivity.
  - vm_compute. reflexivity.
Defined.

(** Witness of [merge_delta_success]: the empty Delta, and an UPDATE of an
    id that the store with one bullet does not know. *)
Lemma merge_delta_success_witness :
  ((merge_delta (H:=Demo.demo_env) Examples.delta_empty Examples.one_bullet_world).2
   = Ret true /\
   pm (merge_delta (H:=Demo.demo_env) Examples.delta_empty Examples.one_bullet_world).1
   = pm Examples.one_bullet_world) /\
  ((merge_delta (H:=Demo.demo_env) Examples.delta_unknown Examples.one_bullet_world).2
   = Ret true /\
   pm (merge_delta (H:=Demo.demo_env) Examples.delta_unknown Examples.one_bullet_world).1
   = pm Examples.one_bullet_world).
Proof.
  destruct (merge_delta_success (H:=Demo.demo_env) Examples.delta_empty
              Examples.one_bullet_world) as (_ & Hempty & _).
  destruct (merge_delta_success (H:=Demo.demo_env) Examples.delta_unknown
              Examples.one_bullet_world) as (_ & _ & Hunknown).
  split.
  - apply Hempty. reflexivity.
  - destruct (Hunknown "ctx-missing" None None 2%Z 1%Z eq_refl
                ltac:(vm_compute; reflexivity)) as (Hret & Hpm & _).
    split; [exact Hret|exact Hpm].
Defined.

(** ** Usage counters (C8) *)

Section UsageCounters.
Context `{Env}.

Lemma lockstep_replace (p : PlaybookManager) (i : nat) (b b' : Bullet) :
  lockstep p -> bullets p !! i = Some b -> id b' = id b ->
  lockstep (mkPM (<[i := b']> (bullets p)) (index p) (bullet_id_to_index p)).
Proof.
  intros [Hsize Hpos Hdom] Hb Hid.
  pose proof (lookup_lt_Some _ _ _ Hb) as Hlt.
  split; simpl.
  - by rewrite length_insert.
  - intros j bj Hj. destruct (decide (j = i)) as [->|Hne].
    + rewrite list_lookup_insert_eq in Hj by done.
      assert (bj = b') as -> by congruence. rewrite Hid. by apply Hpos.
    + rewrite list_lookup_insert_ne in Hj by done. by apply Hpos.
  - intros k j Hk. destruct (Hdom k j Hk) as (b0 & Hb0 & Hid0).
    destruct (decide (j = i)) as [->|Hne].
    + exists b'. rewrite list_lookup_insert_eq by done.
      split; [done|]. congruence.
    + exists b0. by rewrite list_lookup_insert_ne.
Qed.

(** One [update_counters] call on a store in lockstep with a working disk:
    the bullet carrying the id gets one more [helpful] (or [harmful]); no
    other bullet, and neither the map nor the ids, change. *)
Lemma update_counters_effect (bid : string) (h : bool) (w : World) :
  lockstep (pm w) ->
  (forall t, write_fails t = false) ->
  exists w1 r,
    update_counters bid h w = (w1, Ret r) /\
    lockstep (pm w1) /\
    bullet_id_to_index (pm w1) = bullet_id_to_index (pm w) /\
    forall i b, bullets (pm w) !! i = Some b ->
      exists b', bullets (pm w1) !! i = Some b' /\ id b' = id b /\
        helpful b' = (helpful b + if h && bool_decide (id b = bid) then 1 else 0)%Z /\
        harmful b' = (harmful b + if negb h && bool_decide (id b = bid) then 1 else 0)%Z.
Proof.
  intros Hlock Hdisk.
  destruct (bullet_id_to_index (pm w) !! bid) as [i0|] eqn:Hmap.
  - destruct (lockstep_dom _ Hlock _ _ Hmap) as (b0 & Hb0 & Hid0).
    rewrite (update_counters_known bid h w i0 b0 Hmap Hb0), Hdisk.
    eexists _, _. split; [reflexivity|]. simpl.
    split; [|split; [reflexivity|]].
    { apply (lockstep_replace _ _ b0); [done|done|]. by destruct h. }
    intros i b Hb. destruct (decide (i = i0)) as [->|Hne].
    + assert (b = b0) as -> by congruence.
      rewrite list_lookup_insert_eq by (by eapply lookup_lt_Some).
      eexists. split; [reflexivity|].
      rewrite bool_decide_eq_true_2 by done.
      destruct h; simpl; repeat split; lia.
    + rewrite list_lookup_insert_ne by done.
      exists b. split; [done|]. split; [done|].
      assert (id b <> bid).
      { intros Heq. pose proof (lockstep_pos _ Hlock _ _ Hb) as Hp.
        rewrite Heq, Hmap in Hp. congruence. }
      rewrite bool_decide_eq_false_2 by done.
      rewrite !andb_false_r. lia.
  - rewrite (update_counters_unknown bid h w Hmap).
    eexists _, _. split; [reflexivity|]. simpl.
    split; [done|]. split; [done|].
    intros i b Hb. exists b. split; [done|]. split; [done|].
    assert (id b <> bid).
    { intros Heq. pose proof (lockstep_pos _ Hlock _ _ Hb) as Hp.
      rewrite Heq, Hmap in Hp. congruence. }
    rewrite bool_decide_eq_false_2 by done.
    rewrite !andb_false_r. lia.
Qed.

(** The loop over the surfaced ids. *)
Lemma count_used_effect (pos neg : bool) (used : list string) (w : World) :
  lockstep (pm w) ->
  (forall t, write_fails t = false) ->
  NoDup used ->
  exists w',
    count_used pos neg used w = (w', Ret tt) /\
    lockstep (pm w') /\
    bullet_id_to_index (pm w') = bullet_id_to_index (pm w) /\
    forall i b, bullets (pm w) !! i = Some b ->
      exists b', bullets (pm w') !! i = Some b' /\ id b' = id b /\
        helpful b' =
          (helpful b + if pos && bool_decide (id b ∈ used) then 1 else 0)%Z /\
        harmful b' =
          (harmful b + if negb pos && neg && bool_decide (id b ∈ used) then 1 else 0)%Z.
Proof.
  intros Hlock Hdisk Hnodup. revert w Hlock.
  induction used as [|bid rest IH]; intros w Hlock; cbn [count_used].
  - exists w. split; [reflexivity|]. split; [done|]. split; [done|].
    intros i b Hb. exists b. split; [done|]. split; [done|].
    rewrite bool_decide_eq_false_2 by apply not_elem_of_nil.
    rewrite !andb_false_r. lia.
  - apply NoDup_cons in Hnodup as [Hfresh Hnodup].
    specialize (IH Hnodup).
    assert (Hstep : exists w1,
      (if pos then update_counters bid true;; ret tt
       else if neg then update_counters bid false;; ret tt else ret tt) w
      = (w1, Ret tt) /\
      lockstep (pm w1) /\
      bullet_id_to_index (pm w1) = bullet_id_to_index (pm w) /\
      forall i b, bullets (pm w) !! i = Some b ->
        exists b', bullets (pm w1) !! i = Some b' /\ id b' = id b /\
          helpful b' =
            (helpful b + if pos && bool_decide (id b = bid) then 1 else 0)%Z /\
          harmful b' =
            (harmful b + if negb pos && neg && bool_decide (id b = bid) then 1 else 0)%Z).
    { destruct pos; [|destruct neg].
      - destruct (update_counters_effect bid true w Hlock Hdisk)
          as (w1 & r & Hrun & Hlock1 & Hmap1 & Heff).
        exists w1. unfold bind. rewrite Hrun.
        split; [reflexivity|]. split; [done|]. split; [done|].
        intros i b Hb. destruct (Heff i b Hb) as (b' & Hb' & Hid' & Hh & Hk).
        exists b'. simpl in *. done.
      - destruct (update_counters_effect bid false w Hlock Hdisk)
          as (w1 & r & Hrun & Hlock1 & Hmap1 & Heff).
        exists w1. unfold bind. rewrite Hrun.
        split; [reflexivity|]. split; [done|]. split; [done|].
        intros i b Hb. destruct (Heff i b Hb) as (b' & Hb' & Hid' & Hh & Hk).
        exists b'. simpl in *. done.
      - exists w. split; [reflexivity|]. split; [done|]. split; [done|].
        intros i b Hb. exists b. simpl. repeat split; [done|lia|lia]. }
    destruct Hstep as (w1 & Hrun1 & Hlock1 & Hmap1 & Heff1).
    destruct (IH w1 Hlock1) as (w' & Hrun & Hlock' & Hmap' & Heff).
    exists w'. split.
    { unfold bind at 1. rewrite Hrun1. exact Hrun. }
    split; [done|]. split; [congruence|].
    intros i b Hb.
    destruct (Heff1 i b Hb) as (b1 & Hb1 & Hid1 & Hh1 & Hk1).
    destruct (Heff i b1 Hb1) as (b' & Hb' & Hid' & Hh' & Hk').
    exists b'. split; [done|]. split; [congruence|].
    rewrite Hh', Hk', Hh1, Hk1, Hid1.
    destruct (decide (id b = bid)) as [Heq|Hne].
    + rewrite (bool_decide_eq_true_2 (id b = bid)) by done.
      rewrite (bool_decide_eq_true_2 (id b ∈ bid :: rest)) by (rewrite Heq; left).
      rewrite (bool_decide_eq_false_2 (id b ∈ rest)) by (by rewrite Heq).
      rewrite !andb_false_r. split; lia.
    + rewrite (bool_decide_eq_false_2 (id b = bid)) by done.
      rewrite !andb_false_r.
      destruct (decide (id b ∈ rest)) as [Hin|Hnin].
      * rewrite (bool_decide_eq_true_2 (id b ∈ rest)) by done.
        rewrite (bool_decide_eq_true_2 (id b ∈ bid :: rest)) by (by right).
        split; lia.
      * rewrite (bool_decide_eq_false_2 (id b ∈ rest)) by done.
        rewrite (bool_decide_eq_false_2 (id b ∈ bid :: rest))
          by (rewrite elem_of_cons; intros [?|?]; done).
        split; lia.
Qed.

(** C8, amended.  On a store in lockstep with a working disk, for a
    feedback with an integer rating and a chat turn whose surfaced ids are
    pairwise distinct, [_update_bullet_counters] changes every surfaced
    bullet of the store as follows: rating >= 4 or type "positive" adds 1
    to [helpful] and leaves [harmful]; otherwise rating <= 2 or type
    "incorrect" adds 1 to [harmful] and leaves [helpful]; otherwise both
    counters are left as they were. *)
Theorem update_bullet_counters_effect (chat_data : ChatData)
  (feedback_data : FeedbackData) (r : Z) (w : World) (bid : string) (i : nat)
  (b : Bullet) :
  rating feedback_data = Some r ->
  lockstep (pm w) ->
  (forall t, write_fails t = false) ->
  NoDup (used_bullets chat_data) ->
  bid ∈ used_bullets chat_data ->
  bullet_id_to_index (pm w) !! bid = Some i ->
  bullets (pm w) !! i = Some b ->
  exists b',
    bullet_id_to_index (pm (_update_bullet_counters chat_data feedback_data w).1) !! bid
      = Some i /\
    bullets (pm (_update_bullet_counters chat_data feedback_data w).1) !! i = Some b' /\
    if is_positive r (feedback_type feedback_data)
    then helpful b' = (helpful b + 1)%Z /\ harmful b' = harmful b
    else if is_negative r (feedback_type feedback_data)
    then harmful b' = (harmful b + 1)%Z /\ helpful b' = helpful b
    else helpful b' = helpful b /\ harmful b' = harmful b.
Proof.
  intros Hrating Hlock Hdisk Hnodup Hin Hmap Hb.
  assert (Hidb : id b = bid).
  { destruct (lockstep_dom _ Hlock _ _ Hmap) as (b0 & Hb0 & Hid0). congruence. }
  set (pos := is_positive r (feedback_type feedback_data)).
  set (neg := is_negative r (feedback_type feedback_data)).
  destruct (count_used_effect pos neg (used_bullets chat_data) w Hlock Hdisk Hnodup)
    as (w' & Hrun & Hlock' & Hmap' & Heff).
  destruct (Heff i b Hb) as (b' & Hb' & _ & Hh & Hk).
  assert (Hwhole : _update_bullet_counters chat_data feedback_data w =
                   (mkWorld (pm w') (trace w' ++ [SavePlaybook]), Ret tt)).
  { unfold _update_bullet_counters, try_except.
    destruct (used_bullets chat_data) as [|u rest] eqn:Hused.
    { by apply elem_of_nil in Hin. }
    rewrite Hrating.
    assert (Hpos : or_else (lift (rating_ge (Some r) 4))
                     (ret (String.eqb (feedback_type feedback_data) "positive")) w
                   = (w, Ret pos)).
    { unfold or_else, lift, bind, pos, is_positive. simpl. by destruct (4 <=? r)%Z. }
    assert (Hneg : or_else (lift (rating_le (Some r) 2))
                     (ret (String.eqb (feedback_type feedback_data) "incorrect")) w
                   = (w, Ret neg)).
    { unfold or_else, lift, bind, neg, is_negative. simpl. by destruct (r <=? 2)%Z. }
    rewrite (bind_Ret _ _ _ _ _ Hpos), (bind_Ret _ _ _ _ _ Hneg).
    rewrite (bind_Ret _ _ _ _ _ Hrun).
    unfold save_playbook, bind, emit. simpl. by rewrite Hdisk. }
  rewrite Hwhole. simpl. exists b'. split; [congruence|]. split; [done|].
  rewrite Hh, Hk. rewrite bool_decide_eq_true_2 by (by rewrite Hidb).
  rewrite !andb_true_r.
  destruct pos; simpl; [split; lia|]. destruct neg; simpl; split; lia.
Qed.

End UsageCounters.

(** ** The loops of [deduplicate] *)

Section DedupInvariant.
Context `{Env}.

Lemma bullet_at_Some (i : nat) (b : Bullet) (w : World) :
  bullets (pm w) !! i = Some b -> bullet_at i w = (w, Ret b).
Proof. intros Hb. unfold bullet_at, bind, get_pm. by rewrite Hb. Qed.

Lemma bullet_at_None (i : nat) (w : World) :
  bullets (pm w) !! i = None -> bullet_at i w = (w, Raise IndexError).
Proof. intros Hb. unfold bullet_at, bind, get_pm. by rewrite Hb. Qed.

(** An invariant [I removed w] relating [bullets_to_remove] and the world,
    which fixes the number [n] of bullets and is kept by events and by one
    bullet absorbing another that is not yet removed. *)
Variable n : nat.
Variable I : gset nat -> World -> Prop.
Hypothesis I_len : forall removed w, I removed w -> length (bullets (pm w)) = n.
Hypothesis I_emit : forall removed w e,
  I removed w -> I removed (mkWorld (pm w) (trace w ++ [e])).
Hypothesis I_merge : forall removed w winner loser bw bl,
  I removed w -> winner ∉ removed -> loser ∉ removed -> winner <> loser ->
  bullets (pm w) !! winner = Some bw -> bullets (pm w) !! loser = Some bl ->
  I ({[loser]} ∪ removed)
    (mkWorld (mkPM (alter (absorb bl) winner (bullets (pm w))) (index (pm w))
                   (bullet_id_to_index (pm w))) (trace w)).

(** The inner loop over positions below [n] returns (it does not raise)
    and keeps the invariant. *)
Lemma dedup_inner_inv (thr : float) (i : nat) (js : list nat) (removed : gset nat)
  (w : World) :
  (i < n)%nat -> i ∉ removed ->
  (forall j, j ∈ js -> (j < n)%nat /\ j <> i) ->
  I removed w ->
  exists w' removed',
    dedup_inner thr i js removed w = (w', Ret removed') /\ I removed' w'.
Proof using I_len I_emit I_merge.
  intros Hin. revert removed w. induction js as [|j js IH]; intros removed w Hi Hjs Hw.
  { by exists w, removed. }
  assert (Hjs' : forall j', j' ∈ js -> (j' < n)%nat /\ j' <> i).
  { intros j' Hj'. apply Hjs. by right. }
  destruct (Hjs j ltac:(left)) as [Hjn Hji].
  cbn [dedup_inner].
  destruct (decide (j ∈ removed)) as [|Hj]; [by apply IH|].
  pose proof (I_len _ _ Hw) as Hlen.
  destruct (lookup_lt_is_Some_2 (bullets (pm w)) i ltac:(lia)) as [bi Hbi].
  destruct (lookup_lt_is_Some_2 (bullets (pm w)) j ltac:(lia)) as [bj Hbj].
  rewrite (bind_Ret _ _ _ _ _ (bullet_at_Some _ _ _ Hbi)).
  rewrite (bind_Ret _ _ _ _ _ (bullet_at_Some _ _ _ Hbj)).
  rewrite (bind_Ret _ _ _ _ _ (get_embedding_run _ _)).
  rewrite (bind_Ret _ _ _ _ _ (get_embedding_run _ _)).
  cbn [pm trace]. cbv zeta.
  set (w2 := mkWorld (pm w) ((trace w ++ [EmbedQuery (content bi)])
                              ++ [EmbedQuery (content bj)])).
  assert (Hw2 : I removed w2) by (apply (I_emit _ (mkWorld _ _)), I_emit, Hw).
  destruct (_ && _); [|by apply IH].
  destruct (PrimFloat.leb _ _); [|by apply IH].
  destruct (Qle_bool _ _).
  - rewrite (bind_Ret _ _ _ _ _ (mutate_bullet_run _ _ _)).
    apply IH; [|done|].
    + rewrite elem_of_union, elem_of_singleton. intros [?|?]; done.
    + by apply (I_merge removed w2 i j bi bj).
  - rewrite (bind_Ret _ _ _ _ _ (mutate_bullet_run _ _ _)).
    eexists _, _. split; [reflexivity|].
    by apply (I_merge removed w2 j i bj bi).
Qed.

Lemma dedup_outer_inv (thr : float) (rows : list nat) (removed : gset nat) (w : World) :
  (forall i, i ∈ rows -> (i < n)%nat) ->
  I removed w ->
  exists w' removed',
    dedup_outer thr n rows removed w = (w', Ret removed') /\ I removed' w'.
Proof using I_len I_emit I_merge.
  revert removed w. induction rows as [|i rows IH]; intros removed w Hrows Hw.
  { by exists w, removed. }
  assert (Hrows' : forall i', i' ∈ rows -> (i' < n)%nat).
  { intros i' Hi'. apply Hrows. by right. }
  cbn [dedup_outer].
  destruct (decide (i ∈ removed)) as [|Hi]; [by apply IH|].
  destruct (dedup_inner_inv thr i (seq (S i) (n - S i)) removed w) as
    (w1 & removed1 & Hrun & H1); [apply Hrows; left|done| |done|].
  { intros j Hj. apply elem_of_seq in Hj. lia. }
  rewrite (bind_Ret _ _ _ _ _ Hrun). by apply IH.
Qed.

End DedupInvariant.

(** ** Deduplication conserves the counters (C6) *)

Section Conservation.
Context `{Env}.

Lemma sum_upto_ext (f g : nat -> Z) (n : nat) :
  (forall x, (x < n)%nat -> f x = g x) -> sum_upto f n = sum_upto g n.
Proof.
  induction n as [|n IH]; intros Hfg; simpl; [reflexivity|].
  rewrite IH by (intros x Hx; apply Hfg; lia). rewrite Hfg by lia. reflexivity.
Qed.

Lemma sum_upto_shift (f : nat -> Z) (n : nat) :
  sum_upto f (S n) = (f 0%nat + sum_upto (fun x => f (S x)) n)%Z.
Proof.
  induction n as [|n IH]; [simpl; lia|].
  change (sum_upto f (S (S n))) with (sum_upto f (S n) + f (S n))%Z.
  rewrite IH. simpl. lia.
Qed.

(** Taking the value at [a] out of the sum. *)
Lemma sum_upto_point (f : nat -> Z) (n a : nat) :
  (a < n)%nat ->
  sum_upto f n = (sum_upto (fun x => if decide (x = a) then 0 else f x) n + f a)%Z.
Proof.
  induction n as [|n IH]; intros Ha; [lia|]. simpl.
  destruct (decide (n = a)) as [->|Hne].
  - rewrite (sum_upto_ext (fun x => if decide (x = a) then 0%Z else f x) f a).
    + lia.
    + intros x Hx. destruct (decide (x = a)); [lia|reflexivity].
  - rewrite IH by lia. lia.
Qed.

Lemma counters_total_drop_removed (k : nat) (bs : list Bullet) (removed : gset nat) :
  counters_total (drop_removed k bs removed) =
  sum_upto (live_weight bs removed k) (length bs).
Proof.
  revert k. induction bs as [|b bs IH]; intros k; [reflexivity|].
  cbn [drop_removed length]. rewrite sum_upto_shift.
  unfold live_weight at 1. rewrite Nat.add_0_r. cbn [lookup list_lookup from_option].
  rewrite (sum_upto_ext (fun x => live_weight (b :: bs) removed k (S x))
             (live_weight bs removed (S k))).
  2:{ intros x _. unfold live_weight. cbn [lookup list_lookup].
      replace (k + S x)%nat with (S k + x)%nat by lia. reflexivity. }
  destruct (decide (k ∈ removed)); cbn [counters_total foldr];
    fold (counters_total (drop_removed (S k) bs removed)); rewrite IH;
    unfold counters; lia.
Qed.

Lemma drop_removed_empty (k : nat) (bs : list Bullet) : drop_removed k bs ∅ = bs.
Proof.
  revert k. induction bs as [|b bs IH]; intros k; [reflexivity|].
  cbn [drop_removed]. destruct (decide (k ∈ (∅ : gset nat))) as [Hin|_].
  - by apply not_elem_of_empty in Hin.
  - by rewrite IH.
Qed.

(** One absorption: the winner takes the loser's counters and the loser is
    marked; the total over the unmarked positions is what it was. *)
Lemma absorb_conserves (bs : list Bullet) (removed : gset nat) (winner loser : nat)
  (bw bl : Bullet) :
  winner ∉ removed -> loser ∉ removed -> winner <> loser ->
  bs !! winner = Some bw -> bs !! loser = Some bl ->
  counters_total (drop_removed 0 (alter (absorb bl) winner bs) ({[loser]} ∪ removed)) =
  counters_total (drop_removed 0 bs removed).
Proof.
  intros Hw Hl Hne Hbw Hbl.
  rewrite !counters_total_drop_removed, length_alter.
  pose proof (lookup_lt_Some _ _ _ Hbw) as Hwn.
  pose proof (lookup_lt_Some _ _ _ Hbl) as Hln.
  set (g := live_weight (alter (absorb bl) winner bs) ({[loser]} ∪ removed) 0).
  set (f := live_weight bs removed 0).
  rewrite (sum_upto_point g _ winner Hwn), (sum_upto_point f _ winner Hwn).
  rewrite (sum_upto_point (fun x => if decide (x = winner) then 0%Z else g x) _ loser Hln).
  rewrite (sum_upto_point (fun x => if decide (x = winner) then 0%Z else f x) _ loser Hln).
  rewrite (sum_upto_ext
             (fun x => if decide (x = loser) then 0%Z
                       else if decide (x = winner) then 0%Z else g x)
             (fun x => if decide (x = loser) then 0%Z
                       else if decide (x = winner) then 0%Z else f x)).
  2:{ intros x _. destruct (decide (x = loser)) as [|Hxl]; [reflexivity|].
      destruct (decide (x = winner)) as [|Hxw]; [reflexivity|].
      unfold g, f, live_weight. simpl.
      rewrite list_lookup_alter_ne by done.
      destruct (decide (x ∈ removed)) as [Hin|Hnin].
      - rewrite decide_True; [reflexivity|]. apply elem_of_union. by right.
      - rewrite decide_False; [reflexivity|].
        rewrite elem_of_union, elem_of_singleton. intros [?|?]; done. }
  destruct (decide (loser = winner)) as [Heq|_]; [by symmetry in Heq|].
  assert (Hgw : g winner = (counters bw + counters bl)%Z).
  { unfold g, live_weight. simpl. rewrite decide_False.
    - rewrite list_lookup_alter_eq, Hbw. simpl. unfold counters, absorb. simpl. lia.
    - rewrite elem_of_union, elem_of_singleton. intros [?|?]; done. }
  assert (Hgl : g loser = 0%Z).
  { unfold g, live_weight. simpl. rewrite decide_True; [reflexivity|].
    apply elem_of_union. left. by apply elem_of_singleton. }
  assert (Hfw : f winner = counters bw).
  { unfold f, live_weight. simpl. rewrite decide_False by done. by rewrite Hbw. }
  assert (Hfl : f loser = counters bl).
  { unfold f, live_weight. simpl. rewrite decide_False by done. by rewrite Hbl. }
  rewrite Hgw, Hgl, Hfw, Hfl. lia.
Qed.

Lemma rebuild_loop_cons (i : nat) (b : Bullet) (rest : list Bullet) (w : World) :
  rebuild_loop i (b :: rest) w =
  rebuild_loop (S i) rest
    (mkWorld (mkPM (bullets (pm w))
                   (index (pm w) ++
                    [_normalize_embedding
                       (match embed_query (length (trace w)) (content b) with
                        | Some embedding => embedding
                        | None => zeros
                        end)])
                   (<[id b := i]> (bullet_id_to_index (pm w))))
             (trace w ++ [EmbedQuery (content b)])).
Proof. reflexivity. Qed.

Lemma rebuild_index_run (w : World) :
  _rebuild_index w =
  rebuild_loop 0 (bullets (pm w)) (mkWorld (mkPM (bullets (pm w)) [] ∅) (trace w)).
Proof. reflexivity. Qed.

(** What the rebuilding loop leaves: the bullets untouched, one vector more
    per bullet visited, the ids visited mapped to their positions and the
    other keys as they were. *)
Lemma rebuild_loop_spec (bs : list Bullet) (i : nat) (w : World) :
  (rebuild_loop i bs w).2 = Ret tt /\
  bullets (pm (rebuild_loop i bs w).1) = bullets (pm w) /\
  length (index (pm (rebuild_loop i bs w).1)) = (length (index (pm w)) + length bs)%nat /\
  (forall k, k ∉ (id <$> bs) ->
     bullet_id_to_index (pm (rebuild_loop i bs w).1) !! k = bullet_id_to_index (pm w) !! k) /\
  (NoDup (id <$> bs) -> forall j b, bs !! j = Some b ->
     bullet_id_to_index (pm (rebuild_loop i bs w).1) !! id b = Some (i + j)%nat) /\
  (length (trace w) <= length (trace (rebuild_loop i bs w).1))%nat.
Proof.
  revert i w. induction bs as [|b rest IH]; intros i w.
  { simpl. split; [done|]. split; [done|]. split; [lia|].
    split; [done|]. split; [|lia]. intros _ j b Hj. by destruct j. }
  rewrite rebuild_loop_cons.
  destruct (IH (S i) (mkWorld (mkPM (bullets (pm w))
                   (index (pm w) ++
                    [_normalize_embedding
                       (match embed_query (length (trace w)) (content b) with
                        | Some embedding => embedding
                        | None => zeros
                        end)])
                   (<[id b := i]> (bullet_id_to_index (pm w))))
             (trace w ++ [EmbedQuery (content b)])))
    as (Hret & Hbs & Hix & Hother & Hmine & Htr).
  cbn [pm bullets index bullet_id_to_index trace] in Hbs, Hix, Hother, Hmine, Htr.
  split; [exact Hret|]. split; [exact Hbs|]. split.
  { rewrite Hix, length_app. simpl. lia. }
  split; [|split].
  - intros k Hk. rewrite fmap_cons, not_elem_of_cons in Hk. destruct Hk as [Hkb Hk].
    rewrite Hother by done. by rewrite lookup_insert_ne.
  - intros Hnodup j b' Hj. rewrite fmap_cons in Hnodup.
    apply NoDup_cons in Hnodup as [Hfresh Hnodup].
    destruct j as [|j]; simpl in Hj.
    + assert (b' = b) as -> by congruence.
      rewrite Hother by done. rewrite lookup_insert_eq. f_equal. lia.
    + rewrite (Hmine Hnodup j b' Hj). f_equal. lia.
  - rewrite length_app in Htr. simpl in Htr. lia.
Qed.

(** The world after the tail of [deduplicate] that drops the marked bullets. *)
Lemma deduplicate_tail_pm (removed : gset nat) (w : World) :
  pm ((p <- get_pm ;;
       set_bullets (drop_removed 0 (bullets p) removed) ;;
       _rebuild_index ;;
       save_playbook ;;
       ret (size removed)) w).1 =
  pm (_rebuild_index
        (mkWorld (mkPM (drop_removed 0 (bullets (pm w)) removed) (index (pm w))
                       (bullet_id_to_index (pm w))) (trace w))).1.
Proof.
  assert (Hget : get_pm w = (w, Ret (pm w))) by reflexivity.
  rewrite (bind_Ret _ _ _ _ _ Hget).
  assert (Hset : set_bullets (drop_removed 0 (bullets (pm w)) removed) w =
                 (mkWorld (mkPM (drop_removed 0 (bullets (pm w)) removed) (index (pm w))
                                (bullet_id_to_index (pm w))) (trace w), Ret tt))
    by reflexivity.
  rewrite (bind_Ret _ _ _ _ _ Hset).
  unfold bind.
  destruct (_rebuild_index _) as [w3 [[]|e]]; [|reflexivity].
  pose proof (save_playbook_pm w3) as Hsave.
  destruct (save_playbook w3) as [w4 [[]|e]]; exact Hsave.
Qed.

(** C6.  After [deduplicate], whatever the threshold and the state of the
    store, the sum of [helpful + harmful] over the bullets that remain is the
    sum over the bullets there were. *)
Theorem deduplicate_conserves_counters (similarity_threshold : float) (w : World) :
  counters_total (bullets (pm (deduplicate similarity_threshold w).1)) =
  counters_total (bullets (pm w)).
Proof.
  unfold deduplicate. unfold bind at 1. cbn [get_pm].
  destruct (length (bullets (pm w)) <? 2)%nat; [reflexivity|].
  destruct (dedup_outer_inv (length (bullets (pm w)))
              (fun removed w' =>
                 length (bullets (pm w')) = length (bullets (pm w)) /\
                 counters_total (drop_removed 0 (bullets (pm w')) removed) =
                 counters_total (bullets (pm w)))
              ltac:(by intros removed w' [Hlen _])
              ltac:(by intros removed w' e)
              ltac:(intros removed w' winner loser bw bl [Hlen Htot] Hw Hl Hne Hbw Hbl;
                    cbn [pm bullets]; split;
                    [by rewrite length_alter
                    |by rewrite (absorb_conserves _ _ _ _ bw bl)])
              similarity_threshold (seq 0 (length (bullets (pm w)))) ∅ w)
    as (w1 & removed1 & Hrun & Hlen1 & Htot1).
  { intros i Hi. apply elem_of_seq in Hi. lia. }
  { split; [reflexivity|]. by rewrite drop_removed_empty. }
  rewrite (bind_Ret _ _ _ _ _ Hrun).
  destruct (decide (removed1 = ∅)) as [->|Hne].
  - simpl. by rewrite drop_removed_empty in Htot1.
  - rewrite deduplicate_tail_pm, rebuild_index_run.
    destruct (rebuild_loop_spec
                (bullets (pm (mkWorld (mkPM (drop_removed 0 (bullets (pm w1)) removed1)
                                            (index (pm w1)) (bullet_id_to_index (pm w1)))
                                      (trace w1))))
                0
                (mkWorld (mkPM (bullets (pm (mkWorld
                                  (mkPM (drop_removed 0 (bullets (pm w1)) removed1)
                                        (index (pm w1)) (bullet_id_to_index (pm w1)))
                                  (trace w1)))) [] ∅) (trace w1)))
      as (_ & Hbs & _).
    cbn [pm bullets trace] in Hbs |- *. rewrite Hbs. exact Htot1.
Qed.

End Conservation.

(** ** Index and store stay in lockstep (C4) *)

Section Lockstep.
Context `{Env}.

Lemma fresh_inj (T t1 t2 : nat) :
  uuids_fresh T -> (t1 < T)%nat -> (t2 < T)%nat ->
  drawn_id t1 = drawn_id t2 -> t1 = t2.
Proof.
  intros Hfresh H1 H2 Heq. unfold uuids_fresh in Hfresh.
  rewrite NoDup_alt in Hfresh.
  apply (Hfresh t1 t2 (drawn_id t1)).
  - rewrite list_lookup_fmap, lookup_seq_lt by done. reflexivity.
  - rewrite list_lookup_fmap, lookup_seq_lt by done. simpl. by rewrite Heq.
Qed.

Lemma lockstep_NoDup (p : PlaybookManager) : lockstep p -> NoDup (id <$> bullets p).
Proof.
  intros Hlock. apply NoDup_alt. intros i j x Hi Hj.
  rewrite list_lookup_fmap in Hi, Hj.
  destruct (bullets p !! i) as [bi|] eqn:Hbi; [|done].
  destruct (bullets p !! j) as [bj|] eqn:Hbj; [|done].
  simpl in Hi, Hj.
  pose proof (lockstep_pos _ Hlock _ _ Hbi) as Hpi.
  pose proof (lockstep_pos _ Hlock _ _ Hbj) as Hpj.
  congruence.
Qed.

Lemma lockstep_empty : lockstep empty_pm.
Proof. split; simpl; [done|intros i b Hb; by destruct i|intros k i Hk; done]. Qed.

Lemma same_ids_lookup (p p' : PlaybookManager) (i : nat) (b' : Bullet) :
  same_ids p p' -> bullets p' !! i = Some b' ->
  exists b, bullets p !! i = Some b /\ id b = id b'.
Proof.
  intros (Hids & _ & _) Hb'.
  assert (Hi : (id <$> bullets p) !! i = Some (id b')).
  { rewrite <- Hids, list_lookup_fmap, Hb'. reflexivity. }
  rewrite list_lookup_fmap in Hi.
  destruct (bullets p !! i) as [b|]; [|done]. exists b. split; [done|].
  simpl in Hi. congruence.
Qed.

Lemma lockstep_same_ids (p p' : PlaybookManager) :
  lockstep p -> same_ids p p' -> lockstep p'.
Proof.
  intros Hlock Hsame. pose proof Hsame as (Hids & Hix & Hmap).
  split.
  - rewrite Hix, <- (lockstep_size _ Hlock).
    rewrite <- (length_fmap id (bullets p')), Hids. apply length_fmap.
  - intros i b' Hb'. destruct (same_ids_lookup _ _ _ _ Hsame Hb') as (b & Hb & Hid).
    rewrite Hmap, <- Hid. by apply (lockstep_pos _ Hlock).
  - intros k i Hk. rewrite Hmap in Hk.
    destruct (lockstep_dom _ Hlock _ _ Hk) as (b & Hb & Hid).
    assert (Hi : (id <$> bullets p') !! i = Some k).
    { rewrite Hids, list_lookup_fmap, Hb. simpl. by rewrite Hid. }
    rewrite list_lookup_fmap in Hi.
    destruct (bullets p' !! i) as [b'|]; [|done]. exists b'. split; [done|].
    simpl in Hi. congruence.
Qed.

Lemma ids_drawn_mono (T T' : nat) (p p' : PlaybookManager) :
  ids_drawn T p -> (T <= T')%nat ->
  (forall b', b' ∈ bullets p' -> exists b, b ∈ bullets p /\ id b = id b') ->
  ids_drawn T' p'.
Proof.
  intros Hdrawn Hle Hsub b' Hb'. destruct (Hsub b' Hb') as (b & Hb & Hid).
  destruct (Hdrawn b Hb) as (t & Ht & Hbt). exists t. split; [lia|congruence].
Qed.

(** [add_bullet] keeps the invariant as long as the identifiers drawn up
    to the end of the call do not collide. *)
Lemma add_bullet_inv (c s : string) (w : World) (T : nat) :
  store_inv w -> uuids_fresh T ->
  (length (trace (add_bullet (Some c) s w).1) <= T)%nat ->
  store_inv (add_bullet (Some c) s w).1.
Proof.
  intros [Hlock Hdrawn] Hfresh HT.
  destruct (add_bullet_pm c s w) as (b & v & Hpm & Hid & _ & _ & _ & _ & Htr).
  assert (Hnew : forall b0, b0 ∈ bullets (pm w) -> id b0 <> id b).
  { intros b0 Hb0 Heq. destruct (Hdrawn b0 Hb0) as (t & Ht & Hbt).
    rewrite Hbt, Hid in Heq.
    apply (fresh_inj T) in Heq; [lia|done|lia|lia]. }
  assert (Hnone : bullet_id_to_index (pm w) !! id b = None).
  { destruct (bullet_id_to_index (pm w) !! id b) as [i|] eqn:Hmap; [|done].
    destruct (lockstep_dom _ Hlock _ _ Hmap) as (b0 & Hb0 & Hid0).
    exfalso. apply (Hnew b0); [|done]. by eapply list_elem_of_lookup_2. }
  split.
  - rewrite Hpm. split; simpl.
    + rewrite !length_app. simpl. by rewrite (lockstep_size _ Hlock).
    + intros i bi Hi. destruct (decide (i < length (bullets (pm w)))%nat) as [Hlt|Hge].
      * rewrite lookup_app_l in Hi by done.
        rewrite lookup_insert_ne.
        -- by apply (lockstep_pos _ Hlock).
        -- intros Heq. apply (Hnew bi); [|done]. by eapply list_elem_of_lookup_2.
      * rewrite lookup_app_r in Hi by lia.
        destruct (i - length (bullets (pm w)))%nat as [|d] eqn:Hd; simpl in Hi; [|done].
        assert (bi = b) as -> by congruence.
        rewrite lookup_insert_eq. f_equal. lia.
    + intros k i Hk. destruct (decide (k = id b)) as [->|Hne].
      * rewrite lookup_insert_eq in Hk. exists b. split; [|done].
        assert (i = length (bullets (pm w))) as -> by congruence.
        rewrite lookup_app_r by lia. by rewrite Nat.sub_diag.
      * rewrite lookup_insert_ne in Hk by done.
        destruct (lockstep_dom _ Hlock _ _ Hk) as (b0 & Hb0 & Hid0).
        exists b0. split; [|done]. by apply lookup_app_l_Some.
  - intros b0 Hb0. rewrite Hpm in Hb0. simpl in Hb0.
    apply elem_of_app in Hb0 as [Hb0|Hb0].
    + destruct (Hdrawn b0 Hb0) as (t & Ht & Hbt). exists t. split; [lia|done].
    + apply list_elem_of_singleton in Hb0 as ->. exists (S (length (trace w))).
      split; [lia|done].
Qed.

Lemma drop_removed_sublist (k : nat) (bs : list Bullet) (removed : gset nat) :
  drop_removed k bs removed `sublist_of` bs.
Proof.
  revert k. induction bs as [|b bs IH]; intros k; simpl; [done|].
  destruct (decide (k ∈ removed)).
  - by apply sublist_cons.
  - by apply sublist_skip.
Qed.

Lemma deduplicate_run (thr : float) (w : World) :
  deduplicate thr w =
  (if (length (bullets (pm w)) <? 2)%nat then ret 0%nat
   else
     bullets_to_remove <-
       dedup_outer thr (length (bullets (pm w))) (seq 0 (length (bullets (pm w)))) ∅ ;;
     if decide (bullets_to_remove = ∅) then ret 0%nat
     else
       p <- get_pm ;;
       set_bullets (drop_removed 0 (bullets p) bullets_to_remove) ;;
       _rebuild_index ;;
       save_playbook ;;
       ret (size bullets_to_remove)) w.
Proof. reflexivity. Qed.

(** [deduplicate] keeps the invariant. *)
Lemma deduplicate_inv (thr : float) (w : World) :
  store_inv w ->
  store_inv (deduplicate thr w).1 /\
  (length (trace w) <= length (trace (deduplicate thr w).1))%nat.
Proof.
  intros [Hlock Hdrawn].
  rewrite deduplicate_run.
  destruct (length (bullets (pm w)) <? 2)%nat; [done|].
  destruct (dedup_outer_inv (length (bullets (pm w)))
              (fun (removed : gset nat) w' =>
                 length (bullets (pm w')) = length (bullets (pm w)) /\
                 same_ids (pm w) (pm w') /\
                 (length (trace w) <= length (trace w'))%nat)
              ltac:(by intros removed w' [Hlen _])
              ltac:(intros removed w' e (Hlen & Hsame & Htr); cbn [pm trace];
                    rewrite length_app; simpl; repeat split; [done|apply Hsame..|lia])
              ltac:(intros removed w' winner loser bw bl (Hlen & Hsame & Htr) _ _ _ _ _;
                    cbn [pm trace bullets]; split; [by rewrite length_alter|];
                    split; [|done]; destruct Hsame as (Hids & Hix & Hmap);
                    split; [|done]; cbn [bullets];
                    rewrite <- Hids; apply list_eq; intros j;
                    rewrite !list_lookup_fmap;
                    destruct (decide (j = winner)) as [->|Hj];
                    [rewrite list_lookup_alter_eq; by destruct (bullets (pm w') !! winner)
                    |by rewrite list_lookup_alter_ne])
              thr (seq 0 (length (bullets (pm w)))) ∅ w)
    as (w1 & removed1 & Hrun & Hlen1 & Hsame1 & Htr1).
  { intros i Hi. apply elem_of_seq in Hi. lia. }
  { split; [reflexivity|]. split; [|lia]. by repeat split. }
  rewrite !(bind_Ret _ _ _ _ _ Hrun).
  assert (Hsub1 : forall b', b' ∈ bullets (pm w1) ->
                             exists b, b ∈ bullets (pm w) /\ id b = id b').
  { intros b' Hb'. apply list_elem_of_lookup in Hb' as [i Hi].
    destruct (same_ids_lookup _ _ _ _ Hsame1 Hi) as (b & Hb & Hid).
    exists b. split; [by eapply list_elem_of_lookup_2|done]. }
  destruct (decide (removed1 = ∅)) as [->|Hne].
  - simpl. split; [|done]. split.
    + by apply (lockstep_same_ids (pm w)).
    + by apply (ids_drawn_mono (length (trace w)) _ (pm w)).
  - set (kept := drop_removed 0 (bullets (pm w1)) removed1).
    set (w2 := mkWorld (mkPM kept (index (pm w1)) (bullet_id_to_index (pm w1)))
                       (trace w1)).
    assert (Htail : exists w4 o,
      (p <- get_pm ;;
       set_bullets (drop_removed 0 (bullets p) removed1) ;;
       _rebuild_index ;; save_playbook ;; ret (size removed1)) w1 = (w4, o) /\
      pm w4 = pm (_rebuild_index w2).1 /\
      (length (trace (_rebuild_index w2).1) <= length (trace w4))%nat).
    { assert (Hget : get_pm w1 = (w1, Ret (pm w1))) by reflexivity.
      rewrite (bind_Ret _ _ _ _ _ Hget).
      assert (Hset : set_bullets (drop_removed 0 (bullets (pm w1)) removed1) w1 =
                     (w2, Ret tt)) by reflexivity.
      rewrite (bind_Ret _ _ _ _ _ Hset).
      unfold bind.
      destruct (_rebuild_index w2) as [w3 [[]|e]]; [|by eexists _, _].
      unfold save_playbook, bind, emit. simpl.
      destruct (write_fails (length (trace w3))); simpl; eexists _, _;
        (split; [reflexivity|]); simpl; rewrite length_app; simpl; split; (done || lia). }
    destruct Htail as (w4 & o & Hrun4 & Hpm4 & Htr4).
    rewrite Hrun4. simpl.
    rewrite rebuild_index_run in Hpm4, Htr4.
    change (bullets (pm w2)) with kept in Hpm4, Htr4.
    change (trace w2) with (trace w1) in Hpm4, Htr4.
    destruct (rebuild_loop_spec kept 0 (mkWorld (mkPM kept [] ∅) (trace w1)))
      as (_ & Hbs & Hix & Hother & Hmine & Htr).
    set (w3 := (rebuild_loop 0 kept (mkWorld (mkPM kept [] ∅) (trace w1))).1) in *.
    cbn [pm bullets index bullet_id_to_index trace] in Hbs, Hix, Hother, Hmine, Htr.
    assert (Hnodup : NoDup (id <$> kept)).
    { apply (sublist_NoDup _ (id <$> bullets (pm w1))).
      - destruct Hsame1 as (Hids & _ & _). rewrite Hids. by apply lockstep_NoDup.
      - apply (fmap_sublist id _ _ (drop_removed_sublist 0 (bullets (pm w1)) removed1)). }
    split; [split|].
    + rewrite Hpm4. split.
      * rewrite Hbs, Hix. reflexivity.
      * intros i b Hb. rewrite Hbs in Hb.
        by rewrite (Hmine Hnodup i b Hb).
      * intros k i Hk. rewrite Hbs.
        destruct (decide (k ∈ id <$> kept)) as [Hin|Hnin].
        -- apply list_elem_of_fmap in Hin as (b & -> & Hb).
           apply list_elem_of_lookup in Hb as [j Hj].
           rewrite (Hmine Hnodup j b Hj) in Hk. exists b. split; [|done].
           assert (i = j) as -> by (simpl in Hk; congruence). done.
        -- rewrite Hother in Hk by done. done.
    + intros b Hb. rewrite Hpm4, Hbs in Hb.
      assert (Hb1 : b ∈ bullets (pm w1)).
      { eapply elem_of_sublist; [exact Hb|apply drop_removed_sublist]. }
      destruct (Hsub1 b Hb1) as (b0 & Hb0 & Hid0).
      destruct (Hdrawn b0 Hb0) as (t & Ht & Hbt).
      exists t. split; [|congruence]. lia.
    + lia.
Qed.

(** The trace only grows along [deduplicate], in any state. *)
Lemma deduplicate_trace_mono (thr : float) (w : World) :
  (length (trace w) <= length (trace (deduplicate thr w).1))%nat.
Proof.
  rewrite deduplicate_run.
  destruct (length (bullets (pm w)) <? 2)%nat; [done|].
  destruct (dedup_outer_inv (length (bullets (pm w)))
              (fun (removed : gset nat) w' =>
                 length (bullets (pm w')) = length (bullets (pm w)) /\
                 (length (trace w) <= length (trace w'))%nat)
              ltac:(by intros removed w' [Hlen _])
              ltac:(intros removed w' e (Hlen & Htr); cbn [pm trace];
                    rewrite length_app; simpl; split; [done|lia])
              ltac:(intros removed w' winner loser bw bl (Hlen & Htr) _ _ _ _ _;
                    cbn [pm trace bullets]; split; [by rewrite length_alter|done])
              thr (seq 0 (length (bullets (pm w)))) ∅ w)
    as (w1 & removed1 & Hrun & Hlen1 & Htr1).
  { intros i Hi. apply elem_of_seq in Hi. lia. }
  { split; [reflexivity|lia]. }
  rewrite (bind_Ret _ _ _ _ _ Hrun).
  destruct (decide (removed1 = ∅)) as [->|Hne]; [done|].
  assert (Hget : get_pm w1 = (w1, Ret (pm w1))) by reflexivity.
  rewrite (bind_Ret _ _ _ _ _ Hget).
  set (kept := drop_removed 0 (bullets (pm w1)) removed1).
  assert (Hset : set_bullets kept w1 =
                 (mkWorld (mkPM kept (index (pm w1)) (bullet_id_to_index (pm w1)))
                          (trace w1), Ret tt)) by reflexivity.
  rewrite (bind_Ret _ _ _ _ _ Hset).
  unfold bind at 1. rewrite rebuild_index_run. cbn [pm bullets trace].
  destruct (rebuild_loop_spec kept 0 (mkWorld (mkPM kept [] ∅) (trace w1)))
    as (_ & _ & _ & _ & _ & Htr).
  cbn [trace] in Htr.
  destruct (rebuild_loop 0 kept (mkWorld (mkPM kept [] ∅) (trace w1)))
    as [w3 [[]|e]]; cbn [fst snd] in Htr |- *; [|simpl; lia].
  unfold save_playbook, bind, emit. simpl.
  destruct (write_fails (length (trace w3))); simpl; rewrite length_app; simpl; lia.
Qed.

Lemma run_op_trace_mono (o : store_op) (w : World) :
  (length (trace w) <= length (trace (run_op o w)))%nat.
Proof.
  destruct o as [c s|thr]; simpl.
  - destruct (add_bullet_pm c s w) as (b & v & _ & _ & _ & _ & _ & _ & Htr). lia.
  - apply deduplicate_trace_mono.
Qed.

Lemma run_ops_trace_mono (ops : list store_op) (w : World) :
  (length (trace w) <= length (trace (run_ops ops w)))%nat.
Proof.
  revert w. induction ops as [|o ops IH]; intros w; simpl; [done|].
  etrans; [apply (run_op_trace_mono o)|apply IH].
Qed.

Lemma run_op_inv (o : store_op) (w : World) (T : nat) :
  store_inv w -> uuids_fresh T -> (length (trace (run_op o w)) <= T)%nat ->
  store_inv (run_op o w).
Proof.
  intros Hinv Hfresh HT. destruct o as [c s|thr]; simpl in *.
  - by apply (add_bullet_inv c s w T).
  - by apply deduplicate_inv.
Qed.

Lemma run_ops_inv (ops : list store_op) (w : World) (T : nat) :
  store_inv w -> uuids_fresh T -> (length (trace (run_ops ops w)) <= T)%nat ->
  store_inv (run_ops ops w).
Proof.
  revert w. induction ops as [|o ops IH]; intros w Hinv Hfresh HT; simpl in *; [done|].
  apply IH; [|done|done].
  apply (run_op_inv o w T); [done|done|].
  etrans; [apply (run_ops_trace_mono ops)|exact HT].
Qed.

Lemma run_ops_app (ops1 ops2 : list store_op) (w : World) :
  run_ops (ops1 ++ ops2) w = run_ops ops2 (run_ops ops1 w).
Proof. unfold run_ops. apply foldl_app. Qed.

(** C4, amended.  Start from a store without bullets and run any sequence of
    [add_bullet] and [deduplicate] calls.  Provided the identifiers that
    [uuid4] hands out during the run do not collide, after each call
    (after every prefix [ops1] of the sequence) the store has as many
    vectors as bullets, every bullet's id is mapped to the bullet's own
    position, so that distinct bullets have distinct ids and positions, and
    the map has no entry besides those. *)
Theorem store_lockstep_invariant (ops1 ops2 : list store_op) (w0 : World) :
  pm w0 = empty_pm ->
  uuids_fresh (length (trace (run_ops (ops1 ++ ops2) w0))) ->
  lockstep (pm (run_ops ops1 w0)) /\
  length (bullets (pm (run_ops ops1 w0))) = length (index (pm (run_ops ops1 w0))) /\
  NoDup (id <$> bullets (pm (run_ops ops1 w0))).
Proof.
  intros Hempty Hfresh.
  assert (Hinv : store_inv (run_ops ops1 w0)).
  { apply (run_ops_inv ops1 w0 (length (trace (run_ops (ops1 ++ ops2) w0))));
      [|exact Hfresh|].
    - split; rewrite Hempty; [apply lockstep_empty|].
      intros b Hb. by apply elem_of_nil in Hb.
    - rewrite run_ops_app. apply run_ops_trace_mono. }
  destruct Hinv as [Hlock _].
  split; [done|]. split; [apply (lockstep_size _ Hlock)|by apply lockstep_NoDup].
Qed.

End Lockstep.

(** ** Search (C5) *)

Section Search.
Context `{Env}.


(** What the loop keeps passed the filter, and it keeps no more than it
    was given. *)
Lemma collect_relevant_filtered (bs : list Bullet) (hits : list (float * Z))
  (res : list Bullet) :
  collect_relevant bs hits = Ret res ->
  (forall b, b ∈ res -> (harmful b <= helpful b)%Z) /\
  (length res <= length hits)%nat.
Proof.
  revert res. induction hits as [|[score idx] hits IH]; intros res; simpl.
  { intros [= <-]. split; [intros b Hb; by apply elem_of_nil in Hb|done]. }
  destruct (idx <? Z.of_nat (length bs))%Z.
  - destruct (py_getitem bs idx) as [bullet|]; [|done].
    destruct (collect_relevant bs hits) as [acc|e]; [|done].
    destruct (IH acc eq_refl) as [Hacc Hlen].
    destruct (harmful bullet <=? helpful bullet)%Z eqn:Hkeep; intros [= <-].
    + split; [|simpl; lia]. intros b Hb. apply elem_of_cons in Hb as [->|Hb].
      * by apply Z.leb_le.
      * by apply Hacc.
    + split; [done|lia].
  - intros Hres. destruct (IH res Hres) as [Hacc Hlen]. split; [done|lia].
Qed.


Lemma retrieve_relevant_run (query : string) (top_k : nat) (w : World) :
  bullets (pm w) <> [] ->
  retrieve_relevant query top_k w =
  (mkWorld (pm w) (trace w ++ [EmbedQuery query]),
   match collect_relevant (bullets (pm w))
           (index_search (index (pm w)) (query_vector w query)
                         (Nat.min top_k (length (bullets (pm w))))) with
   | Ret relevant_bullets => Ret (take top_k relevant_bullets)
   | Raise e => Raise e
   end).
Proof.
  intros Hne. unfold retrieve_relevant, bind at 1, get_pm.
  destruct (bullets (pm w)) as [|b0 bs] eqn:Hbs; [done|].
  rewrite (bind_Ret _ _ _ _ _ (get_embedding_run _ _)).
  unfold bind, lift, query_vector. cbn [pm trace].
  by destruct (collect_relevant _ _).
Qed.


End Search.

(** ** UPDATE operations (C1) *)

Section UpdateOperation.
Context `{Env}.

Lemma retrieve_relevant_pm (query : string) (top_k : nat) (w : World) :
  pm (retrieve_relevant query top_k w).1 = pm w.
Proof.
  destruct (decide (bullets (pm w) = [])) as [Hempty|Hne].
  - by rewrite (retrieve_relevant_no_bullets query top_k w Hempty).
  - by rewrite (retrieve_relevant_run query top_k w Hne).
Qed.

Lemma find_similar_bullets_pm (text : string) (w : World) :
  pm (_find_similar_bullets text w).1 = pm w.
Proof.
  unfold _find_similar_bullets, bind at 1, get_pm.
  destruct (bullets (pm w)); [done|].
  unfold bind. pose proof (retrieve_relevant_pm text 5 w) as Hpm.
  by destruct (retrieve_relevant text 5 w) as [w1 [r|e]].
Qed.

(** C1, amended.  For an insight with confidence above 0.5 for which the
    search returns at least one candidate, [process_insights] yields a
    Delta with exactly one operation: an UPDATE of the top candidate's id
    that carries the freshly formatted text of the insight, with
    [helpful_increment] 1 if the confidence is above 0.7 and 0 otherwise,
    and [harmful_increment] 0; the store is not changed by this step.
    [merge_delta] on that Delta leaves every bullet's id and content as they
    were; on a store in lockstep with a working disk it returns [True] and
    the matched bullet gets [helpful_increment] more [helpful], its
    [harmful] and its content unchanged: the formatted text stays in the
    operation and does not replace the bullet's content. *)
Theorem process_insights_update (insight : ReflectionInsight) (fid : string)
  (w w1 : World) (best : Bullet) (rest : list Bullet) :
  PrimFloat.ltb 0.5 (confidence insight) = true ->
  _find_similar_bullets (key_insight insight) w = (w1, Ret (best :: rest)) ->
  exists w2 ts,
    process_insights insight fid w =
      (w2, Ret (mkDelta
                  [mkOp "UPDATE" (Some (id best))
                     (Some (Curator._format_bullet_content (key_insight insight) insight))
                     None (if PrimFloat.ltb 0.7 (confidence insight) then 1 else 0) 0]
                  ts fid 1)) /\
    pm w2 = pm w /\
    forall delta,
      operations delta =
        [mkOp "UPDATE" (Some (id best))
           (Some (Curator._format_bullet_content (key_insight insight) insight))
           None (if PrimFloat.ltb 0.7 (confidence insight) then 1 else 0) 0] ->
      grows (pm w2) (pm (merge_delta delta w2).1) /\
      forall i b,
        lockstep (pm w2) -> (forall t, write_fails t = false) ->
        PyStr.truthy (id best) = true ->
        bullet_id_to_index (pm w2) !! id best = Some i ->
        bullets (pm w2) !! i = Some b ->
        exists b',
          (merge_delta delta w2).2 = Ret true /\
          bullets (pm (merge_delta delta w2).1) !! i = Some b' /\
          content b' = content b /\
          helpful b' =
            (helpful b + if PrimFloat.ltb 0.7 (confidence insight) then 1 else 0)%Z /\
          harmful b' = harmful b.
Proof.
  intros Hconf Hfind.
  pose proof (find_similar_bullets_pm (key_insight insight) w) as Hpm1.
  rewrite Hfind in Hpm1. simpl in Hpm1.
  exists (mkWorld (pm w1) (trace w1 ++ [Now])), (isoformat (length (trace w1))).
  split; [|split].
  - unfold process_insights. rewrite Hconf. rewrite bind_assoc.
    rewrite (bind_Ret _ _ _ _ _ Hfind). reflexivity.
  - exact Hpm1.
  - intros delta Hops.
    set (w2 := mkWorld (pm w1) (trace w1 ++ [Now])).
    split.
    + rewrite merge_delta_run.
      pose proof (grows_apply_operations (operations delta) w2) as Hg.
      by destruct (apply_operations (operations delta) w2) as [w3 [[]|e]].
    + intros i b Hlock Hdisk Hbid Hmap Hb.
      pose proof (update_counters_known (id best) true w2 i b Hmap Hb) as Hrun.
      rewrite Hdisk in Hrun.
      destruct (PrimFloat.ltb 0.7 (confidence insight)).
      * assert (Happ : apply_operations (operations delta) w2 =
                       ((update_counters (id best) true w2).1, Ret tt)).
        { rewrite Hops. cbn [apply_operations]. unfold apply_operation.
          cbn [operation bullet_id helpful_increment harmful_increment String.eqb
               Ascii.eqb Bool.eqb]. rewrite Hbid.
          change (Z.to_nat 1) with 1%nat. change (Z.to_nat 0) with 0%nat.
          cbn [repeat_call]. unfold bind. rewrite Hrun. reflexivity. }
        rewrite merge_delta_run, Happ, Hrun. cbn [fst snd pm bullets].
        rewrite list_lookup_insert_eq by (by eapply lookup_lt_Some).
        eexists. split; [reflexivity|]. split; [reflexivity|].
        simpl. repeat split; lia.
      * assert (Happ : apply_operations (operations delta) w2 = (w2, Ret tt)).
        { rewrite Hops. cbn [apply_operations]. unfold apply_operation.
          cbn [operation bullet_id helpful_increment harmful_increment String.eqb
               Ascii.eqb Bool.eqb]. rewrite Hbid. reflexivity. }
        rewrite merge_delta_run, Happ. cbn [fst snd pm].
        exists b. repeat split; [done|lia].
Qed.

End UpdateOperation.

(** Witness of [process_insights_update]: an insight of confidence 0.8
    against the store with one bullet. *)
Lemma process_insights_update_witness :
  exists w2 ts,
    process_insights (H:=Demo.demo_env) Examples.recheck_insight "fb-1"
      Examples.one_bullet_world =
      (w2, Ret (mkDelta
                  [mkOp "UPDATE" (Some "ctx-00000001") (Some "Always double check units")
                     None 1 0] ts "fb-1" 1)) /\
    pm w2 = pm Examples.one_bullet_world.
Proof.
  destruct (process_insights_update (H:=Demo.demo_env) Examples.recheck_insight "fb-1"
              Examples.one_bullet_world
              (_find_similar_bullets (H:=Demo.demo_env)
                 (key_insight Examples.recheck_insight) Examples.one_bullet_world).1
              (mkBullet "ctx-00000001" 0 0 "Always confirm units before calculating."
                 "General" "2025-01-01T00:00:00.2" "2025-01-01T00:00:00.2") []
              ltac:(vm_compute; reflexivity) ltac:(vm_compute; reflexivity))
    as (w2 & ts & Hrun & Hpm & _).
  exists w2, ts. split; [exact Hrun|exact Hpm].
Defined.

(** C1 as stated fails: after Delta Computation and Delta Merge on an
    insight that matches the only bullet, the bullet has one more
    [helpful] but still its old content, not the formatted text of the
    insight that the UPDATE operation carries. *)
Lemma update_keeps_content_counterexample :
  (exists ts,
     (process_insights (H:=Demo.demo_env) Examples.recheck_insight "fb-1"
        Examples.one_bullet_world).2 =
     Ret (mkDelta
            [mkOp "UPDATE" (Some "ctx-00000001") (Some "Always double check units")
               None 1 0] ts "fb-1" 1)) /\
  (Examples.compute_then_merge Examples.recheck_insight "fb-1"
     Examples.one_bullet_world).2 = Ret true /\
  map (fun b => (id b, content b, helpful b))
      (bullets (pm (Examples.compute_then_merge Examples.recheck_insight "fb-1"
                      Examples.one_bullet_world).1)) =
  [("ctx-00000001", "Always confirm units before calculating.", 1%Z)] /\
  Curator._format_bullet_content (key_insight Examples.recheck_insight)
    Examples.recheck_insight <> "Always confirm units before calculating.".
Proof.
  split; [eexists; vm_compute; reflexivity|].
  split; [vm_compute; reflexivity|].
  split; [vm_compute; reflexivity|].
  vm_compute. congruence.
Qed.

(** ** Witnesses on the concrete collaborators *)

(** Witness of [store_lockstep_invariant]: two adds and a deduplication that
    merges them, as a prefix of a run with one more add. *)
Lemma store_lockstep_invariant_witness :
  lockstep (pm (run_ops (H:=Demo.demo_env) Examples.two_adds_dedup Demo.world0)) /\
  length (bullets (pm (run_ops (H:=Demo.demo_env) Examples.two_adds_dedup Demo.world0))) =
  length (index (pm (run_ops (H:=Demo.demo_env) Examples.two_adds_dedup Demo.world0))) /\
  NoDup (id <$> bullets (pm (run_ops (H:=Demo.demo_env) Examples.two_adds_dedup
                               Demo.world0))).
Proof.
  apply (store_lockstep_invariant (H:=Demo.demo_env) Examples.two_adds_dedup
           Examples.one_more_add Demo.world0).
  - reflexivity.
  - apply (bool_decide_unpack _). vm_compute. exact I.
Defined.

(** C4 as stated fails: when [uuid4] hands out the same value twice, two
    adds from the empty store leave two bullets with one and the same id,
    which the map sends to the position of the second; the store is not in
    lockstep, although it has as many vectors as bullets. *)
Lemma colliding_ids_break_lockstep_counterexample :
  pm Demo.colliding_world0 = empty_pm /\
  id <$> bullets (pm (run_ops (H:=Demo.colliding_env) Examples.two_adds
                        Demo.colliding_world0)) = ["ctx-deadbeef"; "ctx-deadbeef"] /\
  bullet_id_to_index (pm (run_ops (H:=Demo.colliding_env) Examples.two_adds
                            Demo.colliding_world0)) !! "ctx-deadbeef" = Some 1%nat /\
  ~ NoDup (id <$> bullets (pm (run_ops (H:=Demo.colliding_env) Examples.two_adds
                                 Demo.colliding_world0))) /\
  ~ lockstep (pm (run_ops (H:=Demo.colliding_env) Examples.two_adds
                    Demo.colliding_world0)).
Proof.
  assert (Hids : id <$> bullets (pm (run_ops (H:=Demo.colliding_env) Examples.two_adds
                                       Demo.colliding_world0)) =
                 ["ctx-deadbeef"; "ctx-deadbeef"]) by (vm_compute; reflexivity).
  assert (Hdup : ~ NoDup (id <$> bullets (pm (run_ops (H:=Demo.colliding_env)
                                                Examples.two_adds
                                                Demo.colliding_world0)))).
  { rewrite Hids. intros Hnodup. apply NoDup_cons in Hnodup as [Hnin _].
    apply Hnin. left. }
  split; [reflexivity|]. split; [exact Hids|].
  split; [vm_compute; reflexivity|]. split; [exact Hdup|].
  intros Hlock. apply Hdup. by apply (lockstep_NoDup (H:=Demo.colliding_env)).
Qed.

Lemma one_bullet_world_inv : store_inv (H:=Demo.demo_env) Examples.one_bullet_world.
Proof.
  apply (run_ops_inv (H:=Demo.demo_env)
           [OpAdd "Always confirm units before calculating." "General"]
           Demo.world0 5).
  - split; [apply lockstep_empty|]. intros b Hb. by apply elem_of_nil in Hb.
  - apply (bool_decide_unpack _). vm_compute. exact I.
  - vm_compute. lia.
Qed.

(** Witness of [update_bullet_counters_effect]: a feedback rated 5 on a chat
    turn that surfaced the only bullet. *)
Lemma update_bullet_counters_effect_witness :
  exists b',
    bullet_id_to_index
      (pm (_update_bullet_counters (H:=Demo.demo_env) Examples.chat_one Examples.praise
             Examples.one_bullet_world).1) !! "ctx-00000001" = Some 0%nat /\
    bullets
      (pm (_update_bullet_counters (H:=Demo.demo_env) Examples.chat_one Examples.praise
             Examples.one_bullet_world).1) !! 0%nat = Some b' /\
    helpful b' = 1%Z /\ harmful b' = 0%Z.
Proof.
  destruct (update_bullet_counters_effect (H:=Demo.demo_env) Examples.chat_one
              Examples.praise 5%Z Examples.one_bullet_world "ctx-00000001" 0%nat
              Examples.first_bullet) as (b' & Hmap & Hb & Hh & Hk).
  - reflexivity.
  - apply one_bullet_world_inv.
  - intros t. reflexivity.
  - apply (bool_decide_unpack _). vm_compute. exact I.
  - apply (bool_decide_unpack _). vm_compute. exact I.
  - vm_compute. reflexivity.
  - vm_compute. reflexivity.
  - exists b'. split; [exact Hmap|]. split; [exact Hb|]. split; [exact Hh|exact Hk].
Defined.

(** C8 as stated fails: for a feedback rated 5 whose type is "incorrect" the
    claim asks for one more [harmful] and an unchanged [helpful]; the code
    tests the positive condition first and adds to [helpful] instead. *)
Lemma positive_wins_over_incorrect_counterexample :
  is_negative 5%Z (feedback_type Examples.mixed_signal) = true /\
  map (fun b => (id b, helpful b, harmful b))
      (bullets (pm Examples.one_bullet_world)) = [("ctx-00000001", 0%Z, 0%Z)] /\
  map (fun b => (id b, helpful b, harmful b))
      (bullets (pm (_update_bullet_counters (H:=Demo.demo_env) Examples.chat_one
                      Examples.mixed_signal Examples.one_bullet_world).1)) =
  [("ctx-00000001", 1%Z, 0%Z)].
Proof. repeat split; vm_compute; reflexivity. Qed.



(** Why C8 asks for a working disk: on a disk whose writes fail, the save
    inside the first [update_counters] raises, the exception is swallowed
    by [_update_bullet_counters], and the second surfaced bullet keeps its
    counters although the feedback is rated 5. *)
Lemma failed_save_stops_counting :
  used_bullets Examples.chat_two = ["ctx-00000001"; "ctx-00000011"] /\
  map (fun b => (id b, helpful b, harmful b))
      (bullets (pm Examples.three_bullet_world_bad_disk)) =
    [("ctx-00000001", 0%Z, 0%Z); ("ctx-00000006", 0%Z, 1%Z); ("ctx-00000011", 0%Z, 0%Z)] /\
  map (fun b => (id b, helpful b, harmful b))
      (bullets (pm (_update_bullet_counters (H:=Demo.failing_disk_env 20)
                      Examples.chat_two Examples.praise
                      Examples.three_bullet_world_bad_disk).1)) =
    [("ctx-00000001", 1%Z, 0%Z); ("ctx-00000006", 0%Z, 1%Z); ("ctx-00000011", 0%Z, 0%Z)].
Proof. repeat split; vm_compute; reflexivity. Qed.

(** * Further properties of the code *)

(** ** Text functions of the Curator *)

Section CuratorText.

Lemma length_append (a b : string) :
  String.length (a +:+ b) = (String.length a + String.length b)%nat.
Proof. induction a as [|c a IH]; simpl; [reflexivity|]. by rewrite IH. Qed.

(** Whatever the text and the insight, the formatted bullet content has at
    least ten characters: shorter (or empty) results are replaced by the
    templated fallback sentence, which is longer than that. *)
Theorem format_bullet_content_min_length (text : string) (insight : ReflectionInsight) :
  (10 <= String.length (Curator._format_bullet_content text insight))%nat.
Proof.
  unfold Curator._format_bullet_content, Curator._clean_and_format_content.
  set (formatted := Curator._apply_structured_formatting _).
  destruct (negb (PyStr.truthy formatted) || (String.length formatted <? 10)%nat)
    eqn:Hshort.
  - unfold Curator._create_fallback_insight.
    destruct (Curator.is_error_case insight); rewrite !length_append; simpl; lia.
  - apply orb_false_iff in Hshort as [_ Hlen].
    apply Nat.ltb_ge in Hlen. exact Hlen.
Qed.

(** [_determine_section] returns one of eight fixed labels. *)
Lemma determine_section_in_vocabulary (insight : ReflectionInsight) :
  Curator._determine_section insight ∈ section_labels.
Proof.
  unfold Curator._determine_section, section_labels.
  repeat (destruct (PyStr.any_in _ _); [set_solver|]). set_solver.
Qed.

End CuratorText.

(** ** Delta Computation *)

Section DeltaComputation.
Context `{Env}.

Lemma mk_delta_run (ops : list DeltaOperation) (fid : string) (w : World) :
  mk_delta ops fid w =
  (mkWorld (pm w) (trace w ++ [Now]),
   Ret (mkDelta ops (isoformat (length (trace w))) fid (length ops))).
Proof. reflexivity. Qed.

Lemma py_getitem_elem {A} (l : list A) (i : Z) (x : A) :
  py_getitem l i = Some x -> x ∈ l.
Proof.
  unfold py_getitem. destruct (i <? 0)%Z.
  - destruct (i <? - Z.of_nat (length l))%Z; [done|]. apply list_elem_of_lookup_2.
  - apply list_elem_of_lookup_2.
Qed.

Lemma collect_relevant_inside (bs : list Bullet) (hits : list (float * Z))
  (res : list Bullet) :
  collect_relevant bs hits = Ret res -> forall b, b ∈ res -> b ∈ bs.
Proof.
  revert res. induction hits as [|[score idx] hits IH]; intros res; simpl.
  { intros [= <-] b Hb. by apply elem_of_nil in Hb. }
  destruct (idx <? Z.of_nat (length bs))%Z; [|by apply IH].
  destruct (py_getitem bs idx) as [bullet|] eqn:Hget; [|done].
  destruct (collect_relevant bs hits) as [acc|e]; [|done].
  destruct (harmful bullet <=? helpful bullet)%Z; intros [= <-] b Hb.
  - apply elem_of_cons in Hb as [->|Hb]; [by eapply py_getitem_elem|by eapply IH].
  - by eapply IH.
Qed.

Lemma find_similar_bullets_inside (text : string) (w : World) (res : list Bullet) :
  (_find_similar_bullets text w).2 = Ret res ->
  (length res <= 3)%nat /\
  forall b, b ∈ res -> b ∈ bullets (pm w) /\ (harmful b <= helpful b)%Z.
Proof.
  unfold _find_similar_bullets, bind at 1, get_pm.
  destruct (bullets (pm w)) as [|b0 bs] eqn:Hbs.
  { intros [= <-]. split; [simpl; lia|]. intros b Hb. by apply elem_of_nil in Hb. }
  assert (Hne : bullets (pm w) <> []) by (by rewrite Hbs).
  unfold bind. rewrite (retrieve_relevant_run text 5 w Hne).
  destruct (collect_relevant _ _) as [relevant|e] eqn:Hrun; [|done].
  intros [= <-]. split; [rewrite length_take; lia|].
  intros b Hb. apply (subseteq_take 3) in Hb. apply (subseteq_take 5) in Hb.
  rewrite <- Hbs. split.
  - by eapply collect_relevant_inside.
  - destruct (collect_relevant_filtered _ _ _ Hrun) as [Hkeep _]. by apply Hkeep.
Qed.

(** The candidates of the Curator's similarity search: at most three, all
    of them bullets of the store with [helpful >= harmful]; the search never
    changes the store, and on a store without bullets it returns the empty
    list without asking for an embedding. *)
Theorem find_similar_bullets_candidates (text : string) (w : World) :
  pm (_find_similar_bullets text w).1 = pm w /\
  (forall res, (_find_similar_bullets text w).2 = Ret res ->
     (length res <= 3)%nat /\
     forall b, b ∈ res -> b ∈ bullets (pm w) /\ (harmful b <= helpful b)%Z) /\
  (bullets (pm w) = [] -> _find_similar_bullets text w = (w, Ret [])).
Proof.
  split; [apply find_similar_bullets_pm|]. split.
  - intros res. apply find_similar_bullets_inside.
  - intros Hempty. unfold _find_similar_bullets, bind, get_pm. by rewrite Hempty.
Qed.

(** An insight whose confidence is not above 0.5 (a NaN included) gives a
    Delta without operations and [total_operations = 0]; the store is not
    searched and not changed, only the clock is read for the timestamp. *)
Lemma process_insights_low_confidence (insight : ReflectionInsight) (fid : string)
  (w : World) :
  PrimFloat.ltb 0.5 (confidence insight) = false ->
  process_insights insight fid w =
  (mkWorld (pm w) (trace w ++ [Now]),
   Ret (mkDelta [] (isoformat (length (trace w))) fid 0)).
Proof. intros Hlow. unfold process_insights. rewrite Hlow. reflexivity. Qed.

(** What [process_insights] can do in any state. *)
Lemma process_insights_cases (insight : ReflectionInsight) (fid : string) (w : World) :
  pm (process_insights insight fid w).1 = pm w /\
  forall delta, (process_insights insight fid w).2 = Ret delta ->
    (length (operations delta) <= 1)%nat /\
    total_operations delta = length (operations delta) /\
    source_feedback_id delta = fid /\
    Forall (fun op =>
              (operation op = "ADD" /\ bullet_id op = None /\ is_Some (op_content op) /\
               exists s, op_section op = Some s /\ s ∈ curator_sections) \/
              (operation op = "UPDATE" /\
               exists b, b ∈ bullets (pm w) /\ bullet_id op = Some (id b)))
           (operations delta).
Proof.
  unfold process_insights.
  destruct (PrimFloat.ltb 0.5 (confidence insight)).
  2:{ simpl. split; [done|]. intros delta [= <-]. simpl.
      split; [lia|]. split; [done|]. split; [done|]. apply Forall_nil_2. }
  rewrite bind_assoc.
  pose proof (find_similar_bullets_pm (key_insight insight) w) as Hpm.
  pose proof (find_similar_bullets_inside (key_insight insight) w) as Hin.
  destruct (_find_similar_bullets (key_insight insight) w) as [w1 [sim|e]] eqn:Hfind;
    simpl in Hpm, Hin.
  2:{ rewrite (bind_Raise _ _ _ _ _ Hfind). simpl. split; [done|]. intros delta; done. }
  rewrite (bind_Ret _ _ _ _ _ Hfind).
  destruct (Hin sim eq_refl) as [_ Hsim].
  destruct sim as [|best rest]; simpl; (split; [done|]); intros delta [= <-]; simpl;
    (split; [lia|]); (split; [done|]); (split; [done|]); apply Forall_singleton.
  - left. split; [done|]. split; [done|]. split; [by eexists|].
    exists (Curator._determine_section insight). split; [done|].
    apply elem_of_app. left. apply determine_section_in_vocabulary.
  - right. split; [done|]. exists best. split; [|done]. apply Hsim. left.
Qed.

(** [_run_curator] never raises and never changes the store, whatever the
    insight (or its absence) and the state.  The Delta it returns has at
    most one operation, [total_operations] equal to the number of
    operations and the feedback id it was given; an ADD has content, no
    target and one of ten fixed section names, an UPDATE targets the id of
    a bullet that is in the store. *)
Theorem run_curator_delta_shape (insight : option ReflectionInsight) (fid : string)
  (w : World) :
  exists w' delta,
    _run_curator insight fid w = (w', Ret delta) /\
    pm w' = pm w /\
    (length (operations delta) <= 1)%nat /\
    total_operations delta = length (operations delta) /\
    source_feedback_id delta = fid /\
    Forall (fun op =>
              (operation op = "ADD" /\ bullet_id op = None /\ is_Some (op_content op) /\
               exists s, op_section op = Some s /\ s ∈ curator_sections) \/
              (operation op = "UPDATE" /\
               exists b, b ∈ bullets (pm w) /\ bullet_id op = Some (id b)))
           (operations delta).
Proof.
  destruct insight as [insight|]; simpl.
  2:{ rewrite mk_delta_run. eexists _, _. split; [reflexivity|]. simpl.
      split; [done|]. split; [lia|]. split; [done|]. split; [done|]. apply Forall_nil_2. }
  unfold try_except.
  destruct (select_path insight).
  - unfold process_positive_feedback. rewrite mk_delta_run.
    eexists _, _. split; [reflexivity|]. simpl.
    destruct (PrimFloat.ltb 0.5 (confidence insight)); simpl;
      (split; [done|]); (split; [lia|]); (split; [done|]); (split; [done|]);
      [apply Forall_singleton|apply Forall_nil_2].
    left. split; [done|]. split; [done|]. split; [by eexists|].
    eexists. split; [reflexivity|]. apply (bool_decide_unpack _). vm_compute. exact I.
  - unfold process_negative_feedback. rewrite mk_delta_run.
    eexists _, _. split; [reflexivity|]. simpl.
    destruct (PrimFloat.ltb 0.6 (confidence insight)); simpl;
      (split; [done|]); (split; [lia|]); (split; [done|]); (split; [done|]);
      [apply Forall_singleton|apply Forall_nil_2].
    left. split; [done|]. split; [done|]. split; [by eexists|].
    eexists. split; [reflexivity|]. apply (bool_decide_unpack _). vm_compute. exact I.
  - destruct (process_insights_cases insight fid w) as [Hpm Hshape].
    destruct (process_insights insight fid w) as [w1 [delta|e]]; simpl in Hpm, Hshape.
    + exists w1, delta. split; [reflexivity|]. split; [done|]. by apply Hshape.
    + rewrite mk_delta_run. eexists _, _. split; [reflexivity|]. simpl.
      split; [done|]. split; [lia|]. split; [done|]. split; [done|]. apply Forall_nil_2.
Qed.

End DeltaComputation.

(** ** Adding, counting and looking up *)

Section AddCountLookup.
Context `{Env}.

Lemma eqb_ADD (op : DeltaOperation) :
  operation op = "ADD" -> String.eqb (operation op) "ADD" = true.
Proof. intros ->. reflexivity. Qed.

(** Delta Merge of a single ADD with content appends exactly one bullet,
    with that content, the operation's section ("General" when the section
    is missing or empty) and both counters at zero: the increments written
    in an ADD operation are not applied.  This holds whether or not the
    save at the end of [add_bullet] fails.  An ADD without content makes
    the merge return [False] and leaves the store as it was. *)
Theorem merge_delta_add (delta : DeltaUpdate) (op : DeltaOperation) (w : World) :
  operations delta = [op] -> operation op = "ADD" ->
  (forall c, op_content op = Some c ->
     exists b v,
       bullets (pm (merge_delta delta w).1) = bullets (pm w) ++ [b] /\
       index (pm (merge_delta delta w).1) = index (pm w) ++ [v] /\
       content b = c /\
       section b = match op_section op with
                   | Some s => if PyStr.truthy s then s else "General"
                   | None => "General"
                   end /\
       helpful b = 0%Z /\ harmful b = 0%Z) /\
  (op_content op = None ->
     (merge_delta delta w).2 = Ret false /\ pm (merge_delta delta w).1 = pm w).
Proof.
  intros Hops Hadd.
  assert (Hpm : forall c,
    op_content op = c ->
    pm (merge_delta delta w).1 =
    pm (add_bullet c (match op_section op with
                      | Some s => if PyStr.truthy s then s else "General"
                      | None => "General"
                      end) w).1 /\
    (c = None -> (merge_delta delta w).2 = Ret false)).
  { intros c Hc. rewrite merge_delta_run, Hops. cbn [apply_operations].
    unfold apply_operation. rewrite (eqb_ADD op Hadd), Hc. unfold bind.
    pose proof (add_bullet_none (match op_section op with
                      | Some s => if PyStr.truthy s then s else "General"
                      | None => "General"
                      end) w) as [_ [e He]].
    destruct (add_bullet c _ w) as [w1 [r|e']] eqn:Hrun; simpl.
    - split; [done|]. intros ->. rewrite Hrun in He. simpl in He. congruence.
    - done. }
  split.
  - intros c Hc. destruct (Hpm (Some c) Hc) as [-> _].
    destruct (add_bullet_pm c (match op_section op with
                      | Some s => if PyStr.truthy s then s else "General"
                      | None => "General"
                      end) w) as (b & v & -> & _ & Hcontent & Hsection & Hh & Hk & _).
    exists b, v. simpl. done.
  - intros Hc. destruct (Hpm None Hc) as [-> Hret].
    split; [by apply Hret|]. apply add_bullet_none.
Qed.

Lemma bullet_text_counted (h : bool) (ts : string) (b : Bullet) :
  bullet_text (counted h ts b) = bullet_text b.
Proof. by destruct h. Qed.

Lemma same_text_refl (p : PlaybookManager) : same_text p p.
Proof. by repeat split. Qed.


Lemma same_text_replace (p : PlaybookManager) (i : nat) (b b' : Bullet) :
  bullets p !! i = Some b -> bullet_text b' = bullet_text b ->
  same_text p (mkPM (<[i := b']> (bullets p)) (index p) (bullet_id_to_index p)).
Proof.
  intros Hb Htext. split; [|done]. simpl.
  rewrite list_fmap_insert, Htext. apply list_insert_id.
  by rewrite list_lookup_fmap, Hb.
Qed.

Lemma same_text_update_counters (bid : string) (h : bool) (w : World) :
  same_text (pm w) (pm (update_counters bid h w).1).
Proof.
  destruct (bullet_id_to_index (pm w) !! bid) as [i|] eqn:Hmap.
  - destruct (bullets (pm w) !! i) as [b|] eqn:Hb.
    + rewrite (update_counters_known bid h w i b Hmap Hb). simpl.
      apply (same_text_replace _ _ b); [done|apply bullet_text_counted].
    + rewrite (update_counters_dangling bid h w i Hmap Hb). apply same_text_refl.
  - rewrite (update_counters_unknown bid h w Hmap). apply same_text_refl.
Qed.

(** [update_counters], in any state and whether it returns or raises,
    changes no bullet's id, content, section or creation time, nor the
    index, the map or the number of bullets, and it touches no position
    other than the one the map gives for the id. *)
Theorem update_counters_frame (bid : string) (h : bool) (w : World) :
  same_text (pm w) (pm (update_counters bid h w).1) /\
  length (bullets (pm (update_counters bid h w).1)) = length (bullets (pm w)) /\
  forall j b, bullets (pm w) !! j = Some b ->
    bullet_id_to_index (pm w) !! bid <> Some j ->
    bullets (pm (update_counters bid h w).1) !! j = Some b.
Proof.
  split; [apply same_text_update_counters|].
  destruct (bullet_id_to_index (pm w) !! bid) as [i|] eqn:Hmap.
  - destruct (bullets (pm w) !! i) as [b|] eqn:Hb.
    + rewrite (update_counters_known bid h w i b Hmap Hb). simpl.
      split; [by rewrite length_insert|].
      intros j bj Hj Hne. rewrite list_lookup_insert_ne; [done|]. congruence.
    + rewrite (update_counters_dangling bid h w i Hmap Hb). done.
  - rewrite (update_counters_unknown bid h w Hmap). done.
Qed.

(** Calling [update_counters(id, helpful)] [n] times on a store in lockstep
    with a working disk adds exactly [n] to the counter chosen by [helpful]
    of the bullet with that id, and leaves its other counter and its
    content as they were. *)
Theorem update_counters_n_times (n : nat) (bid : string) (h : bool) (w : World)
  (i : nat) (b : Bullet) :
  lockstep (pm w) ->
  (forall t, write_fails t = false) ->
  bullet_id_to_index (pm w) !! bid = Some i ->
  bullets (pm w) !! i = Some b ->
  exists w' b',
    repeat_call n (update_counters bid h) w = (w', Ret tt) /\
    lockstep (pm w') /\
    bullets (pm w') !! i = Some b' /\
    helpful b' = (helpful b + if h then Z.of_nat n else 0)%Z /\
    harmful b' = (harmful b + if h then 0 else Z.of_nat n)%Z /\
    content b' = content b.
Proof.
  intros Hlock Hdisk Hmap Hb. revert w b Hlock Hmap Hb.
  induction n as [|n IH]; intros w b Hlock Hmap Hb.
  { exists w, b. split; [reflexivity|]. split; [done|]. split; [done|].
    destruct h; simpl; repeat split; lia. }
  cbn [repeat_call].
  pose proof (update_counters_known bid h w i b Hmap Hb) as Hrun.
  rewrite Hdisk in Hrun. rewrite (bind_Ret _ _ _ _ _ Hrun).
  pose proof (lookup_lt_Some _ _ _ Hb) as Hlt.
  destruct (IH (mkWorld (mkPM (<[i := counted h (isoformat (S (length (trace w)))) b]>
                                (bullets (pm w))) (index (pm w))
                              (bullet_id_to_index (pm w)))
                        (trace w ++ [CallUpdateCounters bid h; Now; SavePlaybook]))
               (counted h (isoformat (S (length (trace w)))) b))
    as (w' & b' & Hrest & Hlock' & Hb' & Hh & Hk & Hc).
  - simpl. apply (lockstep_replace _ _ b); [done|done|by destruct h].
  - exact Hmap.
  - simpl. by rewrite list_lookup_insert_eq.
  - exists w', b'. split; [exact Hrest|]. split; [done|]. split; [done|].
    rewrite Hh, Hk, Hc. destruct h; simpl; repeat split; lia.
Qed.

(** What [add_bullet] returns when it returns. *)
Lemma add_bullet_returns (c s : string) (w : World) (bid : string) :
  (add_bullet (Some c) s w).2 = Ret bid -> bid = drawn_id (S (length (trace w))).
Proof.
  unfold add_bullet, bind, emit, now_isoformat, get_pm, set_bullets,
    set_bullet_id_to_index, set_index, _get_embedding, save_playbook, put_pm, ret.
  simpl. unfold bind, emit, ret, raise. simpl.
  destruct (PyStr.truthy _); simpl; destruct (write_fails _); simpl;
    rewrite ?length_app; simpl length; rewrite ?Nat.add_1_r; intros Hret;
    try discriminate; injection Hret as <-; reflexivity.
Qed.

(** Insert then look up: right after [add_bullet], whether or not its save
    failed, [get_bullet] on the identifier it built finds the new bullet,
    with the content and section given and both counters at zero; this is
    the identifier [add_bullet] returns when it returns. *)
Theorem get_bullet_after_add (c s : string) (w : World) :
  (exists b,
     get_bullet (drawn_id (S (length (trace w)))) (add_bullet (Some c) s w).1 =
       ((add_bullet (Some c) s w).1, Ret (Some b)) /\
     content b = c /\ section b = s /\ helpful b = 0%Z /\ harmful b = 0%Z) /\
  (forall bid, (add_bullet (Some c) s w).2 = Ret bid ->
               bid = drawn_id (S (length (trace w)))).
Proof.
  split; [|apply add_bullet_returns].
  destruct (add_bullet_pm c s w) as (b & v & Hpm & Hid & Hc & Hs & Hh & Hk & _).
  exists b. split; [|done].
  unfold get_bullet, bind at 1, get_pm. rewrite Hpm. cbn [bullet_id_to_index].
  rewrite <- Hid, lookup_insert_eq.
  assert (Hat : bullet_at (length (bullets (pm w))) (add_bullet (Some c) s w).1 =
                ((add_bullet (Some c) s w).1, Ret b)).
  { apply bullet_at_Some. rewrite Hpm. simpl.
    rewrite lookup_app_r by lia. by rewrite Nat.sub_diag. }
  by rewrite (bind_Ret _ _ _ _ _ Hat).
Qed.

(** On a store in lockstep [get_bullet] never raises, reads without
    changing anything, and finds a bullet exactly when the store holds a
    bullet with that id, which is then the one it returns; an unknown id
    gives [None]. *)
Theorem get_bullet_lockstep (bid : string) (w : World) :
  lockstep (pm w) ->
  exists found,
    get_bullet bid w = (w, Ret found) /\
    forall b, found = Some b <-> (b ∈ bullets (pm w) /\ id b = bid).
Proof.
  intros Hlock. unfold get_bullet, bind at 1, get_pm.
  destruct (bullet_id_to_index (pm w) !! bid) as [i|] eqn:Hmap.
  - destruct (lockstep_dom _ Hlock _ _ Hmap) as (b0 & Hb0 & Hid0).
    rewrite (bind_Ret _ _ _ _ _ (bullet_at_Some _ _ _ Hb0)).
    exists (Some b0). split; [reflexivity|]. intros b. split.
    + intros [= <-]. split; [by eapply list_elem_of_lookup_2|done].
    + intros [Hb Hid]. apply list_elem_of_lookup in Hb as [j Hj].
      pose proof (lockstep_pos _ Hlock _ _ Hj) as Hp. rewrite Hid, Hmap in Hp.
      injection Hp as ->. congruence.
  - exists None. split; [reflexivity|]. intros b. split; [done|].
    intros [Hb Hid]. apply list_elem_of_lookup in Hb as [j Hj].
    pose proof (lockstep_pos _ Hlock _ _ Hj) as Hp. rewrite Hid, Hmap in Hp. done.
Qed.

End AddCountLookup.

(** ** What deduplication removes and what it keeps *)

Section DedupSurvivors.
Context `{Env}.

Lemma drop_removed_length (k : nat) (bs : list Bullet) (removed : gset nat) :
  Z.of_nat (length (drop_removed k bs removed)) =
  sum_upto (fun j => if decide ((k + j)%nat ∈ removed) then 0%Z else 1%Z) (length bs).
Proof.
  revert k. induction bs as [|b bs IH]; intros k; [reflexivity|].
  cbn [drop_removed length]. rewrite sum_upto_shift, Nat.add_0_r.
  rewrite (sum_upto_ext
             (fun x => if decide ((k + S x)%nat ∈ removed) then 0%Z else 1%Z)
             (fun x => if decide ((S k + x)%nat ∈ removed) then 0%Z else 1%Z)).
  2:{ intros x _. by replace (k + S x)%nat with (S k + x)%nat by lia. }
  rewrite <- IH. destruct (decide (k ∈ removed)); simpl length; lia.
Qed.

Lemma drop_removed_alter (f : Bullet -> Bullet) (i : nat) (bs : list Bullet)
  (removed : gset nat) :
  length (drop_removed 0 (alter f i bs) removed) = length (drop_removed 0 bs removed).
Proof.
  apply Nat2Z.inj. by rewrite !drop_removed_length, length_alter.
Qed.

(** Marking one more position drops exactly one more bullet. *)
Lemma drop_removed_mark (bs : list Bullet) (removed : gset nat) (loser : nat) :
  (loser < length bs)%nat -> loser ∉ removed ->
  (length (drop_removed 0 bs ({[loser]} ∪ removed)) + 1)%nat =
  length (drop_removed 0 bs removed).
Proof.
  intros Hlt Hl. apply Nat2Z.inj. rewrite Nat2Z.inj_add, !drop_removed_length.
  rewrite (sum_upto_point _ _ loser Hlt).
  rewrite (sum_upto_point
             (fun j => if decide ((0 + j)%nat ∈ removed) then 0%Z else 1%Z) _ loser Hlt).
  rewrite (sum_upto_ext
             (fun x => if decide (x = loser) then 0%Z
                       else if decide ((0 + x)%nat ∈ {[loser]} ∪ removed) then 0%Z
                            else 1%Z)
             (fun x => if decide (x = loser) then 0%Z
                       else if decide ((0 + x)%nat ∈ removed) then 0%Z else 1%Z)).
  2:{ intros x _. destruct (decide (x = loser)); [reflexivity|]. simpl.
      destruct (decide (x ∈ removed)) as [Hin|Hnin].
      - rewrite decide_True; [reflexivity|]. apply elem_of_union. by right.
      - rewrite decide_False; [reflexivity|].
        rewrite elem_of_union, elem_of_singleton. intros [?|?]; done. }
  simpl. rewrite decide_True by (apply elem_of_union; left; by apply elem_of_singleton).
  rewrite decide_False by done. lia.
Qed.

Lemma drop_removed_elem (k j : nat) (bs : list Bullet) (removed : gset nat) (b : Bullet) :
  bs !! j = Some b -> (k + j)%nat ∉ removed -> b ∈ drop_removed k bs removed.
Proof.
  revert k j. induction bs as [|b0 bs IH]; intros k j Hj Hlive; [done|].
  cbn [drop_removed]. destruct j as [|j]; simpl in Hj.
  - injection Hj as ->. rewrite Nat.add_0_r in Hlive.
    rewrite decide_False by done. left.
  - assert (b ∈ drop_removed (S k) bs removed).
    { apply (IH (S k) j); [done|]. by replace (S k + j)%nat with (k + S j)%nat by lia. }
    destruct (decide (k ∈ removed)); [done|by right].
Qed.

Lemma bullet_text_absorb (loser : Bullet) (i : nat) (bs : list Bullet) :
  bullet_text <$> alter (absorb loser) i bs = bullet_text <$> bs.
Proof.
  apply list_eq. intros j. rewrite !list_lookup_fmap.
  destruct (decide (j = i)) as [->|Hne].
  - rewrite list_lookup_alter_eq. by destruct (bs !! i).
  - by rewrite list_lookup_alter_ne.
Qed.

(** The outcome and the bullets of the tail of [deduplicate]. *)
Lemma deduplicate_tail_run (removed : gset nat) (w : World) :
  bullets (pm ((p <- get_pm ;;
                set_bullets (drop_removed 0 (bullets p) removed) ;;
                _rebuild_index ;; save_playbook ;; ret (size removed)) w).1) =
    drop_removed 0 (bullets (pm w)) removed /\
  (forall k, ((p <- get_pm ;;
               set_bullets (drop_removed 0 (bullets p) removed) ;;
               _rebuild_index ;; save_playbook ;; ret (size removed)) w).2 = Ret k ->
             k = size removed) /\
  (forall e, ((p <- get_pm ;;
               set_bullets (drop_removed 0 (bullets p) removed) ;;
               _rebuild_index ;; save_playbook ;; ret (size removed)) w).2 = Raise e ->
             e = OSError).
Proof.
  split.
  { rewrite deduplicate_tail_pm, rebuild_index_run.
    destruct (rebuild_loop_spec
                (drop_removed 0 (bullets (pm w)) removed) 0
                (mkWorld (mkPM (drop_removed 0 (bullets (pm w)) removed) [] ∅) (trace w)))
      as (_ & Hbs & _).
    exact Hbs. }
  assert (Hget : get_pm w = (w, Ret (pm w))) by reflexivity.
  rewrite (bind_Ret _ _ _ _ _ Hget).
  set (w2 := mkWorld (mkPM (drop_removed 0 (bullets (pm w)) removed) (index (pm w))
                           (bullet_id_to_index (pm w))) (trace w)).
  assert (Hset : set_bullets (drop_removed 0 (bullets (pm w)) removed) w = (w2, Ret tt))
    by reflexivity.
  rewrite (bind_Ret _ _ _ _ _ Hset).
  pose proof (rebuild_loop_spec (bullets (pm w2)) 0
                (mkWorld (mkPM (bullets (pm w2)) [] ∅) (trace w2))) as (Hret & _).
  rewrite <- rebuild_index_run in Hret.
  unfold bind.
  destruct (_rebuild_index w2) as [w3 [[]|e0]]; simpl in Hret; [|done].
  unfold save_playbook, bind, emit. simpl.
  destruct (write_fails (length (trace w3))); simpl; split; congruence.
Qed.

(** The facts the loops of [deduplicate] keep: the number of bullets, their
    text, the sign of their counters, how many are marked and that one is
    not. *)
Lemma deduplicate_loops (thr : float) (w : World) :
  (2 <= length (bullets (pm w)))%nat ->
  exists w1 removed,
    dedup_outer thr (length (bullets (pm w))) (seq 0 (length (bullets (pm w)))) ∅ w
      = (w1, Ret removed) /\
    length (bullets (pm w1)) = length (bullets (pm w)) /\
    bullet_text <$> bullets (pm w1) = bullet_text <$> bullets (pm w) /\
    (counters_nonneg (pm w) -> counters_nonneg (pm w1)) /\
    (size removed + length (drop_removed 0 (bullets (pm w1)) removed))%nat =
      length (bullets (pm w)) /\
    exists i, (i < length (bullets (pm w)))%nat /\ i ∉ removed.
Proof.
  intros Hn.
  pose (I := fun (removed : gset nat) (w' : World) =>
               length (bullets (pm w')) = length (bullets (pm w)) /\
               bullet_text <$> bullets (pm w') = bullet_text <$> bullets (pm w) /\
               (counters_nonneg (pm w) -> counters_nonneg (pm w')) /\
               (size removed + length (drop_removed 0 (bullets (pm w')) removed))%nat =
                 length (bullets (pm w)) /\
               exists i, (i < length (bullets (pm w)))%nat /\ i ∉ removed).
  assert (Hmerge : forall removed w' winner loser bw bl,
    I removed w' -> winner ∉ removed -> loser ∉ removed -> winner <> loser ->
    bullets (pm w') !! winner = Some bw -> bullets (pm w') !! loser = Some bl ->
    I ({[loser]} ∪ removed)
      (mkWorld (mkPM (alter (absorb bl) winner (bullets (pm w'))) (index (pm w'))
                     (bullet_id_to_index (pm w'))) (trace w'))).
  { intros removed w' winner loser bw bl (Hlen & Htext & Hnn & Hcount & _) Hw Hl Hne
      Hbw Hbl.
    unfold I. cbn [pm bullets].
    pose proof (lookup_lt_Some _ _ _ Hbw) as Hwn.
    pose proof (lookup_lt_Some _ _ _ Hbl) as Hln.
    split; [by rewrite length_alter|].
    split; [by rewrite bullet_text_absorb|].
    split.
    { intros Hnn0 b Hb. specialize (Hnn Hnn0). cbn [pm bullets] in Hb.
      apply list_elem_of_lookup in Hb as [j Hj].
      destruct (decide (j = winner)) as [->|Hj'].
      - rewrite list_lookup_alter_eq, Hbw in Hj. injection Hj as <-.
        destruct (Hnn bw) as [? ?]; [by eapply list_elem_of_lookup_2|].
        destruct (Hnn bl) as [? ?]; [by eapply list_elem_of_lookup_2|].
        simpl. lia.
      - rewrite list_lookup_alter_ne in Hj by done.
        apply Hnn. by eapply list_elem_of_lookup_2. }
    split.
    { rewrite drop_removed_alter.
      pose proof (drop_removed_mark (bullets (pm w')) removed loser Hln Hl) as Hmark.
      rewrite size_union by (apply disjoint_singleton_l; done).
      rewrite size_singleton. lia. }
    exists winner. split; [lia|].
    rewrite elem_of_union, elem_of_singleton. intros [?|?]; done. }
  destruct (dedup_outer_inv (length (bullets (pm w))) I
              ltac:(by intros removed w' [Hlen _])
              ltac:(by intros removed w' e)
              Hmerge thr (seq 0 (length (bullets (pm w)))) ∅ w)
    as (w1 & removed1 & Hrun & Hinv).
  - intros i Hi. apply elem_of_seq in Hi. lia.
  - split; [done|]. split; [done|]. split; [done|]. split.
    + rewrite size_empty, drop_removed_empty. lia.
    + exists 0%nat. split; [lia|apply not_elem_of_empty].
  - exists w1, removed1. split; [exact Hrun|]. exact Hinv.
Qed.

(** [deduplicate] returns the number of bullets it dropped; the number
    of bullets never grows; it never empties a store that had bullets; and
    with fewer than two bullets it returns 0 and does nothing at all. *)
Theorem deduplicate_count (thr : float) (w : World) :
  (forall k, (deduplicate thr w).2 = Ret k ->
     (length (bullets (pm (deduplicate thr w).1)) + k)%nat = length (bullets (pm w))) /\
  (length (bullets (pm (deduplicate thr w).1)) <= length (bullets (pm w)))%nat /\
  (bullets (pm w) <> [] -> bullets (pm (deduplicate thr w).1) <> []) /\
  ((length (bullets (pm w)) < 2)%nat -> deduplicate thr w = (w, Ret 0%nat)).
Proof.
  rewrite deduplicate_run.
  destruct (length (bullets (pm w)) <? 2)%nat eqn:Hsmall.
  { simpl. split; [intros k [= <-]; lia|]. split; [lia|]. done. }
  apply Nat.ltb_ge in Hsmall.
  destruct (deduplicate_loops thr w Hsmall)
    as (w1 & removed & Hrun & Hlen & _ & _ & Hcount & i & Hi & Hlive).
  rewrite (bind_Ret _ _ _ _ _ Hrun).
  destruct (decide (removed = ∅)) as [->|Hne].
  - simpl. split; [intros k [= <-]; lia|]. split; [lia|]. split.
    + intros _ Hnil. rewrite Hnil in Hlen. simpl in Hlen. lia.
    + lia.
  - destruct (deduplicate_tail_run removed w1) as (Hbs & Hret & _).
    rewrite Hbs. split; [|split; [|split]].
    + intros k Hk. rewrite (Hret k Hk). lia.
    + lia.
    + intros _ Hnil.
      destruct (lookup_lt_is_Some_2 (bullets (pm w1)) i ltac:(lia)) as [b Hb].
      pose proof (drop_removed_elem 0 i _ removed b Hb Hlive) as Hin.
      rewrite Hnil in Hin. by apply elem_of_nil in Hin.
    + lia.
Qed.

(** [deduplicate] rewrites no text and invents no bullet: the ids,
    contents, sections and creation times of the bullets that remain are,
    in the same order, a part of those of the bullets there were. *)
Theorem deduplicate_survivors (thr : float) (w : World) :
  bullet_text <$> bullets (pm (deduplicate thr w).1)
    `sublist_of` bullet_text <$> bullets (pm w).
Proof.
  rewrite deduplicate_run.
  destruct (length (bullets (pm w)) <? 2)%nat eqn:Hsmall; [done|].
  apply Nat.ltb_ge in Hsmall.
  destruct (deduplicate_loops thr w Hsmall) as (w1 & removed & Hrun & _ & Htext & _).
  rewrite (bind_Ret _ _ _ _ _ Hrun).
  destruct (decide (removed = ∅)) as [->|Hne].
  - simpl. by rewrite Htext.
  - destruct (deduplicate_tail_run removed w1) as (Hbs & _).
    rewrite Hbs, <- Htext.
    apply (fmap_sublist bullet_text _ _ (drop_removed_sublist 0 (bullets (pm w1)) removed)).
Qed.

End DedupSurvivors.

(** ** Rebuilding the index and loading the playbook *)

Section Recovery.
Context `{Env}.

Lemma rebuild_loop_trace (bs : list Bullet) (i : nat) (w : World) :
  trace (rebuild_loop i bs w).1 =
  trace w ++ ((fun b => EmbedQuery (content b)) <$> bs).
Proof.
  revert i w. induction bs as [|b rest IH]; intros i w.
  { simpl. by rewrite app_nil_r. }
  rewrite rebuild_loop_cons, IH. cbn [trace]. by rewrite <- app_assoc.
Qed.

(** From bullets with distinct ids, an empty index and an empty map, the
    rebuilding loop ends in lockstep. *)
Lemma rebuild_loop_lockstep (bs : list Bullet) (tr : list event) :
  NoDup (id <$> bs) ->
  lockstep (pm (rebuild_loop 0 bs (mkWorld (mkPM bs [] ∅) tr)).1).
Proof.
  intros Hnodup.
  destruct (rebuild_loop_spec bs 0 (mkWorld (mkPM bs [] ∅) tr))
    as (_ & Hbs & Hix & Hother & Hmine & _).
  cbn [pm bullets index bullet_id_to_index] in Hbs, Hix, Hother, Hmine.
  split.
  - by rewrite Hbs, Hix.
  - intros i b Hb. rewrite Hbs in Hb. by rewrite (Hmine Hnodup i b Hb).
  - intros k i Hk. rewrite Hbs.
    destruct (decide (k ∈ id <$> bs)) as [Hin|Hnin].
    + apply list_elem_of_fmap in Hin as (b & -> & Hb).
      apply list_elem_of_lookup in Hb as [j Hj].
      rewrite (Hmine Hnodup j b Hj) in Hk. exists b. split; [|done].
      assert (i = j) as -> by (simpl in Hk; congruence). done.
    + rewrite Hother in Hk by done. done.
Qed.

(** [_rebuild_index] never raises and leaves the bullets as they are; it
    asks for one embedding per bullet, in order, and ends with one vector
    per bullet; when the ids of the bullets are distinct it restores
    lockstep, whatever the index and the map held before. *)
Theorem rebuild_index_restores_lockstep (w : World) :
  (_rebuild_index w).2 = Ret tt /\
  bullets (pm (_rebuild_index w).1) = bullets (pm w) /\
  length (index (pm (_rebuild_index w).1)) = length (bullets (pm w)) /\
  trace (_rebuild_index w).1 =
    trace w ++ ((fun b => EmbedQuery (content b)) <$> bullets (pm w)) /\
  (NoDup (id <$> bullets (pm w)) -> lockstep (pm (_rebuild_index w).1)).
Proof.
  rewrite rebuild_index_run.
  destruct (rebuild_loop_spec (bullets (pm w)) 0
              (mkWorld (mkPM (bullets (pm w)) [] ∅) (trace w)))
    as (Hret & Hbs & Hix & _).
  cbn [pm bullets index] in Hbs, Hix.
  split; [exact Hret|]. split; [exact Hbs|]. split; [exact Hix|].
  split; [by rewrite rebuild_loop_trace|apply rebuild_loop_lockstep].
Qed.

Lemma post_init_run (b : Bullet) (w : World) :
  exists w' b',
    Bullet_post_init b w = (w', Ret b') /\
    pm w' = pm w /\ stored_fields b' = stored_fields b.
Proof.
  unfold Bullet_post_init, bind, now_isoformat, emit, ret.
  destruct (PyStr.truthy (created_at b)); simpl; eexists _, _; done.
Qed.

(** The loading loop: it never touches the index or the map; it raises as
    soon as an entry does not build; when all entries build, it appends
    them with their stored fields. *)
Lemma load_bullets_spec (entries : list (outcome Bullet)) (w : World) :
  index (pm (load_bullets entries w).1) = index (pm w) /\
  bullet_id_to_index (pm (load_bullets entries w).1) = bullet_id_to_index (pm w) /\
  ((exists e, Raise e ∈ entries) -> exists e, (load_bullets entries w).2 = Raise e) /\
  (forall raws, entries = Ret <$> raws ->
     (load_bullets entries w).2 = Ret tt /\
     exists loaded,
       bullets (pm (load_bullets entries w).1) = bullets (pm w) ++ loaded /\
       stored_fields <$> loaded = stored_fields <$> raws).
Proof.
  revert w. induction entries as [|entry rest IH]; intros w.
  { simpl. split; [done|]. split; [done|]. split.
    - intros [e He]. by apply elem_of_nil in He.
    - intros raws Hraws. symmetry in Hraws. apply fmap_nil_inv in Hraws as ->.
      split; [done|]. exists []. by rewrite app_nil_r. }
  cbn [load_bullets]. destruct entry as [raw|e].
  2:{ simpl. split; [done|]. split; [done|]. split; [by eexists|].
      intros [|raw raws] Hraws; simpl in Hraws; discriminate. }
  assert (Hlift : lift (Ret raw) w = (w, Ret raw)) by reflexivity.
  rewrite (bind_Ret _ _ _ _ _ Hlift).
  destruct (post_init_run raw w) as (w1 & b & Hpost & Hpm1 & Hfields).
  rewrite (bind_Ret _ _ _ _ _ Hpost).
  assert (Hget : get_pm w1 = (w1, Ret (pm w1))) by reflexivity.
  rewrite (bind_Ret _ _ _ _ _ Hget).
  set (w2 := mkWorld (mkPM (bullets (pm w1) ++ [b]) (index (pm w1))
                           (bullet_id_to_index (pm w1))) (trace w1)).
  assert (Hset : set_bullets (bullets (pm w1) ++ [b]) w1 = (w2, Ret tt)) by reflexivity.
  rewrite (bind_Ret _ _ _ _ _ Hset).
  destruct (IH w2) as (Hix & Hmap & Hraise & Hok).
  cbn [w2 pm index bullet_id_to_index bullets] in Hix, Hmap, Hok.
  split; [by rewrite Hix, Hpm1|]. split; [by rewrite Hmap, Hpm1|]. split.
  - intros [e He]. apply elem_of_cons in He as [He|He]; [done|].
    apply Hraise. by exists e.
  - intros [|raw' raws] Hraws; simpl in Hraws; [discriminate|].
    injection Hraws as <- Hrest.
    destruct (Hok raws Hrest) as (Hret & loaded & Hbs & Hloaded).
    split; [exact Hret|]. exists (b :: loaded). split.
    + rewrite Hbs, Hpm1, <- app_assoc. reflexivity.
    + rewrite !fmap_cons, Hfields, Hloaded. reflexivity.
Qed.

Lemma remap_loop_cons (i : nat) (b : Bullet) (rest : list Bullet) (w : World) :
  remap_loop i (b :: rest) w =
  remap_loop (S i) rest
    (mkWorld (mkPM (bullets (pm w)) (index (pm w))
                   (<[id b := i]> (bullet_id_to_index (pm w)))) (trace w)).
Proof. reflexivity. Qed.

Lemma remap_loop_spec (bs : list Bullet) (i : nat) (w : World) :
  (remap_loop i bs w).2 = Ret tt /\
  bullets (pm (remap_loop i bs w).1) = bullets (pm w) /\
  index (pm (remap_loop i bs w).1) = index (pm w) /\
  trace (remap_loop i bs w).1 = trace w /\
  (forall k, k ∉ (id <$> bs) ->
     bullet_id_to_index (pm (remap_loop i bs w).1) !! k = bullet_id_to_index (pm w) !! k) /\
  (NoDup (id <$> bs) -> forall j b, bs !! j = Some b ->
     bullet_id_to_index (pm (remap_loop i bs w).1) !! id b = Some (i + j)%nat).
Proof.
  revert i w. induction bs as [|b rest IH]; intros i w.
  { simpl. split; [done|]. split; [done|]. split; [done|]. split; [done|].
    split; [done|]. intros _ j b Hj. by destruct j. }
  rewrite remap_loop_cons.
  destruct (IH (S i) (mkWorld (mkPM (bullets (pm w)) (index (pm w))
                   (<[id b := i]> (bullet_id_to_index (pm w)))) (trace w)))
    as (Hret & Hbs & Hix & Htr & Hother & Hmine).
  cbn [pm bullets index bullet_id_to_index trace] in Hbs, Hix, Htr, Hother, Hmine.
  split; [exact Hret|]. split; [exact Hbs|]. split; [exact Hix|]. split; [exact Htr|].
  split.
  - intros k Hk. rewrite fmap_cons, not_elem_of_cons in Hk. destruct Hk as [Hkb Hk].
    rewrite Hother by done. by rewrite lookup_insert_ne.
  - intros Hnodup j b' Hj. rewrite fmap_cons in Hnodup.
    apply NoDup_cons in Hnodup as [Hfresh Hnodup].
    destruct j as [|j]; simpl in Hj.
    + assert (b' = b) as -> by congruence.
      rewrite Hother by done. rewrite lookup_insert_eq. f_equal. lia.
    + rewrite (Hmine Hnodup j b' Hj). f_equal. lia.
Qed.

Lemma ids_of_stored_fields (l1 l2 : list Bullet) :
  stored_fields <$> l1 = stored_fields <$> l2 -> id <$> l1 = id <$> l2.
Proof.
  intros Heq.
  assert (Hid : forall l : list Bullet,
            id <$> l = (fun x : string * Z * Z * string * string => x.1.1.1.1)
                         <$> (stored_fields <$> l)).
  { intros l. rewrite <- list_fmap_compose. reflexivity. }
  by rewrite (Hid l1), (Hid l2), Heq.
Qed.

(** The body of [load_playbook] up to the choice about the index, on
    entries that all build and have distinct ids. *)
Lemma load_playbook_remapped (raws : list Bullet) (w : World) :
  NoDup (id <$> raws) ->
  exists w2 loaded,
    (set_bullets [] ;;
     load_bullets (Ret <$> raws) ;;
     set_bullet_id_to_index ∅ ;;
     p <- get_pm ;;
     remap_loop 0 (bullets p)) w = (w2, Ret tt) /\
    bullets (pm w2) = loaded /\
    index (pm w2) = index (pm w) /\
    stored_fields <$> loaded = stored_fields <$> raws /\
    NoDup (id <$> loaded) /\
    positions_agree (pm w2).
Proof.
  intros Hnodup.
  set (w0 := mkWorld (mkPM [] (index (pm w)) (bullet_id_to_index (pm w))) (trace w)).
  assert (Hset : set_bullets [] w = (w0, Ret tt)) by reflexivity.
  rewrite (bind_Ret _ _ _ _ _ Hset).
  destruct (load_bullets_spec (Ret <$> raws) w0) as (Hix & _ & _ & Hok).
  destruct (Hok raws eq_refl) as (Hret & loaded & Hbs & Hfields).
  cbn [w0 pm bullets index] in Hix, Hbs. rewrite app_nil_l in Hbs.
  destruct (load_bullets (Ret <$> raws) w0) as [w1 [[]|e]] eqn:Hload;
    simpl in Hret, Hix, Hbs; [|done].
  rewrite (bind_Ret _ _ _ _ _ Hload).
  set (w1' := mkWorld (mkPM (bullets (pm w1)) (index (pm w1)) ∅) (trace w1)).
  assert (Hclear : set_bullet_id_to_index ∅ w1 = (w1', Ret tt)) by reflexivity.
  rewrite (bind_Ret _ _ _ _ _ Hclear).
  assert (Hget : get_pm w1' = (w1', Ret (pm w1'))) by reflexivity.
  rewrite (bind_Ret _ _ _ _ _ Hget).
  cbn [w1' pm bullets]. fold w1'.
  assert (Hnodup' : NoDup (id <$> loaded)).
  { by rewrite (ids_of_stored_fields loaded raws Hfields). }
  destruct (remap_loop_spec (bullets (pm w1)) 0 w1')
    as (Hret2 & Hbs2 & Hix2 & _ & Hother & Hmine).
  cbn [w1' pm bullets index bullet_id_to_index] in Hbs2, Hix2, Hother, Hmine.
  destruct (remap_loop 0 (bullets (pm w1)) w1') as [w2 [[]|e]];
    simpl in Hret2, Hbs2, Hix2, Hother, Hmine; [|done].
  exists w2, loaded. split; [reflexivity|].
  split; [congruence|]. split; [congruence|]. split; [done|]. split; [done|].
  rewrite Hbs in Hother, Hmine. split.
  - intros i b Hb. rewrite Hbs2, Hbs in Hb. by rewrite (Hmine Hnodup' i b Hb).
  - intros k i Hk. rewrite Hbs2, Hbs.
    destruct (decide (k ∈ id <$> loaded)) as [Hin|Hnin].
    + apply list_elem_of_fmap in Hin as (b & -> & Hb).
      apply list_elem_of_lookup in Hb as [j Hj].
      rewrite (Hmine Hnodup' j b Hj) in Hk. exists b. split; [|done].
      assert (i = j) as -> by (simpl in Hk; congruence). done.
    + rewrite Hother in Hk by done. done.
Qed.

(** [load_playbook] never raises.  Without a metadata file it does
    nothing.  When the metadata cannot be read, or one of its entries does
    not build, the store ends with no bullets and an empty map, the index
    being left as it was. *)
Theorem load_playbook_fail_soft (metadata : option (outcome (list (outcome Bullet))))
  (embeddings : option (outcome (list vec))) (w : World) :
  (load_playbook metadata embeddings w).2 = Ret tt /\
  (metadata = None -> load_playbook metadata embeddings w = (w, Ret tt)) /\
  (forall parsed, metadata = Some parsed ->
     match parsed with
     | Raise _ => True
     | Ret entries => exists e, Raise e ∈ entries
     end ->
     bullets (pm (load_playbook metadata embeddings w).1) = [] /\
     bullet_id_to_index (pm (load_playbook metadata embeddings w).1) = ∅ /\
     index (pm (load_playbook metadata embeddings w).1) = index (pm w)).
Proof.
  destruct metadata as [[entries|e]|]; cbn [load_playbook].
  3:{ split; [done|]. split; [done|]. intros parsed; done. }
  2:{ split; [done|]. split; [done|]. intros parsed _ _. done. }
  unfold try_except.
  assert (Hlift : lift (Ret entries) w = (w, Ret entries)) by reflexivity.
  rewrite (bind_Ret _ _ _ _ _ Hlift).
  set (w0 := mkWorld (mkPM [] (index (pm w)) (bullet_id_to_index (pm w))) (trace w)).
  assert (Hset : set_bullets [] w = (w0, Ret tt)) by reflexivity.
  rewrite (bind_Ret _ _ _ _ _ Hset).
  destruct (load_bullets_spec entries w0) as (Hix & _ & Hraise & _).
  destruct (load_bullets entries w0) as [w1 [[]|e]] eqn:Hload; simpl in Hix, Hraise.
  - rewrite (bind_Ret _ _ _ _ _ Hload).
    set (w1' := mkWorld (mkPM (bullets (pm w1)) (index (pm w1)) ∅) (trace w1)).
    assert (Hclear : set_bullet_id_to_index ∅ w1 = (w1', Ret tt)) by reflexivity.
    rewrite (bind_Ret _ _ _ _ _ Hclear).
    assert (Hget : get_pm w1' = (w1', Ret (pm w1'))) by reflexivity.
    rewrite (bind_Ret _ _ _ _ _ Hget).
    destruct (remap_loop_spec (bullets (pm w1')) 0 w1') as (Hret2 & _).
    destruct (remap_loop 0 (bullets (pm w1')) w1') as [w2 [[]|e]] eqn:Hremap;
      simpl in Hret2; [|done].
    rewrite (bind_Ret _ _ _ _ _ Hremap).
    assert (Hend : (match embeddings with
                    | Some (Ret ix) => set_index ix
                    | Some (Raise _) => _rebuild_index
                    | None => _rebuild_index
                    end w2).2 = Ret tt).
    { destruct embeddings as [[ix|e]|]; [reflexivity| |];
        rewrite rebuild_index_run; apply rebuild_loop_spec. }
    destruct (match embeddings with
              | Some (Ret ix) => set_index ix
              | Some (Raise _) => _rebuild_index
              | None => _rebuild_index
              end w2) as [w3 [[]|e]]; simpl in Hend; [|done].
    split; [done|]. split; [done|].
    intros parsed [= <-] [e He]. destruct (Hraise (ex_intro _ e He)) as [e' He']. done.
  - rewrite (bind_Raise _ _ _ _ _ Hload). simpl.
    split; [done|]. split; [done|]. intros parsed _ _. cbn [w0 pm index] in Hix. done.
Qed.

(** When every entry of the metadata builds and the ids are distinct,
    [load_playbook] ends with the bullets as stored (their ids, counters,
    contents and sections, in order), and with the map and the list in
    agreement.  When the index file is missing or unreadable the index is
    rebuilt and the store is in lockstep; when the index file is read, the
    index is just what was read, unchecked against the bullets. *)
Theorem load_playbook_positions (raws : list Bullet)
  (embeddings : option (outcome (list vec))) (w : World) :
  NoDup (id <$> raws) ->
  stored_fields <$> bullets (pm (load_playbook (Some (Ret (Ret <$> raws)))
                                   embeddings w).1) = stored_fields <$> raws /\
  positions_agree (pm (load_playbook (Some (Ret (Ret <$> raws))) embeddings w).1) /\
  match embeddings with
  | Some (Ret ix) =>
      index (pm (load_playbook (Some (Ret (Ret <$> raws))) embeddings w).1) = ix
  | _ => lockstep (pm (load_playbook (Some (Ret (Ret <$> raws))) embeddings w).1)
  end.
Proof.
  intros Hnodup. cbn [load_playbook]. unfold try_except.
  assert (Hlift : lift (Ret (Ret <$> raws)) w = (w, Ret (Ret <$> raws))) by reflexivity.
  rewrite (bind_Ret _ _ _ _ _ Hlift).
  destruct (load_playbook_remapped raws w Hnodup)
    as (w2 & loaded & Hrun & Hbs & Hix & Hfields & Hnodup' & Hagree).
  assert (Hbody : forall (k : M unit),
    (set_bullets [] ;; load_bullets (Ret <$> raws) ;; set_bullet_id_to_index ∅ ;;
     p <- get_pm ;; remap_loop 0 (bullets p) ;; k) w = k w2).
  { intros k.
    transitivity (((set_bullets [] ;; load_bullets (Ret <$> raws) ;;
                    set_bullet_id_to_index ∅ ;;
                    p <- get_pm ;; remap_loop 0 (bullets p)) ;; k) w).
    - rewrite !bind_assoc. apply bind_ext. intros _ w'.
      rewrite !bind_assoc. apply bind_ext. intros _ w''.
      rewrite !bind_assoc. apply bind_ext. intros _ w3.
      rewrite !bind_assoc. reflexivity.
    - by rewrite (bind_Ret _ _ _ _ _ Hrun). }
  rewrite Hbody.
  destruct embeddings as [[ix|e]|].
  - simpl. rewrite Hbs. split; [done|]. split; [|done].
    destruct Hagree as [Hpos Hdom]. rewrite Hbs in Hpos, Hdom. done.
  - pose proof (rebuild_index_run w2) as Hrb.
    pose proof (rebuild_loop_spec (bullets (pm w2)) 0
                  (mkWorld (mkPM (bullets (pm w2)) [] ∅) (trace w2))) as (Hret & Hbs3 & _).
    pose proof (rebuild_loop_lockstep (bullets (pm w2)) (trace w2)) as Hlock.
    rewrite <- Hrb in Hret, Hbs3, Hlock. rewrite Hbs in Hlock. specialize (Hlock Hnodup').
    destruct (_rebuild_index w2) as [w3 [[]|e']]; simpl in *; [|done].
    cbn [pm bullets] in Hbs3.
    split; [by rewrite Hbs3, Hbs|]. split; [|done].
    split; [apply (lockstep_pos _ Hlock)|apply (lockstep_dom _ Hlock)].
  - pose proof (rebuild_index_run w2) as Hrb.
    pose proof (rebuild_loop_spec (bullets (pm w2)) 0
                  (mkWorld (mkPM (bullets (pm w2)) [] ∅) (trace w2))) as (Hret & Hbs3 & _).
    pose proof (rebuild_loop_lockstep (bullets (pm w2)) (trace w2)) as Hlock.
    rewrite <- Hrb in Hret, Hbs3, Hlock. rewrite Hbs in Hlock. specialize (Hlock Hnodup').
    destruct (_rebuild_index w2) as [w3 [[]|e']]; simpl in *; [|done].
    cbn [pm bullets] in Hbs3.
    split; [by rewrite Hbs3, Hbs|]. split; [|done].
    split; [apply (lockstep_pos _ Hlock)|apply (lockstep_dom _ Hlock)].
Qed.

End Recovery.

(** ** Statistics *)

Section Statistics.
Context `{Env}.






End Statistics.

(** ** Relations kept along a computation *)

Section Along.
Context `{Env}.
Variable R : World -> World -> Prop.
Hypothesis R_refl : forall w, R w w.
Hypothesis R_trans : forall w1 w2 w3, R w1 w2 -> R w2 w3 -> R w1 w3.

Lemma along_ret {A} (a : A) : along R (ret a).
Proof using R_refl. intros w. apply R_refl. Qed.

Lemma along_raise {A} (e : exn) : along R (raise (A:=A) e).
Proof using R_refl. intros w. apply R_refl. Qed.

Lemma along_lift {A} (o : outcome A) : along R (lift o).
Proof using R_refl. intros w. apply R_refl. Qed.

Lemma along_get_pm : along R get_pm.
Proof using R_refl. intros w. apply R_refl. Qed.

Lemma along_bind {A B} (c : M A) (k : A -> M B) :
  along R c -> (forall a, along R (k a)) -> along R (bind c k).
Proof using R_trans.
  intros Hc Hk w. unfold bind. specialize (Hc w).
  destruct (c w) as [w1 [a|e]]; simpl in *; [|done].
  eapply R_trans; [exact Hc|apply Hk].
Qed.

Lemma along_try_except {A} (c : M A) (h : exn -> M A) :
  along R c -> (forall e, along R (h e)) -> along R (try_except c h).
Proof using R_trans.
  intros Hc Hh w. unfold try_except. specialize (Hc w).
  destruct (c w) as [w1 [a|e]]; simpl in *; [done|].
  eapply R_trans; [exact Hc|apply Hh].
Qed.

Lemma along_or_else (a b : M bool) : along R a -> along R b -> along R (or_else a b).
Proof using R_refl R_trans.
  intros Ha Hb. apply along_bind; [done|]. intros [|]; [apply along_ret|done].
Qed.

Lemma along_repeat_call (n : nat) (body : M bool) :
  along R body -> along R (repeat_call n body).
Proof using R_refl R_trans.
  intros Hbody. induction n as [|n IH]; simpl; [apply along_ret|].
  apply along_bind; [done|]. intros _. exact IH.
Qed.

Hypothesis R_emit : forall e, e <> LlmReflection -> along R (emit e).

(** The store's entry points, for a relation that any change of the store
    keeps. *)
Hypothesis R_put : forall p, along R (put_pm p).

Lemma along_set_bullets (bs : list Bullet) : along R (set_bullets bs).
Proof using R_refl R_trans R_put.
  apply along_bind; [apply along_get_pm|]. intros p. apply R_put.
Qed.

Lemma along_set_index (ix : list vec) : along R (set_index ix).
Proof using R_refl R_trans R_put.
  apply along_bind; [apply along_get_pm|]. intros p. apply R_put.
Qed.

Lemma along_set_map (m : gmap string nat) : along R (set_bullet_id_to_index m).
Proof using R_refl R_trans R_put.
  apply along_bind; [apply along_get_pm|]. intros p. apply R_put.
Qed.

Lemma along_get_embedding (text : string) : along R (_get_embedding text).
Proof using R_refl R_trans R_emit.
  apply along_bind; [by apply R_emit|]. intros t. apply along_ret.
Qed.

Lemma along_now : along R now_isoformat.
Proof using R_refl R_trans R_emit.
  apply along_bind; [by apply R_emit|]. intros t. apply along_ret.
Qed.

Lemma along_save : along R save_playbook.
Proof using R_refl R_trans R_emit.
  apply along_bind; [by apply R_emit|]. intros t.
  destruct (write_fails t); [apply along_raise|apply along_ret].
Qed.

Lemma along_bullet_at (i : nat) : along R (bullet_at i).
Proof using R_refl R_trans.
  apply along_bind; [apply along_get_pm|]. intros p.
  destruct (bullets p !! i); [apply along_ret|apply along_raise].
Qed.

Lemma along_mutate_bullet (i : nat) (f : Bullet -> Bullet) : along R (mutate_bullet i f).
Proof using R_refl R_trans R_put.
  apply along_bind; [apply along_get_pm|]. intros p. apply along_set_bullets.
Qed.

Lemma along_add_bullet (c : option string) (s : string) : along R (add_bullet c s).
Proof using R_refl R_trans R_emit R_put.
  apply along_bind; [by apply R_emit|]. intros _.
  apply along_bind; [by apply R_emit|]. intros t.
  apply along_bind; [apply along_now|]. intros created.
  apply along_bind.
  { destruct (PyStr.truthy created); [apply along_ret|apply along_now]. }
  intros created'. destruct c as [c|]; [|apply along_raise].
  apply along_bind; [apply along_get_pm|]. intros p.
  apply along_bind; [apply along_set_bullets|]. intros _.
  apply along_bind; [apply along_get_pm|]. intros p'.
  apply along_bind; [apply along_set_map|]. intros _.
  apply along_bind; [apply along_get_embedding|]. intros v.
  apply along_bind; [apply along_get_pm|]. intros p''.
  apply along_bind; [apply along_set_index|]. intros _.
  apply along_bind; [apply along_save|]. intros _. apply along_ret.
Qed.

Lemma along_update_counters (bid : string) (h : bool) : along R (update_counters bid h).
Proof using R_refl R_trans R_emit R_put.
  apply along_bind; [by apply R_emit|]. intros _.
  apply along_bind; [apply along_get_pm|]. intros p.
  destruct (bullet_id_to_index p !! bid) as [i|]; [|apply along_ret].
  apply along_bind; [apply along_bullet_at|]. intros _.
  apply along_bind; [apply along_mutate_bullet|]. intros _.
  apply along_bind; [apply along_now|]. intros ts.
  apply along_bind; [apply along_mutate_bullet|]. intros _.
  apply along_bind; [apply along_save|]. intros _. apply along_ret.
Qed.

Lemma along_retrieve_relevant (q : string) (k : nat) : along R (retrieve_relevant q k).
Proof using R_refl R_trans R_emit.
  apply along_bind; [apply along_get_pm|]. intros p.
  destruct (bullets p); [apply along_ret|].
  apply along_bind; [apply along_get_embedding|]. intros v.
  apply along_bind; [apply along_lift|]. intros res. apply along_ret.
Qed.

(** From the store's entry points to the Curator and the pipeline. *)
Hypothesis R_add : forall c s, along R (add_bullet c s).
Hypothesis R_update : forall bid h, along R (update_counters bid h).
Hypothesis R_retrieve : forall q k, along R (retrieve_relevant q k).

Lemma along_mk_delta (ops : list DeltaOperation) (fid : string) :
  along R (mk_delta ops fid).
Proof using R_refl R_trans R_emit.
  apply along_bind; [apply along_now|]. intros ts. apply along_ret.
Qed.

Lemma along_find_similar (text : string) : along R (_find_similar_bullets text).
Proof using R_refl R_trans R_retrieve.
  apply along_bind; [apply along_get_pm|]. intros p.
  destruct (bullets p); [apply along_ret|].
  apply along_bind; [apply R_retrieve|]. intros res. apply along_ret.
Qed.

Lemma along_process_insights (insight : ReflectionInsight) (fid : string) :
  along R (process_insights insight fid).
Proof using R_refl R_trans R_emit R_retrieve.
  apply along_bind; [|intros ops; apply along_mk_delta].
  destruct (PrimFloat.ltb 0.5 (confidence insight)); [|apply along_ret].
  apply along_bind; [apply along_find_similar|].
  intros [|best rest]; apply along_ret.
Qed.

Lemma along_run_curator (insight : option ReflectionInsight) (fid : string) :
  along R (_run_curator insight fid).
Proof using R_refl R_trans R_emit R_retrieve.
  destruct insight as [insight|]; [|apply along_mk_delta].
  apply along_try_except; [|intros e; apply along_mk_delta].
  destruct (select_path insight).
  - apply along_mk_delta.
  - apply along_mk_delta.
  - apply along_process_insights.
Qed.

Lemma along_apply_operation (op : DeltaOperation) : along R (apply_operation op).
Proof using R_refl R_trans R_add R_update.
  unfold apply_operation.
  destruct (String.eqb (operation op) "ADD").
  { apply along_bind; [apply R_add|]. intros bid. apply along_ret. }
  destruct (String.eqb (operation op) "UPDATE"); [|apply along_ret].
  destruct (bullet_id op) as [bid|]; [|apply along_ret].
  destruct (PyStr.truthy bid); [|apply along_ret].
  apply along_bind; [apply along_repeat_call, R_update|].
  intros _. apply along_repeat_call, R_update.
Qed.

Lemma along_apply_operations (ops : list DeltaOperation) :
  along R (apply_operations ops).
Proof using R_refl R_trans R_add R_update.
  induction ops as [|op ops IH]; simpl; [apply along_ret|].
  apply along_bind; [apply along_apply_operation|]. intros _. exact IH.
Qed.

Lemma along_merge_delta (delta : DeltaUpdate) : along R (merge_delta delta).
Proof using R_refl R_trans R_emit R_add R_update.
  apply along_try_except; [|intros e; apply along_ret].
  apply along_bind; [apply along_apply_operations|]. intros _.
  apply along_bind; [|intros _; apply along_ret].
  apply along_bind; [by apply R_emit|]. intros t. apply along_ret.
Qed.

Lemma along_count_used (pos neg : bool) (used : list string) :
  along R (count_used pos neg used).
Proof using R_refl R_trans R_update.
  induction used as [|bid used IH]; cbn [count_used]; [apply along_ret|].
  apply along_bind; [|intros _; exact IH].
  destruct pos; [|destruct neg]; try apply along_ret;
    (apply along_bind; [apply R_update|intros r; apply along_ret]).
Qed.

Lemma along_update_bullet_counters (chat_data : ChatData) (feedback_data : FeedbackData) :
  along R (_update_bullet_counters chat_data feedback_data).
Proof using R_refl R_trans R_emit R_update.
  apply along_try_except; [|intros e; apply along_ret].
  destruct (used_bullets chat_data) as [|u used] eqn:Hused; [apply along_ret|].
  apply along_bind.
  { apply along_or_else; [apply along_lift|apply along_ret]. }
  intros pos. apply along_bind.
  { apply along_or_else; [apply along_lift|apply along_ret]. }
  intros neg. apply along_bind; [apply along_count_used|].
  intros _. apply along_save.
Qed.

Lemma along_extract_insights (q r ft : string) (rating : option Z) :
  along R (extract_insights_from_success q r ft rating).
Proof using R_refl R_trans.
  apply along_bind; [apply along_lift|]. intros [|]; apply along_ret.
Qed.

(** The whole of [process_feedback], when a call to the language model
    keeps the relation too. *)
Lemma along_process_feedback (fid : string) (feedback_data : option FeedbackData)
  (chat_data : option ChatData) :
  along R (emit LlmReflection) ->
  along R (process_feedback fid feedback_data chat_data).
Proof using R_refl R_trans R_emit R_add R_update R_retrieve.
  intros Hllm.
  destruct feedback_data as [fd|]; [|apply along_ret].
  destruct chat_data as [cd|]; [|apply along_ret].
  assert (Hanalyze : along R (analyze_feedback cd fd)).
  { apply along_bind; [exact Hllm|]. intros t. apply along_ret. }
  cbn [process_feedback].
  apply along_bind.
  { apply along_try_except; [|intros e; apply along_ret].
    apply along_bind.
    { apply along_or_else; [apply along_ret|apply along_lift]. }
    intros [|].
    { apply along_bind; [exact Hanalyze|]. intros i. apply along_ret. }
    apply along_bind.
    { apply along_or_else; [apply along_ret|apply along_lift]. }
    intros [|].
    - apply along_bind; [apply along_extract_insights|]. intros i. apply along_ret.
    - apply along_bind; [exact Hanalyze|]. intros i. apply along_ret. }
  intros insight. apply along_bind; [apply along_run_curator|].
  intros delta. apply along_bind.
  { apply along_try_except; [apply along_merge_delta|intros e; apply along_ret]. }
  intros ok. apply along_bind; [apply along_update_bullet_counters|].
  intros _. apply along_ret.
Qed.

End Along.

(** ** The pipeline *)

Section Pipeline.
Context `{Env}.

Lemma llm_calls_app (l1 l2 : list event) :
  llm_calls (l1 ++ l2) = (llm_calls l1 + llm_calls l2)%nat.
Proof. induction l1 as [|e l1 IH]; simpl; [done|]. destruct e; simpl; lia. Qed.

Lemma quiet_refl (w : World) : quiet w w.
Proof. reflexivity. Qed.

Lemma quiet_trans (w1 w2 w3 : World) : quiet w1 w2 -> quiet w2 w3 -> quiet w1 w3.
Proof. unfold quiet. congruence. Qed.

Lemma quiet_emit (e : event) : e <> LlmReflection -> along quiet (emit e).
Proof.
  intros Hne w. unfold quiet, emit. cbn [fst trace]. rewrite llm_calls_app.
  destruct e; simpl; try lia. done.
Qed.

Lemma quiet_put (p : PlaybookManager) : along quiet (put_pm p).
Proof. intros w. reflexivity. Qed.

Lemma store_grows_refl (w : World) : store_grows w w.
Proof. apply grows_refl. Qed.

Lemma store_grows_trans (w1 w2 w3 : World) :
  store_grows w1 w2 -> store_grows w2 w3 -> store_grows w1 w3.
Proof. apply grows_trans. Qed.

Lemma store_grows_emit (e : event) : along store_grows (emit e).
Proof. intros w. apply grows_refl. Qed.

Lemma store_grows_retrieve (q : string) (k : nat) : along store_grows (retrieve_relevant q k).
Proof. intros w. unfold store_grows. rewrite retrieve_relevant_pm. apply grows_refl. Qed.




(** The Reflector step returns in every state, leaves the store alone and
    asks the language model at most once. *)
Lemma run_reflector_returns (cd : ChatData) (fd : FeedbackData) (w : World) :
  exists w' insight,
    _run_reflector cd fd w = (w', Ret insight) /\
    pm w' = pm w /\
    (llm_calls (trace w) <= llm_calls (trace w'))%nat /\
    (llm_calls (trace w') <= llm_calls (trace w) + 1)%nat.
Proof.
  unfold _run_reflector, try_except, bind, or_else, analyze_feedback,
    extract_insights_from_success, bind, lift, ret, emit.
  destruct (String.eqb (feedback_type fd) "incorrect");
    destruct (rating fd) as [r|]; cbn;
    repeat match goal with
           | |- context [if ?b then _ else _] => destruct b; cbn
           end;
    eexists _, _; (split; [reflexivity|]); cbn [pm trace];
    rewrite ?llm_calls_app; simpl; (split; [done|lia]).
Qed.

Lemma run_curator_returns (insight : option ReflectionInsight) (fid : string) (w : World) :
  exists w' delta,
    _run_curator insight fid w = (w', Ret delta) /\
    (length (operations delta) <= 1)%nat.
Proof.
  destruct insight as [insight|]; simpl.
  2:{ rewrite mk_delta_run. eexists _, _. split; [reflexivity|]. simpl. lia. }
  unfold try_except.
  destruct (select_path insight).
  - unfold process_positive_feedback. rewrite mk_delta_run.
    eexists _, _. split; [reflexivity|]. simpl.
    destruct (PrimFloat.ltb 0.5 (confidence insight)); simpl; lia.
  - unfold process_negative_feedback. rewrite mk_delta_run.
    eexists _, _. split; [reflexivity|]. simpl.
    destruct (PrimFloat.ltb 0.6 (confidence insight)); simpl; lia.
  - destruct (process_insights_cases insight fid w) as [Hpm Hshape].
    destruct (process_insights insight fid w) as [w1 [delta|e]]; simpl in Hpm, Hshape.
    + exists w1, delta. split; [reflexivity|]. by apply Hshape.
    + rewrite mk_delta_run. eexists _, _. split; [reflexivity|]. simpl. lia.
Qed.

Lemma apply_updates_returns (delta : DeltaUpdate) (w : World) :
  exists w' ok, _apply_updates delta w = (w', Ret ok).
Proof.
  unfold _apply_updates, try_except. rewrite merge_delta_run.
  destruct (apply_operations (operations delta) w) as [w1 [[]|e]]; eauto.
Qed.

Lemma update_bullet_counters_returns (cd : ChatData) (fd : FeedbackData) (w : World) :
  exists w', _update_bullet_counters cd fd w = (w', Ret tt).
Proof.
  unfold _update_bullet_counters, try_except.
  match goal with
  | |- context [match ?c w with _ => _ end] => destruct (c w) as [w1 [[]|e]]
  end; eauto.
Qed.

Lemma count_ops_le (ops : list DeltaOperation) :
  (count_ops "ADD" ops + count_ops "UPDATE" ops <= length ops)%nat.
Proof.
  unfold count_ops. induction ops as [|op ops IH]; simpl; [lia|].
  rewrite !filter_cons.
  destruct (decide (operation op = "ADD")) as [Ha|Ha];
    destruct (decide (operation op = "UPDATE")) as [Hu|Hu]; simpl; try lia.
  congruence.
Qed.

(** The run of [process_feedback] on a feedback and a chat turn that were
    found, stage by stage. *)
Lemma process_feedback_stages (fid : string) (fd : FeedbackData) (cd : ChatData)
  (w : World) :
  exists w1 insight w2 delta w3 ok w4,
    _run_reflector cd fd w = (w1, Ret insight) /\
    _run_curator insight fid w1 = (w2, Ret delta) /\
    _apply_updates delta w2 = (w3, Ret ok) /\
    _update_bullet_counters cd fd w3 = (w4, Ret tt) /\
    process_feedback fid (Some fd) (Some cd) w =
      (w4, Ret (mkResult ok fid (match insight with Some _ => 1 | None => 0 end)
                  (count_ops "ADD" (operations delta))
                  (count_ops "UPDATE" (operations delta)) None)).
Proof.
  destruct (run_reflector_returns cd fd w) as (w1 & insight & Hr & _).
  destruct (run_curator_returns insight fid w1) as (w2 & delta & Hc & _).
  destruct (apply_updates_returns delta w2) as (w3 & ok & Ha).
  destruct (update_bullet_counters_returns cd fd w3) as (w4 & Hu).
  exists w1, insight, w2, delta, w3, ok, w4.
  split; [done|]. split; [done|]. split; [done|]. split; [done|].
  cbn [process_feedback].
  rewrite (bind_Ret _ _ _ _ _ Hr), (bind_Ret _ _ _ _ _ Hc), (bind_Ret _ _ _ _ _ Ha),
    (bind_Ret _ _ _ _ _ Hu).
  reflexivity.
Qed.

(** [process_feedback] returns, with the id it was given in the result, and
    nothing is taken back from the store. *)
Lemma process_feedback_runs (fid : string) (feedback_data : option FeedbackData)
  (chat_data : option ChatData) (w : World) :
  exists w' result,
    process_feedback fid feedback_data chat_data w = (w', Ret result) /\
    result_feedback_id result = fid /\
    grows (pm w) (pm w').
Proof.
  pose proof (along_process_feedback store_grows store_grows_refl store_grows_trans
                (fun e _ => store_grows_emit e) grows_add_bullet grows_update_counters
                store_grows_retrieve fid feedback_data chat_data
                (store_grows_emit LlmReflection) w) as Hg.
  destruct feedback_data as [fd|]; [|by eexists _, _].
  destruct chat_data as [cd|]; [|by eexists _, _].
  destruct (process_feedback_stages fid fd cd w)
    as (w1 & insight & w2 & delta & w3 & ok & w4 & _ & _ & _ & _ & Hrun).
  rewrite Hrun in Hg |- *. by eexists _, _.
Qed.

(** [process_feedback] never raises, whatever the feedback, the chat turn
    and the state of the store, and its result carries the feedback id it
    was given.  When the feedback or the chat turn is not found nothing
    happens.  Otherwise at most one insight is counted, the numbers of
    bullets added and updated add up to at most one, the language model
    was asked at most once, and nothing was taken back from the store:
    every bullet is still at its position with its id and content, and no
    counter has gone down. *)
Theorem process_feedback_never_raises (fid : string) (feedback_data : option FeedbackData)
  (chat_data : option ChatData) (w : World) :
  exists w' result,
    process_feedback fid feedback_data chat_data w = (w', Ret result) /\
    result_feedback_id result = fid /\
    (insights_generated result <= 1)%nat /\
    (bullets_added result + bullets_updated result <= 1)%nat /\
    grows (pm w) (pm w') /\
    (llm_calls (trace w') <= llm_calls (trace w) + 1)%nat /\
    (feedback_data = None \/ chat_data = None ->
       w' = w /\ success result = false /\ is_Some (error_message result)).
Proof.
  destruct feedback_data as [fd|].
  2:{ eexists _, _. split; [reflexivity|]. simpl.
      repeat split; try lia; try apply grows_refl; by eexists. }
  destruct chat_data as [cd|].
  2:{ eexists _, _. split; [reflexivity|]. simpl.
      repeat split; try lia; try apply grows_refl; by eexists. }
  destruct (process_feedback_stages fid fd cd w)
    as (w1 & insight & w2 & delta & w3 & ok & w4 & Hr & Hc & Ha & Hu & Hrun).
  rewrite Hrun. eexists _, _. split; [reflexivity|]. cbn.
  split; [done|]. split; [destruct insight; lia|]. split.
  { destruct (run_curator_returns insight fid w1) as (w2' & delta' & Hc' & Hlen).
    rewrite Hc in Hc'. injection Hc' as <- <-.
    pose proof (count_ops_le (operations delta)). lia. }
  split.
  { destruct (process_feedback_runs fid (Some fd) (Some cd) w) as (w' & res & Hrun' & _ & Hg).
    rewrite Hrun in Hrun'. by injection Hrun' as <- _. }
  split; [|intros [?|?]; done].
  destruct (run_reflector_returns cd fd w) as (w1' & insight' & Hr' & _ & _ & Hllm).
  rewrite Hr in Hr'. injection Hr' as <- <-.
  pose proof (along_run_curator quiet quiet_refl quiet_trans quiet_emit
                (along_retrieve_relevant quiet quiet_refl quiet_trans quiet_emit)
                insight fid w1) as Hq2.
  rewrite Hc in Hq2.
  pose proof (along_try_except quiet quiet_trans _ _
                (along_merge_delta quiet quiet_refl quiet_trans quiet_emit
                   (along_add_bullet quiet quiet_refl quiet_trans quiet_emit quiet_put)
                   (along_update_counters quiet quiet_refl quiet_trans quiet_emit quiet_put)
                   delta)
                (fun e => along_ret quiet quiet_refl false) w2) as Hq3.
  fold (_apply_updates delta) in Hq3. rewrite Ha in Hq3.
  pose proof (along_update_bullet_counters quiet quiet_refl quiet_trans quiet_emit
                (along_update_counters quiet quiet_refl quiet_trans quiet_emit quiet_put)
                cd fd w3) as Hq4.
  rewrite Hu in Hq4. unfold quiet in *. cbn [fst] in *. lia.
Qed.



(** Feedback without a rating.  The usage-counter step does nothing at
    all, whatever the feedback type and the bullets the chat turn used:
    comparing the missing rating raises and the exception is swallowed.
    When moreover the type is not "incorrect", the Reflector step fails in
    the same way, no insight is produced, the language model is not asked
    and the store is left as it was; the result still reports success. *)
Theorem process_feedback_unrated (fid : string) (fd : FeedbackData) (cd : ChatData)
  (w : World) :
  rating fd = None ->
  _update_bullet_counters cd fd w = (w, Ret tt) /\
  (feedback_type fd <> "incorrect" ->
   process_feedback fid (Some fd) (Some cd) w =
   (mkWorld (pm w) (trace w ++ [Now; SaveDeltaLog]),
    Ret (mkResult true fid 0 0 0 None))).
Proof.
  intros Hrating.
  assert (Hcount : forall w0, _update_bullet_counters cd fd w0 = (w0, Ret tt)).
  { intros w0. unfold _update_bullet_counters, try_except.
    destruct (used_bullets cd); [reflexivity|].
    unfold bind, or_else, bind, lift. rewrite Hrating. reflexivity. }
  split; [apply Hcount|].
  intros Htype. apply String.eqb_neq in Htype.
  assert (Hrf : _run_reflector cd fd w = (w, Ret None)).
  { unfold _run_reflector, try_except, bind, or_else, bind, lift, ret.
    rewrite Hrating, Htype. reflexivity. }
  cbn [process_feedback]. rewrite (bind_Ret _ _ _ _ _ Hrf).
  cbn [_run_curator]. rewrite (bind_Ret _ _ _ _ _ (mk_delta_run _ _ _)).
  assert (Ha : _apply_updates (mkDelta [] (isoformat (length (trace w))) fid 0)
                 (mkWorld (pm w) (trace w ++ [Now])) =
               (mkWorld (pm w) ((trace w ++ [Now]) ++ [SaveDeltaLog]), Ret true))
    by reflexivity.
  cbn [length] in *. rewrite (bind_Ret _ _ _ _ _ Ha).
  rewrite (bind_Ret _ _ _ _ _ (Hcount _)). rewrite <- app_assoc. reflexivity.
Qed.

Lemma pending_loop_spec (all_feedback : list FeedbackData)
  (chat_of : string -> option ChatData) (todo : list FeedbackData)
  (results : list ACEProcessingResult) (w : World) :
  NoDup (map result_feedback_id results) ->
  exists w' results',
    pending_loop all_feedback chat_of todo results w = (w', Ret results') /\
    NoDup (map result_feedback_id results') /\
    (forall fid, fid ∈ map result_feedback_id results' <->
       fid ∈ map result_feedback_id results \/
       (PyStr.truthy fid = true /\ fid ∈ map feedback_id todo)) /\
    grows (pm w) (pm w').
Proof.
  revert results w. induction todo as [|fb todo IH]; intros results w Hnodup.
  { exists w, results. split; [reflexivity|]. split; [done|]. split; [|apply grows_refl].
    intros fid. split; [by left|]. intros [?|[_ Hin]]; [done|].
    by apply elem_of_nil in Hin. }
  cbn [pending_loop].
  destruct (PyStr.truthy (feedback_id fb)) eqn:Hfid; cbn [andb].
  2:{ destruct (IH results w Hnodup) as (w' & results' & Hrun & Hnd & Hiff & Hg).
      exists w', results'. split; [done|]. split; [done|]. split; [|done].
      intros fid. rewrite Hiff. split; (intros [?|[Ht Hin]]; [by left|right]).
      - split; [done|]. simpl. by right.
      - split; [done|]. simpl in Hin. apply elem_of_cons in Hin as [ -> |Hin]; [|done].
        congruence. }
  destruct (bool_decide (feedback_id fb ∈ map result_feedback_id results)) eqn:Hseen;
    cbn [negb].
  { apply bool_decide_eq_true_1 in Hseen.
    destruct (IH results w Hnodup) as (w' & results' & Hrun & Hnd & Hiff & Hg).
    exists w', results'. split; [done|]. split; [done|]. split; [|done].
    intros fid. rewrite Hiff. split; (intros [?|[Ht Hin]]; [by left|]).
    - right. split; [done|]. simpl. by right.
    - simpl in Hin. apply elem_of_cons in Hin as [ -> |Hin]; [by left|by right]. }
  apply bool_decide_eq_false_1 in Hseen.
  destruct (process_feedback_runs (feedback_id fb)
              (get_feedback all_feedback (feedback_id fb)) (chat_of (feedback_id fb)) w)
    as (w1 & result & Hrun1 & Hid & Hg1).
  rewrite (bind_Ret _ _ _ _ _ Hrun1).
  assert (Hmap : map result_feedback_id (results ++ [result]) =
                 map result_feedback_id results ++ [feedback_id fb]).
  { rewrite map_app. simpl. by rewrite Hid. }
  destruct (IH (results ++ [result]) w1) as (w' & results' & Hrun & Hnd & Hiff & Hg).
  { rewrite Hmap. apply NoDup_app. split; [done|]. split; [|apply NoDup_singleton].
    intros x Hx Hx'. apply list_elem_of_singleton in Hx' as ->. done. }
  exists w', results'. split; [done|]. split; [done|].
  split; [|by eapply grows_trans].
  intros fid. rewrite Hiff, Hmap, elem_of_app, list_elem_of_singleton. simpl.
  rewrite elem_of_cons. split.
  - intros [[Hx| ->]|[Ht Hin]]; [by left|right|right]; split; try done; [by left|by right].
  - intros [Hx|[Ht [ -> |Hin]]]; [by left; left|by left; right|by right].
Qed.

(** [process_pending_feedback] never raises and processes every feedback
    id at most once: the results carry pairwise distinct feedback ids,
    which are exactly the non-empty ids found in the feedback list, and
    nothing is taken back from the store along the way. *)
Theorem process_pending_feedback_once (all_feedback : list FeedbackData)
  (chat_of : string -> option ChatData) (w : World) :
  exists w' results,
    process_pending_feedback all_feedback chat_of w = (w', Ret results) /\
    NoDup (map result_feedback_id results) /\
    (forall fid, fid ∈ map result_feedback_id results <->
       (fid <> EmptyString /\ fid ∈ map feedback_id all_feedback)) /\
    grows (pm w) (pm w').
Proof.
  destruct (pending_loop_spec all_feedback chat_of all_feedback [] w)
    as (w' & results & Hrun & Hnd & Hiff & Hg); [apply NoDup_nil_2|].
  exists w', results. split; [exact Hrun|]. split; [done|]. split; [|done].
  intros fid. rewrite Hiff. simpl. split.
  - intros [Hin|[Ht Hin]]; [by apply elem_of_nil in Hin|].
    split; [|done]. intros ->. done.
  - intros [Hne Hin]. right. split; [|done]. by destruct fid.
Qed.

End Pipeline.

(** ** The invariant along every call *)

Section ApiInvariant.
Context `{Env}.

Lemma trace_le_refl (w : World) : trace_le w w.
Proof. unfold trace_le. lia. Qed.

Lemma trace_le_trans (w1 w2 w3 : World) : trace_le w1 w2 -> trace_le w2 w3 -> trace_le w1 w3.
Proof. unfold trace_le. lia. Qed.

Lemma trace_le_emit (e : event) : e <> LlmReflection -> along trace_le (emit e).
Proof. intros _ w. unfold trace_le. cbn. rewrite length_app. lia. Qed.

Lemma trace_le_put (p : PlaybookManager) : along trace_le (put_pm p).
Proof. intros w. unfold trace_le. cbn. lia. Qed.

Variable T : nat.
Hypothesis T_fresh : uuids_fresh T.

Lemma inv_step_refl (w : World) : inv_step T w w.
Proof. split; [lia|done]. Qed.

Lemma inv_step_trans (w1 w2 w3 : World) :
  inv_step T w1 w2 -> inv_step T w2 w3 -> inv_step T w1 w3.
Proof.
  intros [Hle12 Hinv12] [Hle23 Hinv23]. split; [lia|].
  intros Hinv HT. apply Hinv23; [|done]. apply Hinv12; [done|lia].
Qed.

(** A step that leaves the store as it is. *)
Lemma inv_step_same_pm (w w' : World) :
  pm w' = pm w -> trace_le w w' -> inv_step T w w'.
Proof.
  intros Hpm Hle. split; [exact Hle|].
  intros [[Hlock Hdrawn] Hnn] _. unfold full_inv, store_inv. rewrite Hpm.
  split; [split; [done|]|done].
  intros b Hb. destruct (Hdrawn b Hb) as (t & Ht & Hid). exists t.
  unfold trace_le in Hle. split; [lia|done].
Qed.

Lemma inv_step_emit (e : event) : along (inv_step T) (emit e).
Proof.
  intros w. apply inv_step_same_pm; [reflexivity|].
  unfold trace_le. cbn. rewrite length_app. lia.
Qed.

Lemma inv_step_add (c : option string) (s : string) : along (inv_step T) (add_bullet c s).
Proof using T_fresh.
  intros w.
  pose proof (along_add_bullet trace_le trace_le_refl trace_le_trans trace_le_emit
                trace_le_put c s w) as Hle.
  destruct c as [c|].
  2:{ destruct (add_bullet_none s w) as [Hpm _]. by apply inv_step_same_pm. }
  split; [exact Hle|]. intros [Hinv Hnn] HT.
  split; [by apply (add_bullet_inv c s w T)|].
  destruct (add_bullet_pm c s w) as (b & v & Hpm & _ & _ & _ & Hh & Hk & _).
  rewrite Hpm. intros b0 Hb0. cbn [bullets] in Hb0.
  apply elem_of_app in Hb0 as [Hb0|Hb0]; [by apply Hnn|].
  apply list_elem_of_singleton in Hb0 as ->. lia.
Qed.

Lemma inv_step_update (bid : string) (h : bool) : along (inv_step T) (update_counters bid h).
Proof.
  intros w.
  pose proof (along_update_counters trace_le trace_le_refl trace_le_trans trace_le_emit
                trace_le_put bid h w) as Hle.
  destruct (bullet_id_to_index (pm w) !! bid) as [i|] eqn:Hmap.
  2:{ apply inv_step_same_pm; [|done].
      by rewrite (update_counters_unknown bid h w Hmap). }
  destruct (bullets (pm w) !! i) as [b|] eqn:Hb.
  2:{ apply inv_step_same_pm; [|done].
      by rewrite (update_counters_dangling bid h w i Hmap Hb). }
  split; [exact Hle|]. intros [[Hlock Hdrawn] Hnn] HT.
  rewrite (update_counters_known bid h w i b Hmap Hb) in HT |- *.
  cbn [fst pm trace] in *.
  set (b' := counted h (isoformat (S (length (trace w)))) b).
  assert (Hid : id b' = id b) by (by destruct h).
  assert (Hin : forall b0, b0 ∈ <[i:=b']> (bullets (pm w)) ->
                           b0 = b' \/ b0 ∈ bullets (pm w)).
  { intros b0 Hb0. apply list_elem_of_lookup in Hb0 as [j Hj].
    destruct (decide (j = i)) as [->|Hne].
    - rewrite list_lookup_insert_eq in Hj by (by eapply lookup_lt_Some).
      left. congruence.
    - rewrite list_lookup_insert_ne in Hj by done. right.
      by eapply list_elem_of_lookup_2. }
  assert (Hbin : b ∈ bullets (pm w)) by (by eapply list_elem_of_lookup_2).
  split; [split|].
  - by apply (lockstep_replace _ _ b).
  - intros b0 Hb0. cbn [pm bullets] in Hb0.
    destruct (Hin b0 Hb0) as [->|Hold].
    + destruct (Hdrawn b Hbin) as (t & Ht & Hbt). exists t.
      cbn [trace]. rewrite length_app. cbn [length]. split; [lia|by rewrite Hid].
    + destruct (Hdrawn b0 Hold) as (t & Ht & Hbt). exists t.
      cbn [trace]. rewrite length_app. simpl. split; [lia|done].
  - intros b0 Hb0. cbn [pm bullets] in Hb0.
    destruct (Hin b0 Hb0) as [->|Hold]; [|by apply Hnn].
    destruct (Hnn b Hbin) as [Hh Hk]. subst b'. destruct h; simpl; lia.
Qed.

Lemma inv_step_retrieve (q : string) (k : nat) : along (inv_step T) (retrieve_relevant q k).
Proof.
  intros w. apply inv_step_same_pm; [apply retrieve_relevant_pm|].
  apply (along_retrieve_relevant trace_le trace_le_refl trace_le_trans trace_le_emit).
Qed.

(** [deduplicate] leaves no counter negative when none was. *)
Lemma deduplicate_nonneg (thr : float) (w : World) :
  counters_nonneg (pm w) -> counters_nonneg (pm (deduplicate thr w).1).
Proof.
  intros Hnn. rewrite deduplicate_run.
  destruct (length (bullets (pm w)) <? 2)%nat eqn:Hsmall; [done|].
  apply Nat.ltb_ge in Hsmall.
  destruct (deduplicate_loops thr w Hsmall) as (w1 & removed & Hrun & _ & _ & Hnn1 & _).
  rewrite (bind_Ret _ _ _ _ _ Hrun).
  destruct (decide (removed = ∅)) as [->|Hne]; [by apply Hnn1|].
  destruct (deduplicate_tail_run removed w1) as (Hbs & _).
  intros b Hb. rewrite Hbs in Hb. apply (Hnn1 Hnn).
  by apply (elem_of_sublist _ _ _ Hb (drop_removed_sublist 0 (bullets (pm w1)) removed)).
Qed.

Lemma inv_step_deduplicate (thr : float) : along (inv_step T) (deduplicate thr).
Proof.
  intros w. split; [apply deduplicate_trace_mono|].
  intros [Hinv Hnn] _. split; [by apply deduplicate_inv|by apply deduplicate_nonneg].
Qed.

Lemma run_call_step (c : api_call) (w : World) : inv_step T w (run_call c w).
Proof using T_fresh.
  destruct c; cbn [run_call].
  - apply inv_step_add.
  - apply inv_step_update.
  - apply inv_step_retrieve.
  - apply inv_step_deduplicate.
  - apply (along_merge_delta (inv_step T) inv_step_refl inv_step_trans
             (fun e _ => inv_step_emit e) inv_step_add inv_step_update).
  - apply (along_run_curator (inv_step T) inv_step_refl inv_step_trans
             (fun e _ => inv_step_emit e) inv_step_retrieve).
  - apply (along_update_bullet_counters (inv_step T) inv_step_refl inv_step_trans
             (fun e _ => inv_step_emit e) inv_step_update).
  - apply (along_process_feedback (inv_step T) inv_step_refl inv_step_trans
             (fun e _ => inv_step_emit e) inv_step_add inv_step_update
             inv_step_retrieve _ _ _ (inv_step_emit LlmReflection)).
Qed.

Lemma run_calls_step (calls : list api_call) (w : World) :
  inv_step T w (run_calls calls w).
Proof using T_fresh.
  revert w. induction calls as [|c calls IH]; intros w; [apply inv_step_refl|].
  cbn [run_calls foldl]. eapply inv_step_trans; [apply (run_call_step c)|apply IH].
Qed.

End ApiInvariant.

Section ApiTheorem.
Context `{Env}.

Lemma run_calls_app (calls1 calls2 : list api_call) (w : World) :
  run_calls (calls1 ++ calls2) w = run_calls calls2 (run_calls calls1 w).
Proof. unfold run_calls. apply foldl_app. Qed.

(** Start from a store without bullets and let a single writer issue any
    sequence of calls: adding a bullet (with or without content), counting
    a bullet helpful or harmful (known id or not), searching,
    deduplicating, computing a Delta, merging any Delta, counting usage
    and whole runs of [process_feedback].  Provided the identifiers drawn
    during the run do not collide, after every call the store is in
    lockstep, its bullets carry distinct ids and no counter is negative,
    also when saves fail and calls raise in between. *)
Theorem api_calls_keep_invariant (calls1 calls2 : list api_call) (w0 : World) :
  pm w0 = empty_pm ->
  uuids_fresh (length (trace (run_calls (calls1 ++ calls2) w0))) ->
  lockstep (pm (run_calls calls1 w0)) /\
  NoDup (id <$> bullets (pm (run_calls calls1 w0))) /\
  counters_nonneg (pm (run_calls calls1 w0)).
Proof.
  intros Hempty Hfresh.
  set (T := length (trace (run_calls (calls1 ++ calls2) w0))) in *.
  destruct (run_calls_step T Hfresh calls1 w0) as [_ Hinv].
  destruct (run_calls_step T Hfresh calls2 (run_calls calls1 w0)) as [Hle _].
  rewrite <- run_calls_app in Hle.
  destruct Hinv as [[Hlock _] Hnn]; [|exact Hle|].
  - split; [split|]; rewrite Hempty.
    + apply lockstep_empty.
    + intros b Hb. by apply elem_of_nil in Hb.
    + intros b Hb. by apply elem_of_nil in Hb.
  - split; [done|]. split; [by apply lockstep_NoDup|done].
Qed.

End ApiTheorem.

(** ** Witnesses of the further properties *)

(** One ADD merged into the empty store. *)
Lemma merge_delta_add_witness :
  exists b v,
    bullets (pm (merge_delta (H:=Demo.demo_env) MoreExamples.delta_one_add Demo.world0).1) =
      bullets (pm Demo.world0) ++ [b] /\
    index (pm (merge_delta (H:=Demo.demo_env) MoreExamples.delta_one_add Demo.world0).1) =
      index (pm Demo.world0) ++ [v] /\
    content b = "Check the units" /\ section b = "General" /\
    helpful b = 0%Z /\ harmful b = 0%Z.
Proof.
  destruct (merge_delta_add (H:=Demo.demo_env) MoreExamples.delta_one_add
              (Examples.op_add (Some "Check the units")) Demo.world0) as [Hadd _].
  - reflexivity.
  - reflexivity.
  - apply (Hadd "Check the units"). reflexivity.
Defined.

(** Three helpful counts on the only bullet. *)
Lemma update_counters_n_times_witness :
  exists w' b',
    repeat_call 3 (update_counters (H:=Demo.demo_env) "ctx-00000001" true)
      Examples.one_bullet_world = (w', Ret tt) /\
    lockstep (pm w') /\
    bullets (pm w') !! 0%nat = Some b' /\
    helpful b' = 3%Z /\ harmful b' = 0%Z /\
    content b' = "Always confirm units before calculating.".
Proof.
  apply (update_counters_n_times (H:=Demo.demo_env) 3 "ctx-00000001" true
           Examples.one_bullet_world 0 Examples.first_bullet).
  - apply one_bullet_world_inv.
  - intros t. reflexivity.
  - vm_compute. reflexivity.
  - vm_compute. reflexivity.
Defined.

(** Looking up the only bullet. *)
Lemma get_bullet_lockstep_witness :
  exists found,
    get_bullet (H:=Demo.demo_env) "ctx-00000001" Examples.one_bullet_world =
      (Examples.one_bullet_world, Ret found) /\
    forall b, found = Some b <->
      (b ∈ bullets (pm Examples.one_bullet_world) /\ id b = "ctx-00000001").
Proof.
  apply (get_bullet_lockstep (H:=Demo.demo_env) "ctx-00000001" Examples.one_bullet_world).
  apply one_bullet_world_inv.
Defined.

(** Loading one stored bullet when the index file is missing. *)
Lemma load_playbook_positions_witness :
  stored_fields <$> bullets (pm (load_playbook (H:=Demo.demo_env)
                                   (Some (Ret (Ret <$> [Examples.first_bullet])))
                                   None Demo.world0).1) =
    stored_fields <$> [Examples.first_bullet] /\
  positions_agree (pm (load_playbook (H:=Demo.demo_env)
                         (Some (Ret (Ret <$> [Examples.first_bullet])))
                         None Demo.world0).1) /\
  lockstep (pm (load_playbook (H:=Demo.demo_env)
                  (Some (Ret (Ret <$> [Examples.first_bullet])))
                  None Demo.world0).1).
Proof.
  apply (load_playbook_positions (H:=Demo.demo_env) [Examples.first_bullet] None
           Demo.world0).
  apply (bool_decide_unpack _). vm_compute. exact I.
Defined.


(** The unrated feedback changes nothing. *)
Lemma process_feedback_unrated_witness :
  _update_bullet_counters (H:=Demo.demo_env) Examples.chat_one MoreExamples.unrated
    Examples.one_bullet_world = (Examples.one_bullet_world, Ret tt) /\
  process_feedback (H:=Demo.demo_env) "fb-6" (Some MoreExamples.unrated)
    (Some Examples.chat_one) Examples.one_bullet_world =
  (mkWorld (pm Examples.one_bullet_world)
           (trace Examples.one_bullet_world ++ [Now; SaveDeltaLog]),
   Ret (mkResult true "fb-6" 0 0 0 None)).
Proof.
  destruct (process_feedback_unrated (H:=Demo.demo_env) "fb-6" MoreExamples.unrated
              Examples.chat_one Examples.one_bullet_world) as [Hcount Hrun].
  - reflexivity.
  - split; [exact Hcount|]. apply Hrun. discriminate.
Defined.

(** A day of calls from the empty store. *)
Lemma api_calls_keep_invariant_witness :
  lockstep (pm (run_calls (H:=Demo.demo_env) MoreExamples.a_day Demo.world0)) /\
  NoDup (id <$> bullets (pm (run_calls (H:=Demo.demo_env) MoreExamples.a_day
                               Demo.world0))) /\
  counters_nonneg (pm (run_calls (H:=Demo.demo_env) MoreExamples.a_day Demo.world0)).
Proof.
  apply (api_calls_keep_invariant (H:=Demo.demo_env) MoreExamples.a_day
           MoreExamples.next_day Demo.world0).
  - reflexivity.
  - apply (bool_decide_unpack _). vm_compute. exact I.
Defined.
